(** * tailmon: registration, discovery and presence, verified against the Go sources

    The development embeds the pure parts of the three Go packages of the
    repository (the [tshttp] presence manager, the [tailmon] exporter proxy and
    the [tailmon-discover] target enumerator) together with the few functions of
    the Go standard library they call, and proves the properties of the
    specification about them.

    A Go [string] is an immutable sequence of bytes: it is modelled by
    [String.string], whose characters are the 8-bit [ascii] values.  Go's [int],
    [int64] and [rune] are modelled by [Z]. *)

From Stdlib Require Import ZArith List Bool Ascii String DecimalString Lia ZifyBool.
From Stdlib Require Import Sorting.Sorted Sorting.Permutation.
From Stdlib Require DecimalPos.
From stdpp Require Import base option gmap strings sorting.

Local Open Scope Z_scope.

(** ** Byte strings *)

Module GoString.

(** The numeric value of a byte, and the conversion [byte(v)], which keeps
    the low eight bits. *)
Definition byte_val (c : ascii) : Z := Z.of_N (N_of_ascii c).
Definition to_byte (v : Z) : ascii := ascii_of_N (Z.to_N (v mod 256)).

(** [len(s)] *)
Definition len (s : string) : Z := Z.of_nat (String.length s).

(** [s[i]] for an index the caller has checked to be in range. *)
Definition idx (s : string) (i : nat) : Z :=
  match String.get i s with
  | Some c => byte_val c
  | None => 0
  end.

(** [s[n:]] *)
Fixpoint drop (n : nat) (s : string) : string :=
  match n, s with
  | O, _ => s
  | S _, EmptyString => EmptyString
  | S k, String _ t => drop k t
  end.

(** [s[:n]] *)
Fixpoint take (n : nat) (s : string) : string :=
  match n, s with
  | O, _ => EmptyString
  | S _, EmptyString => EmptyString
  | S k, String c t => String c (take k t)
  end.

End GoString.

Import GoString.

(** ** unicode/utf8 *)

Module utf8.

Definition RuneError : Z := 0xFFFD.
Definition RuneSelf : Z := 0x80.
Definition MaxRune : Z := 0x10FFFF.
Definition UTFMax : Z := 4.

Definition surrogateMin : Z := 0xD800.
Definition surrogateMax : Z := 0xDFFF.

Definition tx : Z := 0x80.
Definition t2 : Z := 0xC0.
Definition t3 : Z := 0xE0.
Definition t4 : Z := 0xF0.

Definition maskx : Z := 0x3F.
Definition mask2 : Z := 0x1F.
Definition mask3 : Z := 0x0F.
Definition mask4 : Z := 0x07.

Definition rune1Max : Z := 0x7F.
Definition rune2Max : Z := 0x7FF.
Definition rune3Max : Z := 0xFFFF.

Definition locb : Z := 0x80.
Definition hicb : Z := 0xBF.

(** The classes of a first byte: the low three bits give the length of the
    sequence, the high four bits index [acceptRanges]. *)
Definition xx : Z := 0xF1.
Definition as_ : Z := 0xF0.
Definition s1 : Z := 0x02.
Definition s2 : Z := 0x13.
Definition s3 : Z := 0x03.
Definition s4 : Z := 0x23.
Definition s5 : Z := 0x34.
Definition s6 : Z := 0x04.
Definition s7 : Z := 0x44.

(** The table [first], one entry per byte value, written as its runs. *)
Definition first (b : Z) : Z :=
  if b <? 0x80 then as_
  else if b <? 0xC2 then xx
  else if b <? 0xE0 then s1
  else if b =? 0xE0 then s2
  else if b <? 0xED then s3
  else if b =? 0xED then s4
  else if b <? 0xF0 then s3
  else if b =? 0xF0 then s5
  else if b <? 0xF4 then s6
  else if b =? 0xF4 then s7
  else xx.

(** [acceptRanges]: the bounds of the second byte.  The array has sixteen
    entries, the last eleven zero. *)
Definition acceptRanges (i : Z) : Z * Z :=
  match i with
  | 0 => (locb, hicb)
  | 1 => (0xA0, hicb)
  | 2 => (locb, 0x9F)
  | 3 => (0x90, hicb)
  | 4 => (locb, 0x8F)
  | _ => (0, 0)
  end.

(** [utf8.DecodeRuneInString]: the first rune of [s] and its width in bytes;
    [(RuneError, 0)] on the empty string and [(RuneError, 1)] on a byte that
    starts no well-formed sequence.  In the source the one-byte case selects
    between [s[0]] and [RuneError] with a mask built from the low bit of the
    class, which tells [xx] from [as]. *)
Definition DecodeRuneInString (s : string) : Z * Z :=
  let n := len s in
  if n <? 1 then (RuneError, 0) else
  let b0 := idx s 0 in
  let x := first b0 in
  if as_ <=? x then
    ((if Z.testbit x 0 then RuneError else b0), 1)
  else
    let sz := Z.land x 7 in
    let accept := acceptRanges (Z.shiftr x 4) in
    if n <? sz then (RuneError, 1) else
    let b1 := idx s 1 in
    if (b1 <? fst accept) || (snd accept <? b1) then (RuneError, 1) else
    if sz <=? 2 then
      (Z.lor (Z.shiftl (Z.land b0 mask2) 6) (Z.land b1 maskx), 2)
    else
    let b2 := idx s 2 in
    if (b2 <? locb) || (hicb <? b2) then (RuneError, 1) else
    if sz <=? 3 then
      (Z.lor (Z.lor (Z.shiftl (Z.land b0 mask3) 12)
                    (Z.shiftl (Z.land b1 maskx) 6))
             (Z.land b2 maskx), 3)
    else
    let b3 := idx s 3 in
    if (b3 <? locb) || (hicb <? b3) then (RuneError, 1) else
    (Z.lor (Z.lor (Z.lor (Z.shiftl (Z.land b0 mask4) 18)
                         (Z.shiftl (Z.land b1 maskx) 12))
                  (Z.shiftl (Z.land b2 maskx) 6))
           (Z.land b3 maskx), 4).

(** [utf8.AppendRune] onto the empty buffer, that is the encoding of [r].
    The comparisons of the source are on [uint32(r)]. *)
Definition uint32 (r : Z) : Z := r mod 2 ^ 32.

Definition encode3 (r : Z) : string :=
  String (to_byte (Z.lor t3 (Z.shiftr r 12)))
 (String (to_byte (Z.lor tx (Z.land (Z.shiftr r 6) maskx)))
 (String (to_byte (Z.lor tx (Z.land r maskx))) EmptyString)).

Definition EncodeRune (r : Z) : string :=
  let i := uint32 r in
  if i <=? rune1Max then String (to_byte r) EmptyString
  else if i <=? rune2Max then
    String (to_byte (Z.lor t2 (Z.shiftr r 6)))
   (String (to_byte (Z.lor tx (Z.land r maskx))) EmptyString)
  else if (MaxRune <? i) || ((surrogateMin <=? i) && (i <=? surrogateMax)) then
    encode3 RuneError
  else if i <=? rune3Max then encode3 r
  else
    String (to_byte (Z.lor t4 (Z.shiftr r 18)))
   (String (to_byte (Z.lor tx (Z.land (Z.shiftr r 12) maskx)))
   (String (to_byte (Z.lor tx (Z.land (Z.shiftr r 6) maskx)))
   (String (to_byte (Z.lor tx (Z.land r maskx))) EmptyString))).

(** [utf8.RuneLen]: the number of bytes of the encoding of [r], or [-1] if
    [r] cannot be encoded. *)
Definition RuneLen (r : Z) : Z :=
  if r <? 0 then -1
  else if r <=? rune1Max then 1
  else if r <=? rune2Max then 2
  else if (surrogateMin <=? r) && (r <=? surrogateMax) then -1
  else if r <=? rune3Max then 3
  else if r <=? MaxRune then 4
  else -1.

(** [utf8.ValidRune]: the code points that UTF-8 can encode, that is those
    in range that are not surrogate halves. *)
Definition ValidRune (r : Z) : bool :=
  if (0 <=? r) && (r <? surrogateMin) then true
  else if (surrogateMax <? r) && (r <=? MaxRune) then true
  else false.

(** The body of [DecodeRuneInString] as a function of the length of the
    string and of its first four bytes. *)
Definition decodeBytes (n b0 b1 b2 b3 : Z) : Z * Z :=
  if n <? 1 then (RuneError, 0) else
  let x := first b0 in
  if as_ <=? x then
    ((if Z.testbit x 0 then RuneError else b0), 1)
  else
    let sz := Z.land x 7 in
    let accept := acceptRanges (Z.shiftr x 4) in
    if n <? sz then (RuneError, 1) else
    if (b1 <? fst accept) || (snd accept <? b1) then (RuneError, 1) else
    if sz <=? 2 then
      (Z.lor (Z.shiftl (Z.land b0 mask2) 6) (Z.land b1 maskx), 2)
    else
    if (b2 <? locb) || (hicb <? b2) then (RuneError, 1) else
    if sz <=? 3 then
      (Z.lor (Z.lor (Z.shiftl (Z.land b0 mask3) 12)
                    (Z.shiftl (Z.land b1 maskx) 6))
             (Z.land b2 maskx), 3)
    else
    if (b3 <? locb) || (hicb <? b3) then (RuneError, 1) else
    (Z.lor (Z.lor (Z.lor (Z.shiftl (Z.land b0 mask4) 18)
                         (Z.shiftl (Z.land b1 maskx) 12))
                  (Z.shiftl (Z.land b2 maskx) 6))
           (Z.land b3 maskx), 4).

(** What the proofs need of a decoded pair: the rune can be encoded, and
    the width is between one and four bytes and within the string. *)
Definition decoded_ok (n : Z) (p : Z * Z) : Prop :=
  ValidRune (fst p) = true /\ 1 <= snd p <= 4 /\ snd p <= n.

End utf8.

(** ** unicode *)

Module unicode.

Definition MaxLatin1 : Z := 0xFF.

(** The range tables [unicode.Letter] and [unicode.Digit] restricted to the
    code points above Latin-1, which is all [isExcludingLatin] reads of them.
    They are data of the Unicode standard and are taken as a parameter. *)
Class RangeTables := {
  Letter : Z -> bool;
  Digit : Z -> bool
}.

(** The entries of the table [properties] that carry a letter bit
    ([pLmask]): A-Z, a-z, the two ordinal indicators, the micro sign, and
    the Latin-1 letters, which leave out the multiplication and division
    signs. *)
Definition latin1Letter (r : Z) : bool :=
  ((0x41 <=? r) && (r <=? 0x5A)) || ((0x61 <=? r) && (r <=? 0x7A))
  || (r =? 0xAA) || (r =? 0xB5) || (r =? 0xBA)
  || ((0xC0 <=? r) && (r <=? 0xD6)) || ((0xD8 <=? r) && (r <=? 0xF6))
  || ((0xF8 <=? r) && (r <=? 0xFF)).

Section Predicates.
Context `{RangeTables}.

(** [unicode.IsLetter]; the Latin-1 test is on [uint32(r)]. *)
Definition IsLetter (r : Z) : bool :=
  if utf8.uint32 r <=? MaxLatin1 then latin1Letter (utf8.uint32 r)
  else Letter r.

(** [unicode.IsDigit] *)
Definition IsDigit (r : Z) : bool :=
  if r <=? MaxLatin1 then (0x30 <=? r) && (r <=? 0x39)
  else Digit r.
End Predicates.

(** An excerpt of the tables, enough to run the functions on examples: the
    Greek small letters alpha to omega, the basic Cyrillic letters, and the
    Arabic-Indic digits. *)
Definition excerpt : RangeTables := {|
  Letter r := ((0x3B1 <=? r) && (r <=? 0x3C9)) || ((0x410 <=? r) && (r <=? 0x44F));
  Digit r := (0x660 <=? r) && (r <=? 0x669)
|}.

End unicode.

(** ** The [range] loop over a string *)

Module GoRange.

(** [for _, c := range s] visits the runes of [s] in order: each step decodes
    one rune as [utf8.DecodeRuneInString] does and advances by its width.  A
    step consumes at least one byte, so [length s] steps are enough. *)
Fixpoint rangeFrom (fuel : nat) (s : string) : list Z :=
  match fuel with
  | O => []
  | S k =>
    match s with
    | EmptyString => []
    | String _ _ =>
      let '(c, w) := utf8.DecodeRuneInString s in
      c :: rangeFrom k (drop (Z.to_nat w) s)
    end
  end.

Definition runes (s : string) : list Z := rangeFrom (String.length s) s.

End GoRange.

(** ** strings *)

Module strings.

(** [strings.HasPrefix]:
    [len(s) >= len(prefix) && s[:len(prefix)] == prefix] *)
Definition HasPrefix (s prefix : string) : bool :=
  (len prefix <=? len s) && String.eqb (take (String.length prefix) s) prefix.

(** [strings.TrimPrefix] *)
Definition TrimPrefix (s prefix : string) : string :=
  if HasPrefix s prefix then drop (String.length prefix) s else s.

(** [strings.Index]: the index of the first instance of [substr] in [s], or
    [-1] if there is none. *)
Fixpoint Index (s substr : string) : Z :=
  if HasPrefix s substr then 0
  else match s with
       | EmptyString => -1
       | String _ t => let i := Index t substr in if i <? 0 then -1 else i + 1
       end.

(** [strings.Cut]:
    [if i := Index(s, sep); i >= 0 { return s[:i], s[i+len(sep):], true }]
    [return s, "", false] *)
Definition Cut (s sep : string) : string * string * bool :=
  let i := Index s sep in
  if 0 <=? i then (take (Z.to_nat i) s, drop (Z.to_nat (i + len sep)) s, true)
  else (s, "", false).

(** [strings.Map] returns a copy of [s] with its runes changed by [mapping],
    a negative result dropping the rune.  It runs two loops.  The first
    ranges over [s] until it meets a rune that the mapping changes, or a byte
    that is no well-formed sequence; nothing is copied until then.  [mapScan]
    is that loop from the byte index [i]: the index at which it breaks with
    the mapped rune [r] and the [width] of what it replaces, or [None] when
    it reaches the end of the string, which [Map] then returns as it is. *)
Fixpoint mapScan (fuel : nat) (mapping : Z -> Z) (s : string) (i : nat)
  : option (nat * Z * Z) :=
  match fuel with
  | O => None
  | S k =>
    match drop i s with
    | EmptyString => None
    | String _ _ as t =>
      let '(c, w) := utf8.DecodeRuneInString t in
      let r := mapping c in
      if (r =? c) && negb (c =? utf8.RuneError) then
        mapScan k mapping s (i + Z.to_nat w)
      else if c =? utf8.RuneError then
        let '(c', width) := utf8.DecodeRuneInString t in
        if negb (width =? 1) && (r =? c') then mapScan k mapping s (i + Z.to_nat w)
        else Some (i, r, width)
      else Some (i, r, utf8.RuneLen c)
    end
  end.

(** The second loop, over what is left of [s]: every rune is mapped and
    written, a rune below [RuneSelf] as one byte. *)
Definition mapRest (mapping : Z -> Z) (s : string) : string :=
  fold_right
    (fun c acc =>
       let r := mapping c in
       if 0 <=? r then
         (if r <? utf8.RuneSelf then String (to_byte r) "" else utf8.EncodeRune r)
         +:+ acc
       else acc)
    "" (GoRange.runes s).

Definition Map (mapping : Z -> Z) (s : string) : string :=
  match mapScan (String.length s) mapping s 0 with
  | None => s
  | Some (i, r, width) =>
    take i s +:+ (if 0 <=? r then utf8.EncodeRune r else "")
    +:+ mapRest mapping (drop (i + Z.to_nat width) s)
  end.

End strings.

(** ** errors and strconv *)

Module strconv.

Inductive numErr := ErrSyntax | ErrRange | ErrBase (base : Z) | ErrBitSize (bits : Z).

(** [*strconv.NumError] *)
Record NumError := { Func : string; Num : string; Err : numErr }.

Definition syntaxError (fn str : string) : NumError :=
  {| Func := fn; Num := str; Err := ErrSyntax |}.
Definition rangeError (fn str : string) : NumError :=
  {| Func := fn; Num := str; Err := ErrRange |}.
Definition baseError (fn str : string) (base : Z) : NumError :=
  {| Func := fn; Num := str; Err := ErrBase base |}.
Definition bitSizeError (fn str : string) (bits : Z) : NumError :=
  {| Func := fn; Num := str; Err := ErrBitSize bits |}.

Definition IntSize : Z := 64.
Definition maxUint64 : Z := 2 ^ 64 - 1.
Definition uint64 (v : Z) : Z := v mod 2 ^ 64.
(** The conversion [int64(u)] of an unsigned value, and negation, wrap. *)
Definition int64 (v : Z) : Z := (v + 2 ^ 63) mod 2 ^ 64 - 2 ^ 63.

(** [lower(c)]: [c | ('x' - 'X')] *)
Definition lower (c : Z) : Z := Z.lor c 0x20.

(** The digit loop of [ParseUint], for a base that is given explicitly
    (underscores are only read when the base argument is 0). *)
Fixpoint parseDigits (s0 : string) (base cutoff maxVal : Z) (cs : string) (n : Z)
  : Z * option NumError :=
  match cs with
  | EmptyString => (n, None)
  | String ch t =>
    let c := byte_val ch in
    let digit :=
      if (0x30 <=? c) && (c <=? 0x39) then Some (c - 0x30)
      else if (0x61 <=? lower c) && (lower c <=? 0x7A) then Some (lower c - 0x61 + 10)
      else None in
    match digit with
    | None => (0, Some (syntaxError "ParseUint" s0))
    | Some d =>
      if base mod 256 <=? d then (0, Some (syntaxError "ParseUint" s0))
      else if cutoff <=? n then (maxVal, Some (rangeError "ParseUint" s0))
      else
        let n' := uint64 (n * base) in
        let n1 := uint64 (n' + d) in
        if (n1 <? n') || (maxVal <? n1) then (maxVal, Some (rangeError "ParseUint" s0))
        else parseDigits s0 base cutoff maxVal t n1
    end
  end.

(** [strconv.ParseUint] for [2 <= base <= 36]; the source's prefix detection
    for [base == 0] is not needed by this program, which passes 10, and is
    answered here like an invalid base. *)
Definition ParseUint (s : string) (base bitSize : Z) : Z * option NumError :=
  if String.eqb s "" then (0, Some (syntaxError "ParseUint" s))
  else if negb ((2 <=? base) && (base <=? 36)) then (0, Some (baseError "ParseUint" s base))
  else
    let bits := if bitSize =? 0 then IntSize else bitSize in
    if (bits <? 0) || (64 <? bits) then (0, Some (bitSizeError "ParseUint" s bitSize))
    else
      let cutoff := maxUint64 / base + 1 in
      let maxVal := uint64 (uint64 (Z.shiftl 1 bits) - 1) in
      parseDigits s base cutoff maxVal s 0.

(** [strconv.ParseInt] *)
Definition ParseInt (s : string) (base bitSize : Z) : Z * option NumError :=
  match s with
  | EmptyString => (0, Some (syntaxError "ParseInt" s))
  | String c0 t =>
    let s0 := s in
    let '(neg, s) :=
      if byte_val c0 =? 0x2B then (false, t)
      else if byte_val c0 =? 0x2D then (true, t)
      else (false, s) in
    let '(un, err) := ParseUint s base bitSize in
    let failed :=
      match err with
      | Some e => match Err e with ErrRange => None | other => Some other end
      | None => None
      end in
    match failed with
    | Some other => (0, Some {| Func := "ParseInt"; Num := s0; Err := other |})
    | None =>
      let bitSize := if bitSize =? 0 then IntSize else bitSize in
      let cutoff := uint64 (Z.shiftl 1 (bitSize - 1)) in
      if negb neg && (cutoff <=? un) then
        (int64 (cutoff - 1), Some (rangeError "ParseInt" s0))
      else if neg && (cutoff <? un) then
        (int64 (- cutoff), Some (rangeError "ParseInt" s0))
      else
        let n := int64 un in
        ((if neg then int64 (- n) else n), None)
    end
  end.

End strconv.

(** ** Errors, results and slices *)

(** The values of the interface [error] that this program creates or
    inspects: [errors.New] texts, [*strconv.NumError], and the path errors of
    package [os], of which [errors.Is(err, fs.ErrExist)] is all that is
    read. *)
Inductive error :=
| errorString (text : string)
| numError (e : strconv.NumError)
| pathError (op path : string) (isExist : bool).

Definition errors_Is_ErrExist (err : error) : bool :=
  match err with
  | pathError _ _ isExist => isExist
  | _ => false
  end.

(** A Go pair [(value, error)] where the value only counts when the error is
    [nil]. *)
Inductive result (A : Type) :=
| Ok (a : A)
| Fail (err : error).
Arguments Ok {A} a.
Arguments Fail {A} err.

(** A slice is [nil] or holds elements: [var s []T] is [nil], and [append]
    always returns a slice that is not. *)
Definition slice (A : Type) := option (list A).

Definition append {A} (s : slice A) (x : A) : slice A :=
  match s with
  | None => Some [x]
  | Some l => Some (l ++ [x])
  end.

Definition elems {A} (s : slice A) : list A :=
  match s with
  | None => []
  | Some l => l
  end.

(** [%d] *)
Definition itoa (n : Z) : string := DecimalString.NilZero.string_of_int (Z.to_int n).

(** ** net/netip *)

Module netip.

(** The field [z] of an address: [z0] for the zero [Addr], [z4] for IPv4,
    [z6noz] for IPv6 without a zone, or an IPv6 zone name. *)
Inductive zoneT := z0 | z4 | z6noz | z6zone (name : string).

(** [netip.Addr]: the 128-bit value as its two halves, and [z]. *)
Record Addr := { hi : Z; lo : Z; z : zoneT }.

Definition AddrFrom4 (a b c d : Z) : Addr :=
  {| hi := 0;
     lo := Z.lor 0xffff00000000
             (Z.lor (Z.lor (Z.lor (Z.shiftl a 24) (Z.shiftl b 16)) (Z.shiftl c 8)) d);
     z := z4 |}.

Definition Is4 (ip : Addr) : bool :=
  match z ip with z4 => true | _ => false end.

Definition Is6 (ip : Addr) : bool :=
  match z ip with z0 | z4 => false | _ => true end.

Definition Is4In6 (ip : Addr) : bool :=
  Is6 ip && (hi ip =? 0) && (Z.shiftr (lo ip) 32 =? 0xffff).

Definition BitLen (ip : Addr) : Z :=
  match z ip with z0 => 0 | z4 => 32 | _ => 128 end.

Definition Zone (ip : Addr) : string :=
  match z ip with z6zone name => name | _ => "" end.

Definition Unmap (ip : Addr) : Addr :=
  if Is4In6 ip then {| hi := hi ip; lo := lo ip; z := z4 |} else ip.

(** [Addr.Compare]: by bit length, then by value, then by zone. *)
Definition Compare (ip ip2 : Addr) : Z :=
  let f1 := BitLen ip in
  let f2 := BitLen ip2 in
  if f1 <? f2 then -1
  else if f2 <? f1 then 1
  else if hi ip <? hi ip2 then -1
  else if hi ip2 <? hi ip then 1
  else if lo ip <? lo ip2 then -1
  else if lo ip2 <? lo ip then 1
  else if Is6 ip then
    if String.ltb (Zone ip) (Zone ip2) then -1
    else if String.ltb (Zone ip2) (Zone ip) then 1
    else 0
  else 0.

(** [Addr.Less] *)
Definition Less (ip ip2 : Addr) : bool := Compare ip ip2 =? -1.

Definition v4 (ip : Addr) (i : Z) : Z := Z.shiftr (lo ip) ((3 - i) * 8) mod 256.

Definition v6u16 (ip : Addr) (i : Z) : Z :=
  Z.shiftr (if (i / 4) mod 2 =? 0 then hi ip else lo ip) ((3 - i mod 4) * 16) mod 65536.

Definition string4 (ip : Addr) : string :=
  itoa (v4 ip 0) +:+ "." +:+ itoa (v4 ip 1) +:+ "." +:+ itoa (v4 ip 2) +:+ "." +:+ itoa (v4 ip 3).

Definition hexDigit (d : Z) : string :=
  String (to_byte (if d <? 10 then 0x30 + d else 0x61 + d - 10)) "".

Definition appendHex (x : Z) : string :=
  (if 0x1000 <=? x then hexDigit (Z.shiftr x 12) else "")
  +:+ (if 0x100 <=? x then hexDigit (Z.land (Z.shiftr x 8) 0xf) else "")
  +:+ (if 0x10 <=? x then hexDigit (Z.land (Z.shiftr x 4) 0xf) else "")
  +:+ hexDigit (Z.land x 0xf).

(** The end of the run of zero groups that starts at [j]. *)
Fixpoint zeroRun (fuel : nat) (ip : Addr) (j : Z) : Z :=
  match fuel with
  | O => j
  | S k => if (j <? 8) && (v6u16 ip j =? 0) then zeroRun k ip (j + 1) else j
  end.

(** The longest run of at least two zero groups, the first one on a tie;
    [(255, 255)] when there is none. *)
Definition zeroSpan (ip : Addr) : Z * Z :=
  fold_left
    (fun (acc : Z * Z) (i : Z) =>
       let j := zeroRun 8 ip i in
       let l := j - i in
       if (2 <=? l) && (snd acc - fst acc <? l) then (i, j) else acc)
    [0; 1; 2; 3; 4; 5; 6; 7] (255, 255).

Fixpoint groupsFrom (fuel : nat) (ip : Addr) (zeroStart zeroEnd i : Z) : string :=
  match fuel with
  | O => ""
  | S k =>
    if 8 <=? i then ""
    else if i =? zeroStart then
      "::" +:+ (if 8 <=? zeroEnd then ""
                else appendHex (v6u16 ip zeroEnd)
                     +:+ groupsFrom k ip zeroStart zeroEnd (zeroEnd + 1))
    else
      (if 0 <? i then ":" else "") +:+ appendHex (v6u16 ip i)
      +:+ groupsFrom k ip zeroStart zeroEnd (i + 1)
  end.

Definition zoneSuffix (ip : Addr) : string :=
  match z ip with
  | z6noz => ""
  | _ => "%" +:+ Zone ip
  end.

Definition string6 (ip : Addr) : string :=
  let '(zeroStart, zeroEnd) := zeroSpan ip in
  groupsFrom 9 ip zeroStart zeroEnd 0 +:+ zoneSuffix ip.

Definition string4In6 (ip : Addr) : string :=
  "::ffff:" +:+ string4 (Unmap ip) +:+ zoneSuffix ip.

(** [Addr.String] *)
Definition String (ip : Addr) : string :=
  match z ip with
  | z0 => "invalid IP"
  | z4 => string4 ip
  | _ => if Is4In6 ip then string4In6 ip else string6 ip
  end.

End netip.

(** ** sort *)

Module sort.
Section Stable.
Context {A : Type} (less : A -> A -> bool).

(** One pass of the inner loop of [insertionSort]: the new element, at
    the right end of the sorted prefix, is swapped with its left
    neighbour while it is less than it.  The prefix is held right to
    left. *)
Fixpoint insertLast (x : A) (revPrefix : list A) : list A :=
  match revPrefix with
  | [] => [x]
  | y :: ys => if less x y then y :: insertLast x ys else x :: revPrefix
  end.

Definition insertionSort (l : list A) : list A :=
  rev (fold_left (fun acc x => insertLast x acc) l []).

(** [sort.SliceStable]: a stable sort by [less].  The library sorts blocks
    of twenty elements by insertion and merges them with [symMerge]; the
    result of a stable sort being determined by [less], it is the one
    insertion gives on the whole slice. *)
Definition SliceStable (s : slice A) : slice A :=
  match s with
  | None => None
  | Some l => Some (insertionSort l)
  end.
End Stable.
End sort.

(** ** The overlay provider: tsnet and ipnstate *)

Module PeerStatus.
(** [ipnstate.PeerStatus], the fields this program reads. *)
Record t := {
  ID : string;
  HostName : string;
  DNSName : string;
  TailscaleIPs : list netip.Addr
}.
End PeerStatus.

Module Status.
(** [ipnstate.Status].  [Peer] is a Go map keyed by the peers' public keys;
    the program only ranges over its values, and the list gives them in the
    order in which the loop meets them.  [Self] is taken to be set, as it is
    once the backend runs. *)
Record t := {
  BackendState : string;
  AuthURL : string;
  Health : list string;
  TailscaleIPs : list netip.Addr;
  Self : PeerStatus.t;
  Peer : list PeerStatus.t
}.
End Status.

Module tsnet.

(** Where the provider's log lines go. *)
Inductive LogSink := Infof (loggerName : string) | Discard.

(** [tsnet.Server] as this program configures it. *)
Record Server := {
  Dir : string;
  Hostname : string;
  ControlURL : string;
  Logf : LogSink
}.

(** What the local client answers: one answer to [Status], and the answer
    to the [n]-th call of [StatusWithoutPeers]. *)
Record LocalClientT := {
  Status : result Status.t;
  StatusWithoutPeers : nat -> result Status.t
}.

(** The provider seen from the caller: the outcome of [LocalClient()]. *)
Record Handle := { LocalClient : result LocalClientT }.

End tsnet.

(** ** What the program does besides returning values *)

Inductive Level := DebugLevel | InfoLevel | ErrorLevel | FatalLevel.

Inductive Field :=
| zapString (key value : string)
| zapStrings (key : string) (values : list string)
| zapInt (key : string) (value : Z)
| zapError (err : error).

Inductive Event :=
| Log (lvl : Level) (msg : string) (fields : list Field)
| Sleep (nanoseconds : Z)
| ProxyServeHTTP (upstream : string) (path : string)
| WriteHeader (code : Z)
| WriteString (body : string).

Definition Second : Z := 1000000000.
Definition StatusNotFound : Z := 404.
Definition StatusInternalServerError : Z := 500.

(** The line feed, and a text between double quotes: what [%q] prints of a
    text of printable ASCII characters that holds neither a quote nor a
    backslash. *)
Definition LF : string := String (to_byte 10) "".
Definition quoted (s : string) : string :=
  String (to_byte 34) (s +:+ String (to_byte 34) "").

(** ** The command line *)

(** The flags of the two commands, as [flag.Parse] leaves them. *)
Record Flags := {
  flagDebug : bool;
  flagState : string;
  flagNoLogs : bool;
  controlURL : string
}.

(** What a command prints before it gives up: the text [usageMessage], the
    list of flags that [flag.PrintDefaults] writes, a text of its own, or the
    line [fmt.Fprintf(os.Stderr, "%s: %s\n", epStr, err)] about an
    argument. *)
Inductive Printed :=
| UsageMessage
| PrintDefaults
| Text (s : string)
| ArgError (epStr : string) (err : error).

(** How the checks at the head of [main] end: by [os.Exit] after some
    output, or with what the rest of [main] works on. *)
Inductive Startup (A : Type) :=
| Exit (printed : list Printed) (code : Z)
| Proceed (a : A).
Arguments Exit {A} printed code.
Arguments Proceed {A} a.

(** [usage()], called after [printed] has been written: it writes the
    message and the flags and exits with status 1. *)
Definition usage {A} (printed : list Printed) : Startup A :=
  Exit (printed ++ [UsageMessage; PrintDefaults]) 1.

(** ** encoding/json, as far as the discovery document goes *)

Module json.

#[warnings="-register-all"] Inductive value :=
| Null
| Str (s : string)
| Array (items : list value)
| Object (members : list (string * value)).

(** A slice of strings: [null] when nil, else an array. *)
Definition ofStrings (s : slice string) : value :=
  match s with
  | None => Null
  | Some l => Array (map Str l)
  end.

Fixpoint insertKey (kv : string * string) (l : list (string * string)) :=
  match l with
  | [] => [kv]
  | kv' :: t => if String.ltb (fst kv) (fst kv') then kv :: l else kv' :: insertKey kv t
  end.

(** A map with string keys: an object whose members are sorted by key. *)
Definition ofStringMap (m : gmap string string) : value :=
  Object (map (fun kv => (fst kv, Str (snd kv)))
              (fold_right insertKey [] (map_to_list m))).

End json.

(** ** net/url, as far as the upstream URL goes *)

Module url.

(** [validOptionalPort]: the empty text, or a colon followed by decimal
    digits only.  The loop ranges over the runes after the colon. *)
Definition validOptionalPort (port : string) : bool :=
  match port with
  | EmptyString => true
  | String c t =>
    if negb (byte_val c =? 0x3A) then false
    else forallb (fun b => negb ((b <? 0x30) || (0x39 <? b))) (GoRange.runes t)
  end.

(** [url.Parse] on the text [http://localhost:<port>], where [<port>] is
    what [%d] prints, digits after an optional minus sign.  The scheme, the
    authority, which has no user information, and the empty path are taken as
    they are; the one check that can fail is that of [parseHost] on
    [colonPort], the host from its last colon on.  The failure is the
    [*url.Error] of operation [parse], given by its text. *)
Definition ParseLocalhost (port : string) : result string :=
  let rawURL := "http://localhost:" +:+ port in
  let colonPort := ":" +:+ port in
  if negb (validOptionalPort colonPort) then
    Fail (errorString ("parse " +:+ quoted rawURL +:+ ": invalid port "
                       +:+ quoted colonPort +:+ " after host"))
  else Ok rawURL.

End url.

(** * The repository *)

(** ** Package tshttp: the presence manager *)

Module tshttp.

(** A [*zap.Logger]: whether its core lets debug entries through, and the
    name [Named] gave it. *)
Record ZapLogger := { debugEnabled : bool; loggerName : string }.

(** [zap.NewNop()] *)
Definition NewNop : ZapLogger := {| debugEnabled := false; loggerName := "" |}.

(** [Server].  [cancel] is set by [Start] once the listener is bound, and
    [initOnce] tells whether the [sync.Once] has fired. *)
Record Server := {
  Logger : option ZapLogger;
  Name : string;
  ControlURL : string;
  StateDir : string;
  Debug : bool;
  tailnet : option tsnet.Server;
  cancel : bool;
  initOnce : bool
}.

Section WithTables.
Context `{unicode.RangeTables}.

Definition sanitize (path : string) : string :=
  strings.Map
    (fun r =>
       if unicode.IsLetter r || unicode.IsDigit r || (r =? 0x2D) then r
       else 0x5F)
    path.

(** The method [init] of [Server].  [MkdirAll] is the file system's answer
    to [os.MkdirAll(dir, 0o700)] (the mode is 0x1C0).  The result is the log
    entries written and the server as the method leaves it, or [None] when
    [Logger.Fatal] has ended the process ([Fatal] exits whatever the logger,
    the no-op one included). *)
Definition init (MkdirAll : string -> Z -> option error) (s : Server)
  : list Event * option Server :=
  let logger := match Logger s with None => NewNop | Some l => l end in
  let name := if String.eqb (Name s) "" then "unknown" else Name s in
  let stateDir := if String.eqb (StateDir s) "" then "." else StateDir s in
  let entry := Log DebugLevel "tshttp init" [] in
  let logf :=
    if Debug s || debugEnabled logger then tsnet.Infof "tsnet.Server"
    else tsnet.Discard in
  let dir := stateDir +:+ "/data-" +:+ sanitize name in
  let fatal :=
    match MkdirAll dir 0x1C0 with
    | Some err => if negb (errors_Is_ErrExist err) then Some err else None
    | None => None
    end in
  match fatal with
  | Some err =>
    ([entry; Log FatalLevel "unable to create state dir" [zapError err]], None)
  | None =>
    ([entry],
     Some {| Logger := Some logger;
             Name := name;
             ControlURL := ControlURL s;
             StateDir := stateDir;
             Debug := Debug s;
             tailnet := Some {| tsnet.Dir := dir;
                                tsnet.Hostname := name;
                                tsnet.ControlURL := ControlURL s;
                                tsnet.Logf := logf |};
             cancel := cancel s;
             initOnce := initOnce s |})
  end.

(** [s.initOnce.Do(s.init)] *)
Definition initOnce_Do (MkdirAll : string -> Z -> option error) (s : Server)
  : list Event * option Server :=
  if initOnce s then ([], Some s)
  else
    match init MkdirAll s with
    | (log, Some s') =>
      (log, Some {| Logger := Logger s'; Name := Name s';
                    ControlURL := ControlURL s'; StateDir := StateDir s';
                    Debug := Debug s'; tailnet := tailnet s';
                    cancel := cancel s'; initOnce := true |})
    | (log, None) => (log, None)
    end.

(** The method [Tailnet] of [Server] *)
Definition Tailnet (MkdirAll : string -> Z -> option error) (s : Server)
  : list Event * option (Server * option tsnet.Server) :=
  match initOnce_Do MkdirAll s with
  | (log, Some s') => (log, Some (s', tailnet s'))
  | (log, None) => (log, None)
  end.
End WithTables.

(** *** The goroutine of [Start] that shows the authentication URL *)

(** One turn of the loop body on the answer of [StatusWithoutPeers]: the
    entries it logs, and whether it leaves the loop by [break]. *)
Definition pollOnce (answer : result Status.t) : list Event * bool :=
  match answer with
  | Fail err => ([Log ErrorLevel "StatusWithoutPeers" [zapError err]], false)
  | Ok ss =>
    let status :=
      Log DebugLevel "status"
          [zapString "BackendState" (Status.BackendState ss);
           zapStrings "Health" (Status.Health ss);
           zapString "AuthURL" (Status.AuthURL ss)] in
    if String.eqb (Status.BackendState ss) "Running" then
      let ips := map netip.String (Status.TailscaleIPs ss) in
      ([status;
        Log InfoLevel "tailnet running"
            [zapString "id" (PeerStatus.ID (Status.Self ss));
             zapString "dns" (PeerStatus.DNSName (Status.Self ss));
             zapStrings "ips" ips]],
       true)
    else if negb (String.eqb (Status.AuthURL ss) "") then
      ([status; Log ErrorLevel "Needs authentication" [zapString "url" (Status.AuthURL ss)]],
       false)
    else ([status], false)
  end.

Inductive LoopState := Polling | Exited.

(** [for ; ; time.Sleep(1 * time.Second) { ... }] run for at most [turns]
    turns, from the [i]-th call of [StatusWithoutPeers]: what it has done,
    and whether it has left the loop.  The post statement runs after every
    turn that does not break, the ones ended by [continue] included. *)
Fixpoint pollLoop (turns : nat) (lc : tsnet.LocalClientT) (i : nat)
  : list Event * LoopState :=
  match turns with
  | O => ([], Polling)
  | S k =>
    let '(entries, stop) := pollOnce (tsnet.StatusWithoutPeers lc i) in
    if stop then (entries, Exited)
    else
      let '(rest, state) := pollLoop k lc (S i) in
      (entries ++ Sleep (1 * Second) :: rest, state)
  end.

(** The goroutine: without a local client it logs the error and returns;
    with one it polls. *)
Definition authHelper (turns : nat) (tailnet : tsnet.Handle) : list Event * LoopState :=
  match tsnet.LocalClient tailnet with
  | Fail err => ([Log ErrorLevel "LocalClient" [zapError err]], Exited)
  | Ok lc => pollLoop turns lc 0
  end.

(** *** [Start] and [Shutdown] *)

(** The goroutines [Start] spawns: the helper above, and the one that
    serves HTTP on the listener. *)
Inductive Goroutine := AuthHelper | Serving.

(** What [Start] and [Shutdown] do, in order: calls of the logger, the start
    of a goroutine, [tailnet.Listen], and the calls of the function [cancel],
    which are [httpsrv.Shutdown] under a deadline, [listen.Close] and
    [tailnet.Close]. *)
Inductive Step :=
| Entry (e : Event)
| Go (g : Goroutine)
| Listen (network addr : string)
| HTTPShutdown (timeout : Z)
| ListenerClose
| TailnetClose.

Section StartShutdown.
Context `{unicode.RangeTables}.

(** The method [Start] of [Server].  [listen] is the error of
    [s.tailnet.Listen("tcp", ":80")], if any.  The result is [None] when
    [init] has ended the process, else the server as the method leaves it
    and the error it returns. *)
Definition Start (MkdirAll : string -> Z -> option error) (listen : option error)
  (s : Server) : list Step * option (Server * option error) :=
  match initOnce_Do MkdirAll s with
  | (log, None) => (map Entry log, None)
  | (log, Some s') =>
    let steps :=
      map Entry log
      ++ [Entry (Log InfoLevel "tailnet starting" []);
          Go AuthHelper;
          Entry (Log DebugLevel "listen" [zapInt "port" 80]);
          Listen "tcp" ":80"] in
    match listen with
    | Some err => (steps, Some (s', Some err))
    | None =>
      (steps ++ [Go Serving],
       Some ({| Logger := Logger s'; Name := Name s';
                ControlURL := ControlURL s'; StateDir := StateDir s';
                Debug := Debug s'; tailnet := tailnet s';
                cancel := true; initOnce := initOnce s' |}, None))
    end
  end.
End StartShutdown.

(** What [httpsrv.Serve] returns to the serving goroutine. *)
Inductive ServeResult := ServeNil | ErrServerClosed | ServeError (err : error).

(** The serving goroutine: the entry before [Serve] and the one after it
    has returned. *)
Definition serving (served : ServeResult) : list Event :=
  Log DebugLevel "serving" [zapInt "port" 80]
  :: match served with
     | ServeNil | ErrServerClosed => [Log InfoLevel "shutting down" []]
     | ServeError err => [Log ErrorLevel "http.Serve" [zapError err]]
     end.

(** The method [Shutdown] of [Server]: [if s.cancel != nil { s.cancel() }] *)
Definition Shutdown (s : Server) : list Step :=
  if cancel s then
    [HTTPShutdown (1 * Second); ListenerClose; TailnetClose;
     Entry (Log InfoLevel "shutdown" [])]
  else [].

End tshttp.

(** ** Package log *)

Module log.

(** [MustZapLogger]: the production configuration logs from the level
    [Info] on, or from [Debug] on when [debug] is set; its sinks are the
    standard error stream, so that [Build] returns no error. *)
Definition MustZapLogger (debug : bool) : tshttp.ZapLogger :=
  {| tshttp.debugEnabled := debug; tshttp.loggerName := "" |}.

End log.

(** ** Command tailmon: exporter registrations and the proxy filter *)

Module tailmon.

Record exporter := { name : string; port : Z; hostname : string }.

(** [fmt.Sprintf("tailmon/%s/%s", e.name, e.hostname)] *)
Definition TailscaleNodeName (e : exporter) : string :=
  "tailmon/" +:+ name e +:+ "/" +:+ hostname e.

(** [newExporter].  [osHostname] is the answer of [os.Hostname()].  The
    conversion [int(port)] is the identity, [int] having 64 bits on the
    platforms the program is built for. *)
Definition newExporter (osHostname : result string) (value : string)
  : exporter * option error :=
  let ep := {| name := ""; port := 0; hostname := "" |} in
  let '(name, portStr, ok) := strings.Cut value ":" in
  if negb ok then (ep, Some (errorString "use name-exporter:port format"))
  else
    match strconv.ParseInt portStr 10 64 with
    | (_, Some err) => (ep, Some (numError err))
    | (port, None) =>
      let hostname :=
        match osHostname with
        | Ok h => h
        | Fail _ => "unknown"
        end in
      ({| name := name; port := port; hostname := hostname |}, None)
    end.

(** The handler [NewProxyHandler] returns, applied to a request with path
    [path]: what it logs, hands to the reverse proxy for [upstreamURL], and
    writes to the response. *)
Definition NewProxyHandler (upstreamURL : string) (name : string) (path : string)
  : list Event :=
  if String.eqb path "/metrics" then
    [Log InfoLevel "accept" [zapString "path" path];
     ProxyServeHTTP upstreamURL path]
  else
    [Log InfoLevel "reject" [zapString "path" path];
     WriteHeader StatusNotFound;
     WriteString (name +:+ String (to_byte 10) "")].

(** *** [main] *)

(** The first loop of [main], over [flag.Args()]: the registrations parsed
    so far are in [exporters]; the first argument that [newExporter] rejects
    ends the loop, and the process, with a line about it. *)
Fixpoint main_exporters (osHostname : result string) (args : list string)
  (exporters : slice exporter) : slice exporter + string * error :=
  match args with
  | [] => inl exporters
  | epStr :: rest =>
    match newExporter osHostname epStr with
    | (_, Some err) => inr (epStr, err)
    | (ep, None) => main_exporters osHostname rest (append exporters ep)
    end
  end.

(** [main], up to the point where it starts to build servers. *)
Definition main_startup (osHostname : result string) (flags : Flags)
  (args : list string) : Startup (list exporter) :=
  match main_exporters osHostname args None with
  | inr (epStr, err) => Exit [ArgError epStr err] 1
  | inl exporters =>
    if String.eqb (flagState flags) "" then
      usage [Text ("ERROR: Must provide -state dir" +:+ LF +:+ LF)]
    else if Z.of_nat (length (elems exporters)) =? 0 then
      usage [Text ("ERROR: Must specify one or more exporters to announce."
                   +:+ LF +:+ LF)]
    else Proceed (elems exporters)
  end.

(** The server that the second loop of [main] builds for a registration.
    [rootLogger.With] adds a field to the entries of the logger and leaves
    its level and its name as they are. *)
Definition main_server (flags : Flags) (ep : exporter) : tshttp.Server :=
  {| tshttp.Logger := Some (log.MustZapLogger (flagDebug flags));
     tshttp.Name := TailscaleNodeName ep;
     tshttp.ControlURL := controlURL flags;
     tshttp.StateDir := flagState flags;
     tshttp.Debug := flagDebug flags;
     tshttp.tailnet := None;
     tshttp.cancel := false;
     tshttp.initOnce := false |}.

Section Launch.
Context `{unicode.RangeTables}.

(** One turn of the second loop of [main]: what it does, and the server it
    appends to [srvs] together with the handler that serves it, or [None]
    when [logger.Fatal] has ended the process.  The text parsed is
    [fmt.Sprintf("http://%s:%d", "localhost", ep.port)]. *)
Definition main_launch (flags : Flags) (MkdirAll : string -> Z -> option error)
  (listen : option error) (ep : exporter)
  : list tshttp.Step * option (tshttp.Server * (string -> list Event)) :=
  match url.ParseLocalhost (itoa (port ep)) with
  | Fail err =>
    ([tshttp.Entry (Log FatalLevel "unable to parse" [zapError err])], None)
  | Ok upstreamURL =>
    let srv := main_server flags ep in
    let handler := NewProxyHandler upstreamURL (TailscaleNodeName ep) in
    match tshttp.Start MkdirAll listen srv with
    | (steps, None) => (steps, None)
    | (steps, Some (_, Some err)) =>
      (steps ++ [tshttp.Entry (Log FatalLevel "unable to initialize" [zapError err])],
       None)
    | (steps, Some (srv, None)) => (steps, Some (srv, handler))
    end
  end.
End Launch.

End tailmon.

(** ** Command tailmon-discover: the target enumerator *)

Module discover.

Record Endpoint := {
  ip : netip.Addr;
  Targets : slice string;
  Labels : gmap string string
}.

Definition formatAddr (addr : netip.Addr) (port : Z) : string :=
  if netip.Is4 addr then netip.String addr +:+ ":" +:+ itoa port
  else "[" +:+ netip.String addr +:+ "]:" +:+ itoa port.

(** The body of the loop over the peers: [None] when the peer is skipped by
    [continue], else the endpoint that is appended.  The test
    [len(v.TailscaleIPs) == 0] and the element [v.TailscaleIPs[0]] are read
    off the list by matching. *)
Definition peerEndpoint (v : PeerStatus.t) : option Endpoint :=
  let prefix := "tailmon/" in
  if negb (strings.HasPrefix (PeerStatus.HostName v) prefix) then None
  else
    match PeerStatus.TailscaleIPs v with
    | [] => None
    | ip0 :: _ =>
      let '(exporter, node, ok) :=
        strings.Cut (strings.TrimPrefix (PeerStatus.HostName v) prefix) "/" in
      let '(exporter, node) :=
        if negb ok then (PeerStatus.HostName v, "unknown") else (exporter, node) in
      Some {| ip := ip0;
              Targets := Some [formatAddr ip0 80];
              Labels := {[ "__meta_tailmon_node_name" := node;
                           "__meta_tailmon_exporter_name" := exporter;
                           "__meta_tailscale_dns_name" := PeerStatus.DNSName v ]} |}
    end.

(** The loop: [endpoints] starts as the nil slice. *)
Definition collect (peers : list PeerStatus.t) : slice Endpoint :=
  fold_left
    (fun endpoints v =>
       match peerEndpoint v with
       | None => endpoints
       | Some endpoint => append endpoints endpoint
       end)
    peers None.

Definition findTailmonEndpoints (tailnet : tsnet.Handle) : result (slice Endpoint) :=
  match tsnet.LocalClient tailnet with
  | Fail err => Fail err
  | Ok lc =>
    match tsnet.Status lc with
    | Fail err => Fail err
    | Ok status =>
      let endpoints := collect (Status.Peer status) in
      Ok (sort.SliceStable (fun a b => netip.Less (ip a) (ip b)) endpoints)
    end
  end.

(** What [json.MarshalIndent] encodes: the unexported field [ip] is left
    out; a pointer to a struct is an object with the fields in the order of
    their declaration; a nil slice is [null]. *)
Definition marshalEndpoint (e : Endpoint) : json.value :=
  json.Object [("targets", json.ofStrings (Targets e));
               ("labels", json.ofStringMap (Labels e))].

Definition marshalSlice (s : slice Endpoint) : json.value :=
  match s with
  | None => json.Null
  | Some l => json.Array (map marshalEndpoint l)
  end.

(** [marshalEndpoints]: the value whose text, indented by four spaces, is
    the document. *)
Definition marshalEndpoints (tailnet : tsnet.Handle) : result json.value :=
  match findTailmonEndpoints tailnet with
  | Fail err => Fail err
  | Ok endpoints => Ok (marshalSlice endpoints)
  end.

(** *** [NewDiscoverHandler] *)

(** What a handler does to its response besides the events above:
    [io.WriteString(w, err.Error())], [w.Header().Set], and [w.Write(data)],
    where [data] is the text of a value or, when there is none, the nil
    slice. *)
Inductive Output :=
| Ev (e : Event)
| WriteErrorText (err : error)
| HeaderSet (key value : string)
| WriteData (data : option json.value).

(** The handler that [NewDiscoverHandler] registers for the pattern [/],
    applied to a request with path [path]. *)
Definition NewDiscoverHandler_root (tailnet : tsnet.Handle) (path : string)
  : list Output :=
  if negb (String.eqb path "/") then
    [Ev (WriteHeader StatusNotFound);
     Ev (WriteString ("tailmon-discover" +:+ LF))]
  else
    let '(data, onError) :=
      match marshalEndpoints tailnet with
      | Fail err =>
        (None,
         [Ev (Log ErrorLevel "marshalEndpoints" [zapError err]);
          Ev (WriteHeader StatusInternalServerError);
          WriteErrorText err])
      | Ok v => (Some v, [])
      end in
    onError
    ++ [HeaderSet "content-type" "application/json; charset=utf-8";
        WriteData data].

(** The handler registered for the pattern [/metrics]: it returns at
    once. *)
Definition NewDiscoverHandler_metrics (path : string) : list Output := [].

(** *** [main] *)

(** The server that [main] builds. *)
Definition main_server (flags : Flags) : tshttp.Server :=
  {| tshttp.Logger := Some (log.MustZapLogger (flagDebug flags));
     tshttp.Name := "tailmon-discover";
     tshttp.ControlURL := controlURL flags;
     tshttp.StateDir := flagState flags;
     tshttp.Debug := flagDebug flags;
     tshttp.tailnet := None;
     tshttp.cancel := false;
     tshttp.initOnce := false |}.

(** [main], up to the point where it builds the server. *)
Definition main_startup (flags : Flags) (args : list string) : Startup tshttp.Server :=
  if 0 <? Z.of_nat (length args) then usage []
  else if String.eqb (flagState flags) "" then
    usage [Text ("ERROR: Must provide -state dir" +:+ LF +:+ LF)]
  else Proceed (main_server flags).

Section Run.
Context `{unicode.RangeTables}.

(** [main] from there on, until it waits for a signal: [srv.Tailnet()], for
    the handler, and then [srv.Start(handler)].  The result is the server
    that is running, or [None] when [logger.Fatal] has ended the process. *)
Definition main_run (MkdirAll : string -> Z -> option error) (listen : option error)
  (srv : tshttp.Server) : list tshttp.Step * option tshttp.Server :=
  match tshttp.Tailnet MkdirAll srv with
  | (log, None) => (map tshttp.Entry log, None)
  | (log, Some (srv, _)) =>
    match tshttp.Start MkdirAll listen srv with
    | (steps, None) => (map tshttp.Entry log ++ steps, None)
    | (steps, Some (_, Some err)) =>
      (map tshttp.Entry log ++ steps
       ++ [tshttp.Entry (Log FatalLevel "unable to initialize" [zapError err])],
       None)
    | (steps, Some (srv, None)) => (map tshttp.Entry log ++ steps, Some srv)
    end
  end.
End Run.

End discover.

(** * Vocabulary of the statements *)

(** The runes of [s] mapped one by one and encoded, a negative image being
    dropped: what [strings.Map] is documented to return. *)
Definition mapRunes (mapping : Z -> Z) (s : string) : string :=
  fold_right
    (fun c acc =>
       if 0 <=? mapping c then utf8.EncodeRune (mapping c) +:+ acc else acc)
    "" (GoRange.runes s).

Section SanitizeVocabulary.
Context `{unicode.RangeTables}.

(** What [sanitize] does to one rune. *)
Definition sanitizeRune (r : Z) : Z :=
  if unicode.IsLetter r || unicode.IsDigit r || (r =? 0x2D) then r else 0x5F.

End SanitizeVocabulary.

(** Whether an answer of [StatusWithoutPeers] shows the backend running. *)
Definition running (answer : result Status.t) : bool :=
  match answer with
  | Ok ss => String.eqb (Status.BackendState ss) "Running"
  | Fail _ => false
  end.

(** What the loop has done when it enters turn [n] without having left:
    the entries of the turns before, each followed by the pause. *)
Fixpoint turnsBefore (lc : tsnet.LocalClientT) (n : nat) : list Event :=
  match n with
  | O => []
  | S k =>
    turnsBefore lc k
    ++ fst (tshttp.pollOnce (tsnet.StatusWithoutPeers lc k)) ++ [Sleep (1 * Second)]
  end.

(** How often the byte [c] occurs in [s]. *)
Fixpoint count (c : ascii) (s : string) : nat :=
  match s with
  | EmptyString => O
  | String c' t => (if Ascii.eqb c' c then 1 else 0) + count c t
  end.

(** Strings of decimal digits, and the number they write after [acc]. *)
Definition isDigitByte (c : ascii) : bool :=
  (0x30 <=? byte_val c) && (byte_val c <=? 0x39).

Fixpoint allDigits (s : string) : bool :=
  match s with
  | EmptyString => true
  | String c t => isDigitByte c && allDigits t
  end.

Fixpoint decimalValue (acc : Z) (s : string) : Z :=
  match s with
  | EmptyString => acc
  | String c t => decimalValue (acc * 10 + (byte_val c - 0x30)) t
  end.

(** A base-10 integer: an optional sign and at least one digit. *)
Definition unsignedText (s : string) : bool :=
  negb (String.eqb s "") && allDigits s.

Definition signOf (s : string) : bool * string :=
  match s with
  | String c t =>
    if byte_val c =? 0x2B then (false, t)
    else if byte_val c =? 0x2D then (true, t)
    else (false, s)
  | EmptyString => (false, s)
  end.

Definition numeric (s : string) : bool := unsignedText (snd (signOf s)).

(** The value of a numeric text, and whether it fits a signed 64-bit
    integer. *)
Definition numericValue (s : string) : Z :=
  let '(neg, digits) := signOf s in
  if neg then - decimalValue 0 digits else decimalValue 0 digits.

Definition fitsInt64 (s : string) : bool :=
  (- 2 ^ 63 <=? numericValue s) && (numericValue s <? 2 ^ 63).

(** The hostname a registration carries: the machine's, or [unknown] when it
    cannot be resolved. *)
Definition resolved (osHostname : result string) : string :=
  match osHostname with
  | Ok h => h
  | Fail _ => "unknown"
  end.

(** The peers the enumerator keeps: those registered under the prefix that
    have an address. *)
Definition qualifies (v : PeerStatus.t) : bool :=
  strings.HasPrefix (PeerStatus.HostName v) "tailmon/"
  && match PeerStatus.TailscaleIPs v with [] => false | _ :: _ => true end.

(** The endpoints of the peers, in the order in which the peers are met. *)
Definition encountered (peers : list PeerStatus.t) : list discover.Endpoint :=
  flat_map (fun v => match discover.peerEndpoint v with
                     | Some e => [e]
                     | None => []
                     end) peers.

(** The target of an address: the address and port 80, the address in
    brackets unless it is IPv4. *)
Definition targetOf (a : netip.Addr) : string :=
  if netip.Is4 a then netip.String a +:+ ":80"
  else "[" +:+ netip.String a +:+ "]:80".

(** What the endpoint of a peer is. *)
Definition describes (v : PeerStatus.t) (e : discover.Endpoint) : Prop :=
  head (PeerStatus.TailscaleIPs v) = Some (discover.ip e)
  /\ discover.Targets e = Some [targetOf (discover.ip e)]
  /\ dom (discover.Labels e)
     = ({[ "__meta_tailmon_exporter_name"; "__meta_tailmon_node_name";
           "__meta_tailscale_dns_name" ]} : gset string)
  /\ discover.Labels e !! "__meta_tailscale_dns_name" = Some (PeerStatus.DNSName v)
  /\ (forall exporter node,
         PeerStatus.HostName v = "tailmon/" +:+ exporter +:+ "/" +:+ node ->
         count "/"%char exporter = 0%nat ->
         discover.Labels e !! "__meta_tailmon_exporter_name" = Some exporter
         /\ discover.Labels e !! "__meta_tailmon_node_name" = Some node).

(** A member of the discovery document: an object with a one-element array
    of strings under [targets] and an object of strings under [labels]. *)
Definition isEndpointObject (j : json.value) : Prop :=
  exists target labels,
    j = json.Object
          [("targets", json.Array [json.Str target]);
           ("labels", json.Object (map (fun kv => (fst kv, json.Str (snd kv))) labels))].

(** The ASCII bytes of a name that [sanitize] keeps, and the one it puts
    for the others: letters, digits, the hyphen and the underscore. *)
Definition nameByte (b : ascii) : bool :=
  ((0x41 <=? byte_val b) && (byte_val b <=? 0x5A))
  || ((0x61 <=? byte_val b) && (byte_val b <=? 0x7A))
  || ((0x30 <=? byte_val b) && (byte_val b <=? 0x39))
  || (byte_val b =? 0x2D) || (byte_val b =? 0x5F).

(** Whether every byte of a string passes a test, and a string changed byte
    by byte. *)
Fixpoint allBytes (p : ascii -> bool) (s : string) : bool :=
  match s with
  | EmptyString => true
  | String b t => p b && allBytes p t
  end.

Fixpoint mapBytes (f : ascii -> ascii) (s : string) : string :=
  match s with
  | EmptyString => EmptyString
  | String b t => String (f b) (mapBytes f t)
  end.

Definition isAscii (b : ascii) : bool := byte_val b <? 0x80.

(** The order of the addresses in the document: by family, IPv4 before
    IPv6, and within a family by value. *)
Definition ascending (a b : netip.Addr) : Prop :=
  netip.BitLen a < netip.BitLen b
  \/ (netip.BitLen a = netip.BitLen b
      /\ (netip.hi a < netip.hi b
          \/ (netip.hi a = netip.hi b /\ netip.lo a <= netip.lo b))).

(** A label of an endpoint, and the member of the document that carries a
    target and the three labels, the keys in the order of the encoder. *)
Definition label (e : discover.Endpoint) (key : string) : string :=
  default "" (discover.Labels e !! key).

Definition memberOf (target exporter node dns : string) : json.value :=
  json.Object
    [("targets", json.Array [json.Str target]);
     ("labels",
      json.Object [("__meta_tailmon_exporter_name", json.Str exporter);
                   ("__meta_tailmon_node_name", json.Str node);
                   ("__meta_tailscale_dns_name", json.Str dns)])].

(** Well-formed UTF-8: encoding the runes that a string decodes to gives
    the string back. *)
Definition wellFormed (s : string) : Prop := mapRunes (fun r => r) s = s.

(** Whether a positional argument of [tailmon] parses. *)
Definition parses (osHostname : result string) (epStr : string) : bool :=
  match snd (tailmon.newExporter osHostname epStr) with
  | None => true
  | Some _ => false
  end.

(** ** Examples *)

(** The peers of the examples of the specification, and one on IPv6 that is
    registered without a node name. *)
Definition host1 : PeerStatus.t :=
  {| PeerStatus.ID := "n1"; PeerStatus.HostName := "tailmon/node-exporter/host1";
     PeerStatus.DNSName := "tailmon-node-exporter-host1.ts.example.com.";
     PeerStatus.TailscaleIPs := [netip.AddrFrom4 100 64 0 1] |}.

Definition host2 : PeerStatus.t :=
  {| PeerStatus.ID := "n2"; PeerStatus.HostName := "tailmon/postgres-exporter/host2";
     PeerStatus.DNSName := "tailmon-postgres-exporter-host2.ts.example.com.";
     PeerStatus.TailscaleIPs := [netip.AddrFrom4 100 64 0 2] |}.

Definition otherService : PeerStatus.t :=
  {| PeerStatus.ID := "n3"; PeerStatus.HostName := "other-service";
     PeerStatus.DNSName := "other-service.ts.example.com.";
     PeerStatus.TailscaleIPs := [netip.AddrFrom4 100 64 0 3] |}.

Definition custom : PeerStatus.t :=
  {| PeerStatus.ID := "n4"; PeerStatus.HostName := "tailmon/custom-exporter";
     PeerStatus.DNSName := "tailmon-custom-exporter.ts.example.com.";
     PeerStatus.TailscaleIPs :=
       [{| netip.hi := 0xfd7a115ccafe0000; netip.lo := 7; netip.z := netip.z6noz |}] |}.

Definition statusOf (peers : list PeerStatus.t) : Status.t :=
  {| Status.BackendState := "Running"; Status.AuthURL := ""; Status.Health := [];
     Status.TailscaleIPs := [netip.AddrFrom4 100 64 0 9];
     Status.Self := otherService; Status.Peer := peers |}.

Definition clientOf (peers : list PeerStatus.t) : tsnet.LocalClientT :=
  {| tsnet.Status := Ok (statusOf peers);
     tsnet.StatusWithoutPeers := fun _ => Ok (statusOf peers) |}.

Definition overlayOf (peers : list PeerStatus.t) : tsnet.Handle :=
  {| tsnet.LocalClient := Ok (clientOf peers) |}.

(** A node that first cannot be queried, then waits for authentication, and
    then runs. *)
Definition needsLogin : Status.t :=
  {| Status.BackendState := "NeedsLogin";
     Status.AuthURL := "https://login.example.com/a/1f2e3d";
     Status.Health := []; Status.TailscaleIPs := [];
     Status.Self := otherService; Status.Peer := [] |}.

Definition joining : tsnet.LocalClientT :=
  {| tsnet.Status := Ok (statusOf []);
     tsnet.StatusWithoutPeers :=
       fun n => match n with
                | O => Fail (errorString "connection refused")
                | S O => Ok needsLogin
                | _ => Ok (statusOf [])
                end |}.

(** * Verification *)

(** ** UTF-8: decoding what was encoded *)

Module Utf8Facts.
Import utf8.

Lemma DecodeRuneInString_bytes s :
  DecodeRuneInString s = decodeBytes (len s) (idx s 0) (idx s 1) (idx s 2) (idx s 3).
Proof. reflexivity. Qed.

Lemma lor_add (h l k : Z) : 0 <= k -> 0 <= l < 2 ^ k -> Z.lor (h * 2 ^ k) l = h * 2 ^ k + l.
Proof.
  intros Hk Hl.
  assert (Hland : Z.land (h * 2 ^ k) l = 0).
  { apply Z.bits_inj'; intros n Hn. rewrite Z.land_spec, Z.bits_0.
    destruct (Z.lt_ge_cases n k) as [Hlt|Hge].
    - rewrite Z.mul_pow2_bits_low; auto.
    - replace (Z.testbit l n) with false; [apply andb_false_r|]. symmetry.
      apply Z.testbit_false; [lia|].
      rewrite Z.div_small; [reflexivity|].
      split; [lia|]. apply Z.lt_le_trans with (2 ^ k); [lia|].
      apply Z.pow_le_mono_r; lia. }
  rewrite <- Z.lxor_lor by exact Hland.
  symmetry. apply Z.add_nocarry_lxor. exact Hland.
Qed.

Lemma land_mask (x k : Z) : 0 <= k -> Z.land x (2 ^ k - 1) = x mod 2 ^ k.
Proof. intros. rewrite <- Z.land_ones by lia. f_equal. rewrite Z.ones_equiv. lia. Qed.

Lemma land_7 x : Z.land x 7 = x mod 8.
Proof. exact (land_mask x 3 ltac:(lia)). Qed.
Lemma land_15 x : Z.land x 15 = x mod 16.
Proof. exact (land_mask x 4 ltac:(lia)). Qed.
Lemma land_31 x : Z.land x 31 = x mod 32.
Proof. exact (land_mask x 5 ltac:(lia)). Qed.
Lemma land_63 x : Z.land x 63 = x mod 64.
Proof. exact (land_mask x 6 ltac:(lia)). Qed.

Lemma lor_add' (h l k p : Z) :
  0 <= k -> p = 2 ^ k -> 0 <= l < p -> Z.lor (h * p) l = h * p + l.
Proof. intros ? -> ?. by apply lor_add. Qed.

Lemma rune2_arith b0 b1 :
  Z.lor (Z.shiftl (Z.land b0 mask2) 6) (Z.land b1 maskx) = (b0 mod 32) * 64 + b1 mod 64.
Proof.
  unfold mask2, maskx. rewrite land_31, land_63, Z.shiftl_mul_pow2 by lia.
  change (2 ^ 6) with 64. pose proof (Z.mod_pos_bound b1 64).
  apply (lor_add' _ _ 6); [lia | reflexivity | lia].
Qed.

Lemma rune3_arith b0 b1 b2 :
  Z.lor (Z.lor (Z.shiftl (Z.land b0 mask3) 12) (Z.shiftl (Z.land b1 maskx) 6))
        (Z.land b2 maskx)
  = (b0 mod 16) * 4096 + (b1 mod 64) * 64 + b2 mod 64.
Proof.
  unfold mask3, maskx. rewrite land_15, !land_63, !Z.shiftl_mul_pow2 by lia.
  change (2 ^ 6) with 64. change (2 ^ 12) with 4096.
  pose proof (Z.mod_pos_bound b1 64). pose proof (Z.mod_pos_bound b2 64).
  rewrite (lor_add' (b0 mod 16) _ 12) by (reflexivity || lia).
  replace (b0 mod 16 * 4096 + b1 mod 64 * 64)
    with ((b0 mod 16 * 64 + b1 mod 64) * 64) by lia.
  rewrite (lor_add' _ _ 6) by (reflexivity || lia). lia.
Qed.

Lemma rune4_arith b0 b1 b2 b3 :
  Z.lor (Z.lor (Z.lor (Z.shiftl (Z.land b0 mask4) 18) (Z.shiftl (Z.land b1 maskx) 12))
               (Z.shiftl (Z.land b2 maskx) 6))
        (Z.land b3 maskx)
  = (b0 mod 8) * 262144 + (b1 mod 64) * 4096 + (b2 mod 64) * 64 + b3 mod 64.
Proof.
  unfold mask4, maskx. rewrite land_7, !land_63, !Z.shiftl_mul_pow2 by lia.
  change (2 ^ 6) with 64. change (2 ^ 12) with 4096. change (2 ^ 18) with 262144.
  pose proof (Z.mod_pos_bound b1 64). pose proof (Z.mod_pos_bound b2 64).
  pose proof (Z.mod_pos_bound b3 64).
  rewrite (lor_add' (b0 mod 8) _ 18) by (reflexivity || lia).
  replace (b0 mod 8 * 262144 + b1 mod 64 * 4096)
    with ((b0 mod 8 * 64 + b1 mod 64) * 4096) by lia.
  rewrite (lor_add' _ _ 12) by (reflexivity || lia).
  replace ((b0 mod 8 * 64 + b1 mod 64) * 4096 + b2 mod 64 * 64)
    with (((b0 mod 8 * 64 + b1 mod 64) * 64 + b2 mod 64) * 64) by lia.
  rewrite (lor_add' _ _ 6) by (reflexivity || lia). lia.
Qed.

Ltac split_ifs :=
  repeat match goal with
         | |- context [if ?c then _ else _] =>
           let E := fresh "E" in destruct c eqn:E; try lia
         end.

Lemma first_cases b :
  (b < 0x80 /\ first b = as_) \/
  ((0x80 <= b < 0xC2 \/ 0xF5 <= b) /\ first b = xx) \/
  (0xC2 <= b < 0xE0 /\ first b = s1) \/
  (b = 0xE0 /\ first b = s2) \/
  ((0xE1 <= b < 0xED \/ 0xEE <= b < 0xF0) /\ first b = s3) \/
  (b = 0xED /\ first b = s4) \/
  (b = 0xF0 /\ first b = s5) \/
  (0xF1 <= b < 0xF4 /\ first b = s6) \/
  (b = 0xF4 /\ first b = s7).
Proof. unfold first. split_ifs. Qed.

Ltac class_consts :=
  cbv [as_ xx s1 s2 s3 s4 s5 s6 s7];
  change (240 <=? 240) with true; change (240 <=? 241) with true;
  change (240 <=? 2) with false; change (240 <=? 19) with false;
  change (240 <=? 3) with false; change (240 <=? 35) with false;
  change (240 <=? 52) with false; change (240 <=? 4) with false;
  change (240 <=? 68) with false;
  change (Z.testbit 240 0) with false; change (Z.testbit 241 0) with true;
  change (Z.land 2 7) with 2; change (Z.land 19 7) with 3;
  change (Z.land 3 7) with 3; change (Z.land 35 7) with 3;
  change (Z.land 52 7) with 4; change (Z.land 4 7) with 4;
  change (Z.land 68 7) with 4;
  change (acceptRanges (Z.shiftr 2 4)) with (128, 191);
  change (acceptRanges (Z.shiftr 19 4)) with (160, 191);
  change (acceptRanges (Z.shiftr 3 4)) with (128, 191);
  change (acceptRanges (Z.shiftr 35 4)) with (128, 159);
  change (acceptRanges (Z.shiftr 52 4)) with (144, 191);
  change (acceptRanges (Z.shiftr 4 4)) with (128, 191);
  change (acceptRanges (Z.shiftr 68 4)) with (128, 143);
  cbv [fst snd locb hicb RuneError].

Ltac first_class b :=
  destruct (first_cases b)
    as [[? ->]|[[? ->]|[[? ->]|[[? ->]|[[? ->]|[[? ->]|[[? ->]|[[? ->]|[? ->]]]]]]]]];
  class_consts.

Lemma decodeBytes_valid n b0 b1 b2 b3 :
  1 <= n -> 0 <= b0 -> decoded_ok n (decodeBytes n b0 b1 b2 b3).
Proof.
  intros Hn Hb0. unfold decodeBytes.
  rewrite rune2_arith, rune3_arith, rune4_arith.
  destruct (n <? 1) eqn:E0; [lia|].
  first_class b0; split_ifs.
  all: unfold decoded_ok, ValidRune, surrogateMin, surrogateMax, MaxRune; cbv [fst snd].
  all: Z.to_euclidean_division_equations; split_ifs; lia.
Qed.

Lemma byte_val_to_byte v : byte_val (to_byte v) = v mod 256.
Proof.
  unfold byte_val, to_byte. pose proof (Z.mod_pos_bound v 256).
  rewrite N_ascii_embedding by lia. lia.
Qed.

Lemma byte_val_range c : 0 <= byte_val c < 256.
Proof. unfold byte_val. pose proof (N_ascii_bounded c). lia. Qed.

Lemma to_byte_byte_val c : to_byte (byte_val c) = c.
Proof.
  unfold to_byte. pose proof (byte_val_range c).
  rewrite Z.mod_small by lia. unfold byte_val.
  rewrite N2Z.id. apply ascii_N_embedding.
Qed.

Lemma enc_cont x : byte_val (to_byte (Z.lor tx (Z.land x maskx))) = 128 + x mod 64.
Proof.
  unfold tx, maskx. rewrite land_63, byte_val_to_byte.
  pose proof (Z.mod_pos_bound x 64).
  rewrite (lor_add' 2 _ 6 64) by (reflexivity || lia).
  apply Z.mod_small. lia.
Qed.

Lemma enc_lead2 x : 0 <= x < 32 -> byte_val (to_byte (Z.lor t2 x)) = 192 + x.
Proof.
  intros. unfold t2. rewrite byte_val_to_byte.
  rewrite (lor_add' 3 _ 6 64) by (reflexivity || lia).
  apply Z.mod_small. lia.
Qed.

Lemma enc_lead3 x : 0 <= x < 16 -> byte_val (to_byte (Z.lor t3 x)) = 224 + x.
Proof.
  intros. unfold t3. rewrite byte_val_to_byte.
  rewrite (lor_add' 7 _ 5 32) by (reflexivity || lia).
  apply Z.mod_small. lia.
Qed.

Lemma enc_lead4 x : 0 <= x < 8 -> byte_val (to_byte (Z.lor t4 x)) = 240 + x.
Proof.
  intros. unfold t4. rewrite byte_val_to_byte.
  rewrite (lor_add' 15 _ 4 16) by (reflexivity || lia).
  apply Z.mod_small. lia.
Qed.

Lemma shiftr_6 r : Z.shiftr r 6 = r / 64.
Proof. by rewrite Z.shiftr_div_pow2. Qed.
Lemma shiftr_12 r : Z.shiftr r 12 = r / 4096.
Proof. by rewrite Z.shiftr_div_pow2. Qed.
Lemma shiftr_18 r : Z.shiftr r 18 = r / 262144.
Proof. by rewrite Z.shiftr_div_pow2. Qed.

Lemma decodeBytes_1 n r b1 b2 b3 :
  1 <= n -> 0 <= r <= 0x7F -> decodeBytes n r b1 b2 b3 = (r, 1).
Proof.
  intros. unfold decodeBytes. destruct (n <? 1) eqn:E0; [lia|].
  first_class r; try lia; split_ifs; reflexivity.
Qed.

Lemma decodeBytes_2 n r b2 b3 :
  2 <= n -> 0x80 <= r <= 0x7FF ->
  decodeBytes n (192 + r / 64) (128 + r mod 64) b2 b3 = (r, 2).
Proof.
  intros. unfold decodeBytes. rewrite rune2_arith.
  destruct (n <? 1) eqn:E0; [lia|].
  first_class (192 + r / 64); try (Z.to_euclidean_division_equations; lia).
  all: split_ifs; try f_equal; Z.to_euclidean_division_equations; lia.
Qed.

Lemma decodeBytes_3 n r b3 :
  3 <= n -> 0x800 <= r <= 0xFFFF -> ~ (0xD800 <= r <= 0xDFFF) ->
  decodeBytes n (224 + r / 4096) (128 + (r / 64) mod 64) (128 + r mod 64) b3 = (r, 3).
Proof.
  intros. unfold decodeBytes. rewrite rune3_arith.
  destruct (n <? 1) eqn:E0; [lia|].
  first_class (224 + r / 4096); try (Z.to_euclidean_division_equations; lia).
  all: split_ifs; try f_equal; Z.to_euclidean_division_equations; lia.
Qed.

Lemma decodeBytes_4 n r :
  4 <= n -> 0x10000 <= r <= 0x10FFFF ->
  decodeBytes n (240 + r / 262144) (128 + (r / 4096) mod 64)
              (128 + (r / 64) mod 64) (128 + r mod 64) = (r, 4).
Proof.
  intros. unfold decodeBytes. rewrite rune4_arith.
  destruct (n <? 1) eqn:E0; [lia|].
  first_class (240 + r / 262144); try (Z.to_euclidean_division_equations; lia).
  all: split_ifs; try f_equal; Z.to_euclidean_division_equations; lia.
Qed.

Lemma ValidRune_spec r :
  ValidRune r = true <-> (0 <= r < 0xD800 \/ 0xDFFF < r <= 0x10FFFF).
Proof.
  unfold ValidRune, surrogateMin, surrogateMax, MaxRune.
  destruct ((0 <=? r) && (r <? 55296)) eqn:E1;
    destruct ((57343 <? r) && (r <=? 1114111)) eqn:E2;
    split; intros; try lia; try reflexivity; discriminate.
Qed.

Lemma len_cons c s : len (String c s) = 1 + len s.
Proof. unfold len. cbn [String.length]. lia. Qed.

Lemma len_nonneg s : 0 <= len s.
Proof. unfold len. lia. Qed.

Lemma DecodeRune_EncodeRune r s :
  ValidRune r = true ->
  DecodeRuneInString (EncodeRune r +:+ s) = (r, len (EncodeRune r)).
Proof.
  intros Hr%ValidRune_spec. pose proof (len_nonneg s).
  unfold EncodeRune, uint32, encode3, rune1Max, rune2Max, rune3Max,
    MaxRune, surrogateMin, surrogateMax.
  rewrite Z.mod_small by lia. split_ifs.
  all: rewrite DecodeRuneInString_bytes; cbv [String.append];
    cbn [idx String.get]; rewrite !len_cons;
    rewrite ?shiftr_6, ?shiftr_12, ?shiftr_18, ?enc_cont.
  all: change (len "") with 0.
  - rewrite byte_val_to_byte, Z.mod_small by lia. apply decodeBytes_1; lia.
  - rewrite enc_lead2 by (Z.to_euclidean_division_equations; lia).
    apply decodeBytes_2; lia.
  - rewrite enc_lead3 by (Z.to_euclidean_division_equations; lia).
    apply decodeBytes_3; lia.
  - rewrite enc_lead4 by (Z.to_euclidean_division_equations; lia).
    apply decodeBytes_4; lia.
Qed.

Lemma len_EncodeRune r : 1 <= len (EncodeRune r) <= 4.
Proof.
  unfold EncodeRune, encode3. split_ifs; rewrite !len_cons; change (len "") with 0; lia.
Qed.

Lemma decodeBytes_inv n b0 b1 b2 b3 :
  1 <= n -> 0 <= b0 ->
  exists c w, decodeBytes n b0 b1 b2 b3 = (c, w) /\
  ((w = 1 /\ c = RuneError)
   \/ (w = 1 /\ c = b0 /\ b0 <= 0x7F)
   \/ (w = 2 /\ 2 <= n /\ 0x80 <= c <= 0x7FF
       /\ b0 = 192 + c / 64 /\ b1 = 128 + c mod 64)
   \/ (w = 3 /\ 3 <= n /\ 0x800 <= c <= 0xFFFF /\ ~ (0xD800 <= c <= 0xDFFF)
       /\ b0 = 224 + c / 4096 /\ b1 = 128 + (c / 64) mod 64 /\ b2 = 128 + c mod 64)
   \/ (w = 4 /\ 4 <= n /\ 0x10000 <= c <= 0x10FFFF
       /\ b0 = 240 + c / 262144 /\ b1 = 128 + (c / 4096) mod 64
       /\ b2 = 128 + (c / 64) mod 64 /\ b3 = 128 + c mod 64)).
Proof.
  intros Hn Hb0. unfold decodeBytes.
  rewrite rune2_arith, rune3_arith, rune4_arith.
  destruct (n <? 1) eqn:E0; [lia|].
  first_class b0; split_ifs; eexists _, _; (split; [reflexivity|]).
  all: try (left; split; reflexivity).
  all: try (right; left; repeat split; lia).
  all: try (right; right; left; repeat split; Z.to_euclidean_division_equations; lia).
  all: try (right; right; right; left; repeat split; Z.to_euclidean_division_equations; lia).
  all: right; right; right; right; repeat split; Z.to_euclidean_division_equations; lia.
Qed.

End Utf8Facts.

(** ** The range loop and [strings.Map] *)

Module RangeFacts.
Import utf8 GoRange Utf8Facts.

Lemma length_drop n s : String.length (drop n s) = (String.length s - n)%nat.
Proof.
  revert s; induction n as [|n IH]; intros [|c s]; cbn [drop String.length]; auto.
Qed.

Lemma drop_app s t : drop (String.length s) (s +:+ t) = t.
Proof. induction s as [|c s IH]; auto. Qed.

Lemma idx_0_range s : 0 <= idx s 0.
Proof.
  unfold idx. destruct (String.get 0 s); [apply byte_val_range | lia].
Qed.

(** A step of the loop on a string that is not empty yields a rune that can
    be encoded and consumes between one and four of its bytes. *)
Lemma DecodeRuneInString_ok c s :
  decoded_ok (len (String c s)) (DecodeRuneInString (String c s)).
Proof.
  rewrite DecodeRuneInString_bytes. apply decodeBytes_valid.
  - rewrite len_cons. pose proof (len_nonneg s). lia.
  - apply idx_0_range.
Qed.

Lemma rangeFrom_enough f1 f2 s :
  (String.length s <= f1)%nat -> (String.length s <= f2)%nat ->
  rangeFrom f1 s = rangeFrom f2 s.
Proof.
  revert f2 s; induction f1 as [|f1 IH]; intros [|f2] [|c s] H1 H2;
    cbn [String.length] in *; try lia; try reflexivity.
  cbn [rangeFrom].
  pose proof (DecodeRuneInString_ok c s) as (_ & Hw & Hn).
  destruct (DecodeRuneInString (String c s)) as [r w]; cbn [fst snd] in *.
  f_equal. apply IH; rewrite length_drop; cbn [String.length]; lia.
Qed.

Lemma runes_empty : runes "" = [].
Proof. reflexivity. Qed.

Lemma runes_step c s :
  runes (String c s) =
  fst (DecodeRuneInString (String c s))
  :: runes (drop (Z.to_nat (snd (DecodeRuneInString (String c s)))) (String c s)).
Proof.
  unfold runes. cbn [String.length rangeFrom].
  pose proof (DecodeRuneInString_ok c s) as (_ & Hw & Hn).
  destruct (DecodeRuneInString (String c s)) as [r w]; cbn [fst snd] in *.
  f_equal. apply rangeFrom_enough; rewrite ?length_drop; cbn [String.length]; lia.
Qed.

Lemma EncodeRune_nonempty r : exists c t, EncodeRune r = String c t.
Proof. unfold EncodeRune, encode3. split_ifs; eauto. Qed.

(** The loop reads back a rune that was encoded in front of a string. *)
Lemma runes_EncodeRune r s :
  ValidRune r = true -> runes (EncodeRune r +:+ s) = r :: runes s.
Proof.
  intros Hr. destruct (EncodeRune_nonempty r) as (c & t & E).
  pose proof (DecodeRune_EncodeRune r s Hr) as D.
  rewrite E in *. change (String c t +:+ s) with (String c (t +:+ s)).
  rewrite runes_step. change (String c (t +:+ s)) with (String c t +:+ s).
  rewrite D. cbn [fst snd]. unfold len. rewrite Nat2Z.id. by rewrite drop_app.
Qed.

(** Every rune the loop yields can be encoded. *)
Lemma runes_valid s : Forall (fun r => ValidRune r = true) (runes s).
Proof.
  remember (String.length s) as n eqn:Hn.
  revert s Hn. induction n as [n IH] using lt_wf_ind. intros [|c s] Hn.
  - constructor.
  - rewrite runes_step.
    pose proof (DecodeRuneInString_ok c s) as (Hv & Hw & Hl).
    constructor; [exact Hv|].
    eapply IH; [|reflexivity]. subst n. rewrite length_drop. cbn [String.length]. lia.
Qed.

End RangeFacts.

Module MapFacts.
Import utf8 GoRange Utf8Facts RangeFacts strings.

Lemma ValidRune_nonneg r : ValidRune r = true -> (0 <=? r) = true.
Proof. intros Hr%ValidRune_spec. lia. Qed.

Lemma byte_val_inj a b : byte_val a = byte_val b -> a = b.
Proof. intros E. by rewrite <- (to_byte_byte_val a), E, to_byte_byte_val. Qed.

Lemma EncodeRune_1 c : 0 <= c <= 0x7F -> EncodeRune c = String (to_byte c) "".
Proof.
  intros. unfold EncodeRune, uint32, rune1Max. rewrite Z.mod_small by lia.
  destruct (c <=? 127) eqn:E; [reflexivity|lia].
Qed.

(** A rune that [DecodeRuneInString] reads from a well-formed sequence
    encodes back to the bytes it was read from. *)
Lemma EncodeRune_decoded c0 s :
  fst (DecodeRuneInString (String c0 s)) <> RuneError
  \/ snd (DecodeRuneInString (String c0 s)) <> 1 ->
  EncodeRune (fst (DecodeRuneInString (String c0 s)))
  = take (Z.to_nat (snd (DecodeRuneInString (String c0 s)))) (String c0 s).
Proof.
  rewrite DecodeRuneInString_bytes. rewrite len_cons. pose proof (len_nonneg s) as Hs.
  pose proof (byte_val_range c0) as Hc0. cbn [idx String.get].
  destruct (decodeBytes_inv (1 + len s) (byte_val c0)
              (idx (String c0 s) 1) (idx (String c0 s) 2) (idx (String c0 s) 3))
    as (c & w & E & Hcases); [lia|lia|].
  cbn [idx String.get] in E. rewrite E. cbn [fst snd]. intros Hwf.
  destruct Hcases as [(-> & ->)|[(-> & -> & ?)|[(-> & Hn & Hc & H0 & H1)|
    [(-> & Hn & Hc & Hsur & H0 & H1 & H2)|(-> & Hn & Hc & H0 & H1 & H2 & H3)]]]].
  - destruct Hwf; congruence.
  - rewrite EncodeRune_1 by lia. cbn [Z.to_nat Pos.to_nat Pos.iter_op Nat.add take].
    by rewrite to_byte_byte_val.
  - destruct s as [|c1 s]; [change (len "") with 0 in Hn; lia|].
    cbn [idx String.get] in H1.
    unfold EncodeRune, uint32, rune1Max, rune2Max. rewrite Z.mod_small by lia.
    destruct (c <=? 127) eqn:E1; [lia|]. destruct (c <=? 2047) eqn:E2; [|lia].
    change (Z.to_nat 2) with 2%nat. cbn [take]. f_equal; [|f_equal].
    + apply byte_val_inj. rewrite shiftr_6, enc_lead2; [lia|].
      Z.to_euclidean_division_equations; lia.
    + apply byte_val_inj. rewrite enc_cont. lia.
  - destruct s as [|c1 [|c2 s]]; try (rewrite ?len_cons in Hn; change (len "") with 0 in Hn; lia).
    cbn [idx String.get] in H1, H2.
    unfold EncodeRune, uint32, rune1Max, rune2Max, rune3Max, MaxRune,
      surrogateMin, surrogateMax, encode3.
    rewrite Z.mod_small by lia.
    destruct (c <=? 127) eqn:E1; [lia|]. destruct (c <=? 2047) eqn:E2; [lia|].
    destruct ((1114111 <? c) || (55296 <=? c) && (c <=? 57343)) eqn:E3; [lia|].
    destruct (c <=? 65535) eqn:E4; [|lia].
    change (Z.to_nat 3) with 3%nat. cbn [take]. f_equal; [|f_equal; [|f_equal]].
    + apply byte_val_inj. rewrite shiftr_12, enc_lead3; [lia|].
      Z.to_euclidean_division_equations; lia.
    + apply byte_val_inj. rewrite shiftr_6, enc_cont. lia.
    + apply byte_val_inj. rewrite enc_cont. lia.
  - destruct s as [|c1 [|c2 [|c3 s]]];
      try (rewrite ?len_cons in Hn; change (len "") with 0 in Hn; lia).
    cbn [idx String.get] in H1, H2, H3.
    unfold EncodeRune, uint32, rune1Max, rune2Max, rune3Max, MaxRune,
      surrogateMin, surrogateMax, encode3.
    rewrite Z.mod_small by lia.
    destruct (c <=? 127) eqn:E1; [lia|]. destruct (c <=? 2047) eqn:E2; [lia|].
    destruct ((1114111 <? c) || (55296 <=? c) && (c <=? 57343)) eqn:E3; [lia|].
    destruct (c <=? 65535) eqn:E4; [lia|].
    change (Z.to_nat 4) with 4%nat. cbn [take]. f_equal; [|f_equal; [|f_equal; [|f_equal]]].
    + apply byte_val_inj. rewrite shiftr_18, enc_lead4; [lia|].
      Z.to_euclidean_division_equations; lia.
    + apply byte_val_inj. rewrite shiftr_12, enc_cont. lia.
    + apply byte_val_inj. rewrite shiftr_6, enc_cont. lia.
    + apply byte_val_inj. rewrite enc_cont. lia.
Qed.

(** The width of a decoded rune other than [RuneError] is its encoded
    length. *)
Lemma RuneLen_decoded c0 s :
  fst (DecodeRuneInString (String c0 s)) <> RuneError ->
  RuneLen (fst (DecodeRuneInString (String c0 s)))
  = snd (DecodeRuneInString (String c0 s)).
Proof.
  rewrite DecodeRuneInString_bytes. rewrite len_cons. pose proof (len_nonneg s) as Hs.
  pose proof (byte_val_range c0) as Hc0. cbn [idx String.get].
  destruct (decodeBytes_inv (1 + len s) (byte_val c0)
              (idx (String c0 s) 1) (idx (String c0 s) 2) (idx (String c0 s) 3))
    as (c & w & E & Hcases); [lia|lia|].
  cbn [idx String.get] in E. rewrite E. cbn [fst snd]. intros Hc.
  unfold RuneLen, rune1Max, rune2Max, rune3Max, MaxRune, surrogateMin, surrogateMax.
  destruct Hcases as [(-> & ->)|[(-> & -> & ?)|[(-> & Hn & ? & _)|
    [(-> & Hn & ? & ? & _)|(-> & Hn & ? & _)]]]]; [done|..]; split_ifs.
Qed.

Lemma app_assoc_s (a b c : string) : (a +:+ b) +:+ c = a +:+ b +:+ c.
Proof.
  induction a as [|x a IH]; [reflexivity|].
  change (String x a +:+ b) with (String x (a +:+ b)).
  change (String x (a +:+ b) +:+ c) with (String x ((a +:+ b) +:+ c)).
  by rewrite IH.
Qed.

Lemma take_drop n s : take n s +:+ drop n s = s.
Proof.
  revert s; induction n as [|n IH]; intros [|c s]; cbn [take drop]; try reflexivity.
  change (String c (take n s) +:+ drop n s) with (String c (take n s +:+ drop n s)).
  by rewrite IH.
Qed.

Lemma drop_drop n m s : drop m (drop n s) = drop (n + m) s.
Proof.
  revert s; induction n as [|n IH]; intros s; [reflexivity|].
  destruct s as [|c s]; cbn [drop Nat.add]; [by destruct m|apply IH].
Qed.

Lemma take_add n m s : take (n + m) s = take n s +:+ take m (drop n s).
Proof.
  revert s; induction n as [|n IH]; intros s; [reflexivity|].
  destruct s as [|c s]; cbn [take drop Nat.add]; [by destruct m|].
  change (String c (take n s) +:+ take m (drop n s))
    with (String c (take n s +:+ take m (drop n s))).
  by rewrite IH.
Qed.

Section MapSource.
Variable mapping : Z -> Z.

Lemma mapRest_runes s : mapRest mapping s = mapRunes mapping s.
Proof.
  unfold mapRest, mapRunes. induction (runes s) as [|c l IH]; [reflexivity|].
  cbn [fold_right]. cbv zeta. rewrite IH.
  destruct (0 <=? mapping c) eqn:E0; [|reflexivity].
  unfold RuneSelf. destruct (mapping c <? 128) eqn:E1; [|reflexivity].
  by rewrite EncodeRune_1 by lia.
Qed.

Lemma mapRunes_step c0 s :
  mapRunes mapping (String c0 s)
  = (if 0 <=? mapping (fst (DecodeRuneInString (String c0 s)))
     then EncodeRune (mapping (fst (DecodeRuneInString (String c0 s)))) else "")
    +:+ mapRunes mapping
          (drop (Z.to_nat (snd (DecodeRuneInString (String c0 s)))) (String c0 s)).
Proof.
  unfold mapRunes. rewrite runes_step. cbn [fold_right].
  by destruct (0 <=? _).
Qed.

Lemma mapScan_correct s fuel i :
  (String.length s - i <= fuel)%nat ->
  mapRunes mapping s = take i s +:+ mapRunes mapping (drop i s) ->
  match mapScan fuel mapping s i with
  | None => s
  | Some (j, r, width) =>
    take j s +:+ (if 0 <=? r then EncodeRune r else "")
    +:+ mapRest mapping (drop (j + Z.to_nat width) s)
  end = mapRunes mapping s.
Proof.
  revert i; induction fuel as [|fuel IH]; intros i Hfuel Hpre.
  { cbn [mapScan]. rewrite Hpre.
    assert (E : drop i s = "").
    { pose proof (length_drop i s) as Hl. destruct (drop i s); [done|].
      cbn [String.length] in Hl. lia. }
    rewrite E. rewrite <- (take_drop i s) at 1. by rewrite E. }
  cbn [mapScan]. pose proof (length_drop i s) as Hlen.
  destruct (drop i s) as [|c0 t] eqn:Ht.
  { rewrite Hpre. rewrite <- (take_drop i s) at 1. by rewrite Ht. }
  pose proof (DecodeRuneInString_ok c0 t) as (Hv & Hw & Hn).
  pose proof (EncodeRune_decoded c0 t) as Hcanon.
  pose proof (RuneLen_decoded c0 t) as Hrl.
  rewrite mapRunes_step in Hpre.
  destruct (DecodeRuneInString (String c0 t)) as [c w] eqn:Hd. cbn [fst snd] in *.
  cbv zeta.
  assert (Hcont :
    mapping c = c -> (c <> RuneError \/ w <> 1) ->
    match mapScan fuel mapping s (i + Z.to_nat w) with
    | None => s
    | Some (j, r, width) =>
      take j s +:+ (if 0 <=? r then EncodeRune r else "")
      +:+ mapRest mapping (drop (j + Z.to_nat width) s)
    end = mapRunes mapping s).
  { intros Hr Hwf. apply IH.
    - cbn [String.length] in Hlen. lia.
    - rewrite Hpre, Hr, (ValidRune_nonneg c Hv), Hcanon by done.
      rewrite take_add, <- drop_drop, Ht, app_assoc_s. reflexivity. }
  destruct ((mapping c =? c) && negb (c =? RuneError)) eqn:E1.
  { apply Hcont; lia. }
  destruct (c =? RuneError) eqn:E2.
  - destruct (negb (w =? 1) && (mapping c =? c)) eqn:E3.
    + apply Hcont; lia.
    + by rewrite mapRest_runes, <- drop_drop, Ht, Hpre.
  - rewrite Hrl by lia. by rewrite mapRest_runes, <- drop_drop, Ht, Hpre.
Qed.


(** [strings.Map] returns the runes of [s] mapped and encoded: the prefix it
    copies unchanged is the encoding of its own runes. *)
Lemma Map_mapRunes s : Map mapping s = mapRunes mapping s.
Proof. apply (mapScan_correct s (String.length s) 0); [lia|reflexivity]. Qed.

End MapSource.

Section Mapping.
Variable mapping : Z -> Z.
Hypothesis mapping_valid : forall c, ValidRune c = true -> ValidRune (mapping c) = true.

Lemma runes_encode_all l :
  Forall (fun c => ValidRune c = true) l ->
  runes (fold_right
           (fun c acc =>
              if 0 <=? mapping c then EncodeRune (mapping c) +:+ acc else acc) "" l)
  = map mapping l.
Proof.
  induction 1 as [|c l Hc Hl IH]; [reflexivity|].
  cbn [fold_right map].
  rewrite (ValidRune_nonneg _ (mapping_valid c Hc)).
  rewrite runes_EncodeRune by auto. by rewrite IH.
Qed.

(** The runes of [strings.Map mapping s] are the images of the runes of
    [s]. *)
Lemma runes_Map s : runes (Map mapping s) = map mapping (runes s).
Proof. rewrite Map_mapRunes. apply runes_encode_all, runes_valid. Qed.

Hypothesis mapping_idem : forall c, ValidRune c = true -> mapping (mapping c) = mapping c.

Lemma Map_idempotent s : Map mapping (Map mapping s) = Map mapping s.
Proof.
  rewrite (Map_mapRunes mapping (Map mapping s)), (Map_mapRunes mapping s).
  unfold mapRunes at 1. rewrite <- (Map_mapRunes mapping s), runes_Map.
  rewrite Map_mapRunes. unfold mapRunes.
  induction (runes_valid s) as [|c l Hc Hl IH]; [reflexivity|].
  cbn [map fold_right]. rewrite mapping_idem by auto. by rewrite IH.
Qed.
End Mapping.

End MapFacts.

Module SanitizeFacts.
Import utf8 GoRange Utf8Facts RangeFacts MapFacts unicode tshttp.

Section WithTables.
Context `{RangeTables}.

Lemma sanitize_Map path : sanitize path = strings.Map sanitizeRune path.
Proof. reflexivity. Qed.

Lemma underscore_not_kept :
  IsLetter 0x5F || IsDigit 0x5F || (0x5F =? 0x2D) = false.
Proof. reflexivity. Qed.

Lemma sanitizeRune_valid c : ValidRune c = true -> ValidRune (sanitizeRune c) = true.
Proof. unfold sanitizeRune. destruct (_ || _); auto. Qed.

Lemma sanitizeRune_idem c : sanitizeRune (sanitizeRune c) = sanitizeRune c.
Proof.
  unfold sanitizeRune.
  destruct (IsLetter c || IsDigit c || (c =? 0x2D)) eqn:E.
  - by rewrite E.
  - by rewrite underscore_not_kept.
Qed.

Lemma sanitizeRune_charset c :
  IsLetter (sanitizeRune c) || IsDigit (sanitizeRune c)
  || (sanitizeRune c =? 0x2D) || (sanitizeRune c =? 0x5F) = true.
Proof.
  unfold sanitizeRune.
  destruct (IsLetter c || IsDigit c || (c =? 0x2D)) eqn:E.
  - by rewrite E.
  - apply orb_true_r.
Qed.

End WithTables.
End SanitizeFacts.

(** ** The claims about [sanitize] *)

Section SanitizeClaims.
Import utf8 GoRange unicode tshttp SanitizeFacts.

(** C2, as amended.  Sanitizing is idempotent, so it is the identity on the
    strings it returns; it maps the runes of its input one by one, keeping
    letters, digits and the hyphen and putting an underscore for every other
    rune (a byte that is not part of a well-formed UTF-8 sequence counts as
    the rune U+FFFD); hence every rune of the result is a letter, a digit, a
    hyphen or an underscore. *)
Theorem sanitize_idempotent_charset `{RangeTables} (x : string) :
  sanitize (sanitize x) = sanitize x
  /\ runes (sanitize x)
     = map (fun r => if IsLetter r || IsDigit r || (r =? 0x2D) then r else 0x5F) (runes x)
  /\ Forall (fun r => IsLetter r || IsDigit r || (r =? 0x2D) || (r =? 0x5F) = true)
            (runes (sanitize x)).
Proof.
  rewrite !sanitize_Map. split; [|split].
  - apply MapFacts.Map_idempotent.
    + apply sanitizeRune_valid.
    + intros c _. apply sanitizeRune_idem.
  - apply MapFacts.runes_Map, sanitizeRune_valid.
  - rewrite MapFacts.runes_Map by apply sanitizeRune_valid.
    apply List.Forall_forall. intros r (c & <- & _)%List.in_map_iff.
    apply sanitizeRune_charset.
Qed.

(** C2, as stated, fails: the result of sanitizing [a/b] holds an underscore,
    which is neither a letter, nor a digit, nor a hyphen. *)
Lemma sanitize_charset_counterexample :
  ~ (forall (T : RangeTables) (x : string),
        sanitize (sanitize x) = sanitize x
        /\ Forall (fun r => IsLetter r || IsDigit r || (r =? 0x2D) = true)
                  (runes (sanitize x))).
Proof.
  intros claim. destruct (claim excerpt "a/b") as [_ Hall].
  assert (E : runes (@sanitize excerpt "a/b") = [0x61; 0x5F; 0x62]) by (vm_compute; reflexivity).
  rewrite E in Hall. inversion Hall as [|? ? _ Htl]. inversion Htl as [|? ? Hu _].
  discriminate Hu.
Qed.

End SanitizeClaims.

(** ** Initialization of the presence manager *)

Section InitClaims.
Import unicode tshttp.
Context `{RangeTables}.

Lemma eqb_empty_default (s d : string) :
  d <> "" -> (if String.eqb s "" then d else s) <> "".
Proof. destruct (String.eqb_spec s ""); congruence. Qed.

(** A failure to create the state directory, other than its existing
    already, ends the process in [Logger.Fatal]. *)
Lemma init_fatal (MkdirAll : string -> Z -> option error) (s : Server) err :
  MkdirAll ((if String.eqb (StateDir s) "" then "." else StateDir s)
            +:+ "/data-"
            +:+ sanitize (if String.eqb (Name s) "" then "unknown" else Name s))
           0x1C0 = Some err ->
  errors_Is_ErrExist err = false ->
  init MkdirAll s
  = ([Log DebugLevel "tshttp init" [];
      Log FatalLevel "unable to create state dir" [zapError err]], None).
Proof. intros Hmk Herr. unfold init. by rewrite Hmk, Herr. Qed.

(** C10.  When the [sync.Once] has not fired and the state directory can be
    created (or exists already), initialization returns, with an empty [Name]
    replaced by [unknown] and an empty [StateDir] by [.]; neither field is
    empty afterwards; the overlay handle it builds has the name, defaulted if
    it was empty, as its hostname, and [<StateDir>/data-<sanitize(Name)>] as
    its state directory. *)
Theorem init_defaults (MkdirAll : string -> Z -> option error) (s : Server) :
  initOnce s = false ->
  (forall dir perm err, MkdirAll dir perm = Some err -> errors_Is_ErrExist err = true) ->
  exists s' t,
    snd (initOnce_Do MkdirAll s) = Some s'
    /\ Name s' = (if String.eqb (Name s) "" then "unknown" else Name s)
    /\ StateDir s' = (if String.eqb (StateDir s) "" then "." else StateDir s)
    /\ Name s' <> "" /\ StateDir s' <> ""
    /\ initOnce s' = true
    /\ tailnet s' = Some t
    /\ tsnet.Hostname t = Name s'
    /\ tsnet.Dir t = StateDir s' +:+ "/data-" +:+ sanitize (Name s').
Proof.
  intros Hfirst Hmk. unfold initOnce_Do, init. rewrite Hfirst.
  set (name := if String.eqb (Name s) "" then "unknown" else Name s).
  set (stateDir := if String.eqb (StateDir s) "" then "." else StateDir s).
  set (dir := stateDir +:+ "/data-" +:+ sanitize name).
  assert (Hok : match MkdirAll dir 0x1C0 with
                | Some err => if negb (errors_Is_ErrExist err) then Some err else None
                | None => None
                end = None).
  { destruct (MkdirAll dir 0x1C0) as [err|] eqn:E; [|reflexivity].
    by rewrite (Hmk _ _ _ E). }
  rewrite Hok. cbn [snd]. eexists _, _. cbn.
  repeat split; try reflexivity; subst name stateDir; by apply eqb_empty_default.
Qed.

End InitClaims.

Section InitWitness.
Import unicode tshttp.

Lemma init_defaults_witness :
  exists s' t,
    snd (@initOnce_Do excerpt (fun _ _ => None)
           {| Logger := None; Name := ""; ControlURL := ""; StateDir := "";
              Debug := false; tailnet := None; cancel := false; initOnce := false |})
    = Some s'
    /\ Name s' = "unknown" /\ StateDir s' = "."
    /\ tailnet s' = Some t
    /\ tsnet.Hostname t = "unknown"
    /\ tsnet.Dir t = "./data-unknown".
Proof.
  destruct (@init_defaults excerpt (fun _ _ => None)
              {| Logger := None; Name := ""; ControlURL := ""; StateDir := "";
                 Debug := false; tailnet := None; cancel := false; initOnce := false |}
              eq_refl)
    as (s' & t & E & Hn & Hd & _ & _ & _ & Ht & Hh & Hdir).
  { discriminate. }
  exists s', t. cbn in Hn, Hd. rewrite Hh, Hdir, Hn, Hd.
  repeat split; auto.
Defined.

End InitWitness.

(** ** The proxy request filter *)

Section ProxyClaims.
Import tailmon.

(** C8.  A request for [/metrics] is logged as accepted and handed to the
    reverse proxy for the upstream URL; a request for any other path is
    logged as rejected and answered with status 404 and the display name as
    the body, and nothing is handed to the proxy. *)
Theorem proxy_filter (upstreamURL name path : string) :
  (path = "/metrics"
   /\ NewProxyHandler upstreamURL name path
      = [Log InfoLevel "accept" [zapString "path" path];
         ProxyServeHTTP upstreamURL path])
  \/
  (path <> "/metrics"
   /\ NewProxyHandler upstreamURL name path
      = [Log InfoLevel "reject" [zapString "path" path];
         WriteHeader 404;
         WriteString (name +:+ String (to_byte 10) "")]
   /\ forall u p, ~ In (ProxyServeHTTP u p) (NewProxyHandler upstreamURL name path)).
Proof.
  unfold NewProxyHandler. destruct (String.eqb_spec path "/metrics") as [E|E].
  - left. auto.
  - right. repeat split; auto.
    intros u p [F|[F|[F|[]]]]; discriminate F.
Qed.

End ProxyClaims.

(** ** The authentication-wait loop *)

Section PollClaims.
Import tshttp.

Lemma pollOnce_stop answer : snd (pollOnce answer) = running answer.
Proof.
  destruct answer as [ss|err]; cbn [pollOnce running]; [|reflexivity].
  destruct (String.eqb (Status.BackendState ss) "Running"); [reflexivity|].
  destruct (negb _); reflexivity.
Qed.

Lemma pollLoop_exits_iff lc turns i :
  snd (pollLoop turns lc i) = Exited
  <-> exists k, (i <= k < i + turns)%nat /\ running (tsnet.StatusWithoutPeers lc k) = true.
Proof.
  revert i; induction turns as [|turns IH]; intros i; cbn [pollLoop].
  - split; [discriminate|]. intros (k & ? & _); lia.
  - pose proof (pollOnce_stop (tsnet.StatusWithoutPeers lc i)) as Hs.
    destruct (pollOnce (tsnet.StatusWithoutPeers lc i)) as [entries stop].
    cbn [snd] in Hs. destruct stop.
    + cbn [snd]. split; [intros _|reflexivity]. exists i. split; [lia|auto].
    + specialize (IH (S i)). destruct (pollLoop turns lc (S i)) as [rest st].
      cbn [snd] in *. rewrite IH. split; intros (k & Hk & Hr).
      * exists k. split; [lia|auto].
      * exists k. split; [|auto].
        destruct (Nat.eq_dec k i) as [->|]; [congruence|lia].
Qed.

(** One more turn: a loop that has left stays as it is; one that has not
    polls once more, and pauses unless that turn leaves. *)
Lemma pollLoop_succ lc n i :
  pollLoop (S n) lc i
  = match pollLoop n lc i with
    | (done, Exited) => (done, Exited)
    | (done, Polling) =>
      let '(entries, stop) := pollOnce (tsnet.StatusWithoutPeers lc (i + n)) in
      if stop then (done ++ entries, Exited)
      else (done ++ entries ++ [Sleep (1 * Second)], Polling)
    end.
Proof.
  revert i; induction n as [|n IH]; intros i.
  - cbn [pollLoop]. rewrite Nat.add_0_r.
    destruct (pollOnce (tsnet.StatusWithoutPeers lc i)) as [entries [|]]; reflexivity.
  - remember (S n) as m eqn:Hm. cbn [pollLoop].
    destruct (pollOnce (tsnet.StatusWithoutPeers lc i)) as [entries [|]] eqn:E.
    + subst m. cbn [pollLoop]. by rewrite E.
    + rewrite IH. subst m. cbn [pollLoop]. rewrite E.
      replace (S i + n)%nat with (i + S n)%nat by lia.
      destruct (pollLoop n lc (S i)) as [rest [|]]; [|reflexivity].
      destruct (pollOnce (tsnet.StatusWithoutPeers lc (i + S n))) as [entries' [|]];
        by rewrite <- ?app_assoc.
Qed.

Lemma pollLoop_polling lc n :
  (forall k, (k < n)%nat -> running (tsnet.StatusWithoutPeers lc k) = false) ->
  pollLoop n lc 0 = (turnsBefore lc n, Polling).
Proof.
  induction n as [|n IH]; intros Hnot; [reflexivity|].
  rewrite pollLoop_succ, IH by (intros; apply Hnot; lia). cbn [Nat.add turnsBefore].
  pose proof (pollOnce_stop (tsnet.StatusWithoutPeers lc n)) as Hs.
  rewrite Hnot in Hs by lia.
  destruct (pollOnce (tsnet.StatusWithoutPeers lc n)) as [entries stop].
  cbn [snd fst] in *. by subst stop.
Qed.

Lemma pollLoop_exited_stable lc n m i done :
  pollLoop n lc i = (done, Exited) -> (n <= m)%nat -> pollLoop m lc i = (done, Exited).
Proof.
  intros E. induction 1 as [|m Hle IH]; [exact E|].
  by rewrite pollLoop_succ, IH.
Qed.

Lemma pollLoop_running lc n m :
  (forall k, (k < n)%nat -> running (tsnet.StatusWithoutPeers lc k) = false) ->
  running (tsnet.StatusWithoutPeers lc n) = true ->
  (n < m)%nat ->
  pollLoop m lc 0
  = (turnsBefore lc n ++ fst (pollOnce (tsnet.StatusWithoutPeers lc n)), Exited).
Proof.
  intros Hnot Hrun Hm. apply (pollLoop_exited_stable lc (S n)); [|lia].
  rewrite pollLoop_succ, pollLoop_polling by exact Hnot. cbn [Nat.add].
  pose proof (pollOnce_stop (tsnet.StatusWithoutPeers lc n)) as Hs.
  rewrite Hrun in Hs.
  destruct (pollOnce (tsnet.StatusWithoutPeers lc n)) as [entries stop].
  cbn [snd fst] in *. by subst stop.
Qed.

(** Without a local client the goroutine logs the error and returns: the
    loop is not entered. *)
Lemma authHelper_no_client turns tailnet err :
  tsnet.LocalClient tailnet = Fail err ->
  authHelper turns tailnet = ([Log ErrorLevel "LocalClient" [zapError err]], Exited).
Proof. intros E. unfold authHelper. by rewrite E. Qed.

Lemma authHelper_client turns tailnet lc :
  tsnet.LocalClient tailnet = Ok lc -> authHelper turns tailnet = pollLoop turns lc 0.
Proof. intros E. unfold authHelper. by rewrite E. Qed.

(** C9.  The loop leaves exactly when a status query answers with the
    backend state [Running]: while no answer has, it is still polling however
    many turns it has made, each turn followed by a pause of one second
    before the next query.  A failed query logs the error and the loop goes
    on; an answer that is not [Running] and carries an authentication URL
    logs the URL at error level, on every such turn; the answer [Running]
    logs the addresses, the node id and the DNS name, and ends the loop. *)
Theorem pollLoop_until_running (lc : tsnet.LocalClientT) :
  (forall turns,
      snd (pollLoop turns lc 0) = Exited
      <-> exists k, (k < turns)%nat /\ running (tsnet.StatusWithoutPeers lc k) = true)
  /\ (forall n,
         (forall k, (k < n)%nat -> running (tsnet.StatusWithoutPeers lc k) = false) ->
         pollLoop n lc 0 = (turnsBefore lc n, Polling)
         /\ (running (tsnet.StatusWithoutPeers lc n) = true ->
             forall m, (n < m)%nat ->
               pollLoop m lc 0
               = (turnsBefore lc n ++ fst (pollOnce (tsnet.StatusWithoutPeers lc n)),
                  Exited)))
  /\ (forall err,
         pollOnce (Fail err)
         = ([Log ErrorLevel "StatusWithoutPeers" [zapError err]], false))
  /\ (forall ss,
         Status.BackendState ss <> "Running" -> Status.AuthURL ss <> "" ->
         snd (pollOnce (Ok ss)) = false
         /\ In (Log ErrorLevel "Needs authentication"
                    [zapString "url" (Status.AuthURL ss)])
               (fst (pollOnce (Ok ss))))
  /\ (forall ss,
         Status.BackendState ss = "Running" ->
         snd (pollOnce (Ok ss)) = true
         /\ In (Log InfoLevel "tailnet running"
                    [zapString "id" (PeerStatus.ID (Status.Self ss));
                     zapString "dns" (PeerStatus.DNSName (Status.Self ss));
                     zapStrings "ips" (map netip.String (Status.TailscaleIPs ss))])
               (fst (pollOnce (Ok ss)))).
Proof.
  split; [|split; [|split; [|split]]].
  - intros turns. rewrite pollLoop_exits_iff. split; intros (k & ? & ?); exists k; split; auto; lia.
  - intros n Hnot. split; [by apply pollLoop_polling|].
    intros Hrun m Hm. by apply pollLoop_running.
  - reflexivity.
  - intros ss Hstate Hurl. cbn [pollOnce].
    destruct (String.eqb_spec (Status.BackendState ss) "Running"); [done|].
    destruct (String.eqb_spec (Status.AuthURL ss) ""); [done|].
    cbn. auto.
  - intros ss Hstate. cbn [pollOnce].
    destruct (String.eqb_spec (Status.BackendState ss) "Running"); [|done].
    cbn. auto.
Qed.

End PollClaims.

Section PollWitness.
Import tshttp.

Lemma pollLoop_until_running_witness :
  pollLoop 5 joining 0
  = ([Log ErrorLevel "StatusWithoutPeers" [zapError (errorString "connection refused")];
      Sleep 1000000000;
      Log DebugLevel "status"
          [zapString "BackendState" "NeedsLogin"; zapStrings "Health" [];
           zapString "AuthURL" "https://login.example.com/a/1f2e3d"];
      Log ErrorLevel "Needs authentication"
          [zapString "url" "https://login.example.com/a/1f2e3d"];
      Sleep 1000000000;
      Log DebugLevel "status"
          [zapString "BackendState" "Running"; zapStrings "Health" [];
           zapString "AuthURL" ""];
      Log InfoLevel "tailnet running"
          [zapString "id" "n3"; zapString "dns" "other-service.ts.example.com.";
           zapStrings "ips" ["100.64.0.9"]]],
     Exited).
Proof.
  refine (proj2 (proj1 (proj2 (pollLoop_until_running joining)) 2%nat _) eq_refl 5%nat _).
  - intros [|[|k]] Hk; [reflexivity|reflexivity|lia].
  - lia.
Defined.

End PollWitness.

(** ** Cutting and parsing *)

Module CutFacts.
Import strings Utf8Facts RangeFacts.

Lemma HasPrefix_char s c :
  HasPrefix s (String c "") = match s with String c' _ => Ascii.eqb c' c | EmptyString => false end.
Proof.
  unfold HasPrefix. destruct s as [|c' t].
  - reflexivity.
  - cbn [String.length take]. rewrite !len_cons.
    change (len "") with 0. pose proof (len_nonneg t).
    replace (1 + 0 <=? 1 + len t) with true by lia.
    cbn [String.eqb andb]. by destruct (Ascii.eqb c' c).
Qed.

Lemma Index_char_absent c s : count c s = 0%nat -> Index s (String c "") = -1.
Proof.
  induction s as [|c' t IH]; intros Hc.
  - reflexivity.
  - cbn [Index]. rewrite HasPrefix_char. cbn [count] in Hc.
    destruct (Ascii.eqb c' c); [discriminate|].
    rewrite IH by lia. reflexivity.
Qed.

Lemma Index_char_first c a b :
  count c a = 0%nat -> Index (a +:+ String c b) (String c "") = len a.
Proof.
  induction a as [|c' t IH]; intros Hc.
  - change ("" +:+ String c b) with (String c b). cbn [Index].
    by rewrite HasPrefix_char, Ascii.eqb_refl.
  - change (String c' t +:+ String c b) with (String c' (t +:+ String c b)).
    cbn [Index]. rewrite HasPrefix_char. cbn [count] in Hc.
    destruct (Ascii.eqb c' c); [discriminate|].
    rewrite IH, len_cons by lia. pose proof (len_nonneg t).
    destruct (len t <? 0) eqn:E; lia.
Qed.

Lemma count_split c s :
  count c s <> 0%nat -> exists a b, s = a +:+ String c b /\ count c a = 0%nat.
Proof.
  induction s as [|c' t IH]; intros Hc; [done|]. cbn [count] in Hc.
  destruct (Ascii.eqb_spec c' c) as [->|Hne].
  - by exists "", t.
  - destruct IH as (a & b & -> & Ha); [lia|].
    exists (String c' a), b. split; [reflexivity|].
    cbn [count]. destruct (Ascii.eqb_spec c' c); [done|lia].
Qed.

Lemma count_app c a b : count c (a +:+ b) = (count c a + count c b)%nat.
Proof.
  induction a as [|c' t IH]; [reflexivity|].
  change (String c' t +:+ b) with (String c' (t +:+ b)). cbn [count]. lia.
Qed.

Lemma take_app s t : take (String.length s) (s +:+ t) = s.
Proof.
  induction s as [|c s IH]; [by destruct t|].
  change (String c s +:+ t) with (String c (s +:+ t)).
  cbn [String.length take]. by rewrite IH.
Qed.

Lemma Cut_absent c s : count c s = 0%nat -> Cut s (String c "") = (s, "", false).
Proof. intros Hc. unfold Cut. by rewrite Index_char_absent. Qed.

Lemma Cut_first c a b :
  count c a = 0%nat -> Cut (a +:+ String c b) (String c "") = (a, b, true).
Proof.
  intros Hc. unfold Cut. rewrite Index_char_first by done.
  pose proof (len_nonneg a). destruct (0 <=? len a) eqn:E; [|lia].
  rewrite len_cons. change (len "") with 0. unfold len.
  rewrite Nat2Z.id, take_app.
  replace (Z.to_nat (Z.of_nat (String.length a) + (1 + 0)))
    with (String.length (a +:+ String c ""))%nat.
  - replace (a +:+ String c b) with ((a +:+ String c "") +:+ b).
    + by rewrite drop_app.
    + clear. induction a as [|c' t IH]; [reflexivity|].
      change (String c' t +:+ String c "") with (String c' (t +:+ String c "")).
      change (String c' (t +:+ String c "") +:+ b) with (String c' ((t +:+ String c "") +:+ b)).
      by rewrite IH.
  - clear. induction a as [|c' t IH]; [reflexivity|].
    change (String c' t +:+ String c "") with (String c' (t +:+ String c "")).
    cbn [String.length]. lia.
Qed.

(** [Cut] on a one-byte separator, in full. *)
Lemma Cut_char c s :
  (count c s = 0%nat /\ Cut s (String c "") = (s, "", false))
  \/ (exists a b, s = a +:+ String c b /\ count c a = 0%nat
                  /\ Cut s (String c "") = (a, b, true)).
Proof.
  destruct (Nat.eq_dec (count c s) 0%nat) as [Hc|Hc].
  - left. split; [done|]. by apply Cut_absent.
  - right. destruct (count_split c s Hc) as (a & b & -> & Ha).
    exists a, b. repeat split; [done|]. by apply Cut_first.
Qed.

End CutFacts.

Module ParseFacts.
Import strconv Utf8Facts.

Lemma parseDigits_digit s0 c t n :
  isDigitByte c = true -> 0 <= n ->
  parseDigits s0 10 (maxUint64 / 10 + 1) maxUint64 (String c t) n
  = if (maxUint64 / 10 + 1 <=? n) || (maxUint64 <? n * 10 + (byte_val c - 0x30))
    then (maxUint64, Some (rangeError "ParseUint" s0))
    else parseDigits s0 10 (maxUint64 / 10 + 1) maxUint64 t (n * 10 + (byte_val c - 0x30)).
Proof.
  unfold isDigitByte. intros Hd Hn. cbn [parseDigits]. rewrite Hd.
  change (10 mod 256) with 10. unfold uint64.
  change (maxUint64 / 10 + 1) with 1844674407370955162.
  change maxUint64 with 18446744073709551615.
  change (2 ^ 64) with 18446744073709551616.
  destruct (10 <=? byte_val c - 48) eqn:E1; [lia|].
  destruct (1844674407370955162 <=? n) eqn:E2; [reflexivity|]. cbn [orb].
  rewrite (Z.mod_small (n * 10)) by lia.
  destruct (18446744073709551615 <? n * 10 + (byte_val c - 48)) eqn:E3.
  - replace ((n * 10 + (byte_val c - 48)) mod 18446744073709551616)
      with (n * 10 + (byte_val c - 48) - 18446744073709551616)
      by (apply Z.mod_unique with 1; lia).
    destruct (_ || _) eqn:E4; [reflexivity|lia].
  - rewrite Z.mod_small by lia.
    destruct (_ || _) eqn:E4; [lia|reflexivity].
Qed.

Lemma parseDigits_nondigit_head s0 c t n :
  isDigitByte c = false ->
  parseDigits s0 10 (maxUint64 / 10 + 1) maxUint64 (String c t) n
  = (0, Some (syntaxError "ParseUint" s0)).
Proof.
  unfold isDigitByte. intros Hd. cbn [parseDigits]. rewrite Hd.
  change (10 mod 256) with 10.
  destruct ((97 <=? lower (byte_val c)) && (lower (byte_val c) <=? 122)) eqn:E;
    [|reflexivity].
  destruct (10 <=? lower (byte_val c) - 97 + 10) eqn:E1; [reflexivity|lia].
Qed.

Lemma decimalValue_ge s n : allDigits s = true -> 0 <= n -> n <= decimalValue n s.
Proof.
  revert n; induction s as [|c t IH]; intros n Hd Hn; cbn [decimalValue]; [lia|].
  cbn [allDigits] in Hd. apply andb_prop in Hd as [Hc Ht]. unfold isDigitByte in Hc.
  etrans; [|apply IH]; auto; lia.
Qed.

Lemma parseDigits_ok s0 s n :
  allDigits s = true -> 0 <= n -> decimalValue n s <= maxUint64 ->
  parseDigits s0 10 (maxUint64 / 10 + 1) maxUint64 s n = (decimalValue n s, None).
Proof.
  revert n; induction s as [|c t IH]; intros n Hd Hn Hv; [reflexivity|].
  cbn [allDigits] in Hd. apply andb_prop in Hd as [Hc Ht].
  rewrite parseDigits_digit by auto. cbn [decimalValue] in *.
  assert (0 <= byte_val c - 48) by (unfold isDigitByte in Hc; lia).
  pose proof (decimalValue_ge t (n * 10 + (byte_val c - 48)) Ht ltac:(lia)) as Hge.
  revert Hv Hge. change maxUint64 with 18446744073709551615.
  change (18446744073709551615 / 10 + 1) with 1844674407370955162. intros Hv Hge.
  destruct (_ || _) eqn:E; [lia|]. apply IH; auto; lia.
Qed.

Lemma parseDigits_overflow s0 s n :
  allDigits s = true -> 0 <= n <= maxUint64 -> maxUint64 < decimalValue n s ->
  parseDigits s0 10 (maxUint64 / 10 + 1) maxUint64 s n
  = (maxUint64, Some (rangeError "ParseUint" s0)).
Proof.
  revert n; induction s as [|c t IH]; intros n Hd Hn Hv; cbn [decimalValue] in Hv; [lia|].
  cbn [allDigits] in Hd. apply andb_prop in Hd as [Hc Ht].
  rewrite parseDigits_digit by (auto; lia).
  assert (0 <= byte_val c - 48) by (unfold isDigitByte in Hc; lia).
  destruct (_ || _) eqn:E; [reflexivity|]. apply IH; auto. lia.
Qed.

Lemma parseDigits_nondigit s0 s n :
  allDigits s = false -> 0 <= n <= maxUint64 ->
  exists v e, parseDigits s0 10 (maxUint64 / 10 + 1) maxUint64 s n = (v, Some e)
              /\ (Err e = ErrSyntax \/ (Err e = ErrRange /\ v = maxUint64)).
Proof.
  revert n; induction s as [|c t IH]; intros n Hd Hn; [discriminate|].
  cbn [allDigits] in Hd. destruct (isDigitByte c) eqn:Hc.
  - rewrite parseDigits_digit by (auto; lia).
    assert (0 <= byte_val c - 48) by (unfold isDigitByte in Hc; lia).
    destruct (_ || _) eqn:E.
    + eexists _, _. split; [reflexivity|]. cbn. auto.
    + apply IH; auto. lia.
  - rewrite parseDigits_nondigit_head by auto.
    eexists _, _. split; [reflexivity|]. cbn. auto.
Qed.

Lemma ParseUint_10_64 s :
  s <> "" ->
  ParseUint s 10 64 = parseDigits s 10 (maxUint64 / 10 + 1) maxUint64 s 0.
Proof.
  intros Hs. unfold ParseUint. destruct (String.eqb_spec s ""); [done|]. reflexivity.
Qed.


(** [ParseUint] on base 10 and 64 bits, in full. *)
Lemma ParseUint_cases s :
  (exists v e, ParseUint s 10 64 = (v, Some e) /\ unsignedText s = false
               /\ (Err e = ErrSyntax \/ (Err e = ErrRange /\ v = maxUint64)))
  \/ (unsignedText s = true /\ maxUint64 < decimalValue 0 s
      /\ exists e, ParseUint s 10 64 = (maxUint64, Some e) /\ Err e = ErrRange)
  \/ (unsignedText s = true /\ 0 <= decimalValue 0 s <= maxUint64
      /\ ParseUint s 10 64 = (decimalValue 0 s, None)).
Proof.
  unfold unsignedText. destruct (String.eqb_spec s "") as [->|Hs].
  { left. eexists _, _. split; [reflexivity|]. cbn. auto. }
  rewrite ParseUint_10_64 by done. cbn [negb andb].
  assert (0 <= 0 <= maxUint64) by (unfold maxUint64; lia).
  destruct (allDigits s) eqn:Hd.
  - pose proof (decimalValue_ge s 0 Hd ltac:(lia)).
    destruct (Z_lt_le_dec maxUint64 (decimalValue 0 s)).
    + right; left. repeat split; [done|].
      eexists. split; [by apply parseDigits_overflow|reflexivity].
    + right; right. repeat split; [lia|done|]. by apply parseDigits_ok.
  - left. destruct (parseDigits_nondigit s s 0 Hd) as (v & e & E & He); [done|].
    by exists v, e.
Qed.

Lemma ParseInt_unfold c0 t :
  ParseInt (String c0 t) 10 64
  = let '(neg, digits) := signOf (String c0 t) in
    let '(un, err) := ParseUint digits 10 64 in
    let failed :=
      match err with
      | Some e => match Err e with ErrRange => None | other => Some other end
      | None => None
      end in
    match failed with
    | Some other => (0, Some {| Func := "ParseInt"; Num := String c0 t; Err := other |})
    | None =>
      if negb neg && (2 ^ 63 <=? un) then
        (2 ^ 63 - 1, Some (rangeError "ParseInt" (String c0 t)))
      else if neg && (2 ^ 63 <? un) then
        (- 2 ^ 63, Some (rangeError "ParseInt" (String c0 t)))
      else ((if neg then int64 (- int64 un) else int64 un), None)
    end.
Proof. reflexivity. Qed.

Lemma int64_small v : - 2 ^ 63 <= v < 2 ^ 63 -> int64 v = v.
Proof. intros. unfold int64. rewrite Z.mod_small; lia. Qed.

Lemma int64_min : int64 (2 ^ 63) = - 2 ^ 63.
Proof. reflexivity. Qed.

(** [ParseInt] on base 10 and 64 bits: a numeric text that fits is its
    value... *)
Lemma ParseInt_ok s :
  numeric s = true -> fitsInt64 s = true -> ParseInt s 10 64 = (numericValue s, None).
Proof.
  unfold numeric, fitsInt64, numericValue. destruct s as [|c0 t]; [discriminate|].
  rewrite ParseInt_unfold. destruct (signOf (String c0 t)) as [neg digits].
  cbn [snd]. intros Hnum Hfit.
  destruct (ParseUint_cases digits)
    as [(v & e & E & Hu & _)|[(Hu & Hv & e & E & He)|(Hu & Hv & E)]];
    [congruence| |]; rewrite E; [rewrite He|]; cbv zeta.
  - revert Hv. unfold maxUint64. intros Hv. destruct neg; cbn [negb andb] in *; lia.
  - destruct neg; cbn [negb andb].
    + destruct (2 ^ 63 <? decimalValue 0 digits) eqn:E1; [lia|].
      f_equal. destruct (Z.eq_dec (decimalValue 0 digits) (2 ^ 63)) as [->|].
      * reflexivity.
      * rewrite (int64_small (decimalValue 0 digits)) by lia. apply int64_small. lia.
    + destruct (2 ^ 63 <=? decimalValue 0 digits) eqn:E1; [lia|].
      f_equal. apply int64_small. lia.
Qed.

(** ... and any other text is refused with an error that names it. *)
Lemma ParseInt_fail s :
  numeric s && fitsInt64 s = false ->
  exists v e, ParseInt s 10 64 = (v, Some e)
              /\ Func e = "ParseInt" /\ Num e = s
              /\ (Err e = ErrSyntax \/ Err e = ErrRange).
Proof.
  unfold numeric, fitsInt64, numericValue. destruct s as [|c0 t].
  { intros _. eexists _, _. split; [reflexivity|]. cbn. auto. }
  rewrite ParseInt_unfold. destruct (signOf (String c0 t)) as [neg digits].
  cbn [snd]. intros Hbad.
  destruct (ParseUint_cases digits)
    as [(v & e & E & Hu & [He|[He ->]])|[(Hu & Hv & e & E & He)|(Hu & Hv & E)]];
    rewrite E; try rewrite He; cbv zeta.
  - eexists _, _. split; [reflexivity|]. cbn. auto.
  - destruct neg; cbn [negb andb]; (eexists _, _; split; [reflexivity|]; cbn; auto).
  - destruct neg; cbn [negb andb]; (eexists _, _; split; [reflexivity|]; cbn; auto).
  - rewrite Hu in Hbad. cbn [andb] in Hbad.
    destruct neg; cbn [negb andb].
    + destruct (2 ^ 63 <? decimalValue 0 digits) eqn:E1; [|lia].
      eexists _, _; split; [reflexivity|]; cbn; auto.
    + destruct (2 ^ 63 <=? decimalValue 0 digits) eqn:E1; [|lia].
      eexists _, _; split; [reflexivity|]; cbn; auto.
Qed.

End ParseFacts.

(** ** Exporter registrations *)

Section ExporterClaims.
Import tailmon strconv CutFacts ParseFacts.

Lemma allDigits_no_colon s : allDigits s = true -> count ":"%char s = 0%nat.
Proof.
  induction s as [|c t IH]; [reflexivity|]. cbn [allDigits count].
  intros [Hc Ht]%andb_prop. rewrite IH by done.
  destruct (Ascii.eqb_spec c ":"%char) as [->|]; [discriminate Hc|reflexivity].
Qed.

Lemma numeric_no_colon s : numeric s = true -> count ":"%char s = 0%nat.
Proof.
  unfold numeric, unsignedText. destruct s as [|c t]; [reflexivity|].
  cbn [signOf]. destruct (byte_val c =? 43) eqn:E1; [|destruct (byte_val c =? 45) eqn:E2];
    cbn [snd]; intros [_ Hd]%andb_prop.
  - cbn [count]. rewrite allDigits_no_colon by done.
    destruct (Ascii.eqb_spec c ":"%char) as [->|]; [discriminate E1|reflexivity].
  - cbn [count]. rewrite allDigits_no_colon by done.
    destruct (Ascii.eqb_spec c ":"%char) as [->|]; [discriminate E2|reflexivity].
  - by apply allDigits_no_colon.
Qed.

Lemma newExporter_split osHostname name portStr :
  count ":"%char name = 0%nat ->
  newExporter osHostname (name +:+ ":" +:+ portStr)
  = match ParseInt portStr 10 64 with
    | (_, Some err) => ({| name := ""; port := 0; hostname := "" |}, Some (numError err))
    | (port, None) =>
      ({| name := name; port := port; hostname := resolved osHostname |}, None)
    end.
Proof.
  intros Hc. unfold newExporter.
  change (name +:+ ":" +:+ portStr) with (name +:+ String ":"%char portStr).
  change ":" with (String ":"%char "").
  rewrite Cut_first by done. cbn [negb].
  destruct (ParseInt portStr 10 64) as [p [e|]]; reflexivity.
Qed.

Lemma newExporter_no_colon osHostname value :
  count ":"%char value = 0%nat ->
  newExporter osHostname value
  = ({| name := ""; port := 0; hostname := "" |},
     Some (errorString "use name-exporter:port format")).
Proof.
  intros Hc. unfold newExporter. change ":" with (String ":"%char "").
  by rewrite Cut_absent.
Qed.

(** C3, as amended.  The parser succeeds exactly when the text after the
    first [:] of its input is a base-10 integer, with an optional sign, that
    fits a signed 64-bit integer; the input then holds exactly one [:], the
    name is the text before it, which may be empty, and the port is the value
    of the integer, whatever it is.  An input without [:] fails with the
    fixed error [use name-exporter:port format]; an input whose port text is
    not such an integer fails with the [NumError] of [ParseInt], a syntax or
    range error that names the port text. *)
Theorem newExporter_accepts (osHostname : result string) (value : string) :
  (snd (newExporter osHostname value) = None
   <-> exists name portStr,
         value = name +:+ ":" +:+ portStr /\ count ":"%char name = 0%nat
         /\ numeric portStr = true /\ fitsInt64 portStr = true)
  /\ ((count ":"%char value = 0%nat
       /\ newExporter osHostname value
          = ({| name := ""; port := 0; hostname := "" |},
             Some (errorString "use name-exporter:port format")))
      \/ (exists name portStr err,
            value = name +:+ ":" +:+ portStr /\ count ":"%char name = 0%nat
            /\ numeric portStr && fitsInt64 portStr = false
            /\ newExporter osHostname value
               = ({| name := ""; port := 0; hostname := "" |}, Some (numError err))
            /\ Func err = "ParseInt" /\ Num err = portStr
            /\ (Err err = ErrSyntax \/ Err err = ErrRange))
      \/ (exists name portStr,
            value = name +:+ ":" +:+ portStr /\ count ":"%char name = 0%nat
            /\ numeric portStr = true /\ fitsInt64 portStr = true
            /\ count ":"%char value = 1%nat
            /\ newExporter osHostname value
               = ({| name := name; port := numericValue portStr;
                     hostname := resolved osHostname |}, None))).
Proof.
  assert (Hcases :
    (count ":"%char value = 0%nat
       /\ newExporter osHostname value
          = ({| name := ""; port := 0; hostname := "" |},
             Some (errorString "use name-exporter:port format")))
      \/ (exists name portStr err,
            value = name +:+ ":" +:+ portStr /\ count ":"%char name = 0%nat
            /\ numeric portStr && fitsInt64 portStr = false
            /\ newExporter osHostname value
               = ({| name := ""; port := 0; hostname := "" |}, Some (numError err))
            /\ Func err = "ParseInt" /\ Num err = portStr
            /\ (Err err = ErrSyntax \/ Err err = ErrRange))
      \/ (exists name portStr,
            value = name +:+ ":" +:+ portStr /\ count ":"%char name = 0%nat
            /\ numeric portStr = true /\ fitsInt64 portStr = true
            /\ count ":"%char value = 1%nat
            /\ newExporter osHostname value
               = ({| name := name; port := numericValue portStr;
                     hostname := resolved osHostname |}, None))).
  { destruct (Nat.eq_dec (count ":"%char value) 0%nat) as [Hc|Hc].
    { left. split; [done|]. by apply newExporter_no_colon. }
    destruct (count_split _ _ Hc) as (name & portStr & -> & Hname).
    change (name +:+ String ":"%char portStr) with (name +:+ ":" +:+ portStr).
    rewrite newExporter_split by done.
    destruct (numeric portStr && fitsInt64 portStr) eqn:Hnum.
    - right; right. apply andb_prop in Hnum as [Hn Hf].
      exists name, portStr. rewrite ParseInt_ok by done.
      repeat split; try done.
      change (name +:+ ":" +:+ portStr) with (name +:+ String ":"%char portStr).
      rewrite count_app. cbn [count]. rewrite Hname, numeric_no_colon by done.
      reflexivity.
    - right; left. destruct (ParseInt_fail portStr Hnum) as (v & e & E & Hf & Hn & He).
      exists name, portStr, e. rewrite E. by repeat split. }
  split; [|exact Hcases]. split.
  - intros Hok.
    destruct Hcases as [(_ & E)|[(n & p & e & _ & _ & _ & E & _)|(n & p & ? & ? & ? & ? & _)]];
      [by rewrite E in Hok|by rewrite E in Hok|by exists n, p].
  - intros (name & portStr & -> & Hname & Hn & Hf).
    by rewrite newExporter_split, ParseInt_ok.
Qed.

(** C3, as stated, fails: the input [:0] is accepted although its name is
    empty and its port is not in 1-65535, and the error for an input without
    separator is a fixed text that does not name the input. *)
Lemma newExporter_accepts_counterexample :
  (exists e, newExporter (Ok "box") ":0" = (e, None)
             /\ name e = "" /\ ~ (1 <= port e <= 65535))
  /\ snd (newExporter (Ok "box") "node-exporter")
     = Some (errorString "use name-exporter:port format")
  /\ snd (newExporter (Ok "box") "postgres-exporter")
     = Some (errorString "use name-exporter:port format").
Proof.
  split; [|split; reflexivity].
  exists {| name := ""; port := 0; hostname := "box" |}.
  split; [reflexivity|]. split; [reflexivity|]. cbn [port]. lia.
Qed.

(** C7.  On an input [name:port] whose name holds no [:] and whose port is a
    base-10 integer that fits 64 bits (which covers every non-empty name
    before a port in 1-65535), parsing yields a registration whose overlay
    hostname is [tailmon/<name>/<hostname>], the hostname being the
    machine's, or [unknown] when it cannot be resolved.  An input whose port
    is not numeric, and an input without [:], fail. *)
Theorem newExporter_node_name (osHostname : result string) (name portStr : string) :
  count ":"%char name = 0%nat ->
  (numeric portStr = true -> fitsInt64 portStr = true ->
   exists e, newExporter osHostname (name +:+ ":" +:+ portStr) = (e, None)
             /\ TailscaleNodeName e
                = "tailmon/" +:+ name +:+ "/" +:+ resolved osHostname)
  /\ (numeric portStr = false ->
      snd (newExporter osHostname (name +:+ ":" +:+ portStr)) <> None)
  /\ snd (newExporter osHostname name) <> None.
Proof.
  intros Hname. split; [|split].
  - intros Hn Hf. rewrite newExporter_split, ParseInt_ok by done.
    eexists. split; reflexivity.
  - intros Hn. rewrite newExporter_split by done.
    destruct (ParseInt_fail portStr) as (v & e & E & _); [by rewrite Hn|].
    by rewrite E.
  - by rewrite newExporter_no_colon.
Qed.

End ExporterClaims.

Section ExporterWitness.
Import tailmon.

Lemma newExporter_node_name_witness :
  (exists e, newExporter (Ok "box") "node-exporter:9100" = (e, None)
             /\ TailscaleNodeName e = "tailmon/node-exporter/box")
  /\ (exists e, newExporter (Fail (errorString "no hostname")) "node-exporter:9100"
                = (e, None)
                /\ TailscaleNodeName e = "tailmon/node-exporter/unknown").
Proof.
  split.
  - exact (proj1 (newExporter_node_name (Ok "box") "node-exporter" "9100" eq_refl)
                 eq_refl eq_refl).
  - exact (proj1 (newExporter_node_name (Fail (errorString "no hostname"))
                                        "node-exporter" "9100" eq_refl)
                 eq_refl eq_refl).
Defined.

End ExporterWitness.

(** ** Stable sorting *)

Module SortFacts.
Import sort.

Section Insertion.
Context {A : Type} (less : A -> A -> bool).

(** [less] is a strict weak ordering when it is asymmetric and its
    complement is transitive. *)
Hypothesis less_asym : forall x y, less x y = true -> less y x = false.
Hypothesis notless_trans :
  forall x y z, less x y = false -> less y z = false -> less x z = false.

Lemma insertLast_perm x l : Permutation (insertLast less x l) (x :: l).
Proof.
  induction l as [|y ys IH]; cbn [insertLast]; [reflexivity|].
  destruct (less x y); [|reflexivity].
  rewrite IH. apply perm_swap.
Qed.

(** The prefix, read right to left, never has an element less than one on
    its left. *)
Lemma insertLast_descending x l :
  StronglySorted (fun later earlier => less later earlier = false) l ->
  StronglySorted (fun later earlier => less later earlier = false) (insertLast less x l).
Proof.
  induction 1 as [|y ys Hys IH Hy]; cbn [insertLast].
  - repeat constructor.
  - destruct (less x y) eqn:E.
    + constructor; [exact IH|].
      apply (Permutation_Forall (Permutation_sym (insertLast_perm x ys))).
      constructor; [by apply less_asym | exact Hy].
    + constructor; [by constructor|].
      constructor; [exact E|].
      eapply List.Forall_impl; [|exact Hy]. intros z Hz. cbn beta in Hz.
      by apply (notless_trans x y z).
Qed.

Lemma fold_insertLast_perm l acc :
  Permutation (fold_left (fun acc x => insertLast less x acc) l acc) (rev l ++ acc).
Proof.
  revert acc; induction l as [|x l IH]; intros acc; cbn [fold_left rev]; [reflexivity|].
  rewrite IH, insertLast_perm, <- app_assoc. reflexivity.
Qed.

Lemma fold_insertLast_descending l acc :
  StronglySorted (fun later earlier => less later earlier = false) acc ->
  StronglySorted (fun later earlier => less later earlier = false)
                 (fold_left (fun acc x => insertLast less x acc) l acc).
Proof.
  revert acc; induction l as [|x l IH]; intros acc Hacc; cbn [fold_left]; [exact Hacc|].
  by apply IH, insertLast_descending.
Qed.

Lemma StronglySorted_rev (R : A -> A -> Prop) l :
  StronglySorted R l -> StronglySorted (fun x y => R y x) (rev l).
Proof.
  induction 1 as [|x l Hl IH Hx]; cbn [rev]; [constructor|].
  apply StronglySorted_app_2; [|exact IH|repeat constructor].
  intros x1 x2 Hx1%list_elem_of_In%List.in_rev Hx2%list_elem_of_In.
  destruct Hx2 as [<-|[]]. rewrite List.Forall_forall in Hx. by apply Hx.
Qed.

(** The result is a rearrangement of the input... *)
Lemma insertionSort_perm l : Permutation (insertionSort less l) l.
Proof.
  unfold insertionSort. rewrite <- Permutation_rev, fold_insertLast_perm, app_nil_r.
  symmetry. apply Permutation_rev.
Qed.

(** ... in which no element is less than one before it... *)
Lemma insertionSort_sorted l :
  StronglySorted (fun earlier later => less later earlier = false) (insertionSort less l).
Proof.
  unfold insertionSort.
  apply (StronglySorted_rev (fun later earlier => less later earlier = false)).
  apply fold_insertLast_descending. constructor.
Qed.

(** ... and which keeps the order of the elements of any class [f] no two
    members of which are ordered by [less]. *)
Section Stability.
Variable f : A -> bool.
Hypothesis f_unordered : forall x y, f x = true -> f y = true -> less x y = false.

Lemma insertLast_filter x acc :
  List.filter f (rev (insertLast less x acc)) = List.filter f (rev acc ++ [x]).
Proof.
  induction acc as [|y ys IH]; cbn [insertLast]; [reflexivity|].
  destruct (less x y) eqn:E; [|reflexivity].
  cbn [rev]. rewrite !List.filter_app, IH, List.filter_app, <- !app_assoc. f_equal.
  cbn [List.filter].
  destruct (f x) eqn:Fx, (f y) eqn:Fy; try reflexivity.
  by rewrite f_unordered in E.
Qed.

Lemma fold_insertLast_filter l acc :
  List.filter f (rev (fold_left (fun acc x => insertLast less x acc) l acc))
  = List.filter f (rev acc ++ l).
Proof.
  revert acc; induction l as [|x l IH]; intros acc; cbn [fold_left].
  - by rewrite app_nil_r.
  - rewrite IH, !List.filter_app, insertLast_filter, List.filter_app, <- app_assoc.
    f_equal. cbn [List.filter app]. by destruct (f x).
Qed.

Lemma insertionSort_stable l :
  List.filter f (insertionSort less l) = List.filter f l.
Proof. unfold insertionSort. by rewrite fold_insertLast_filter. Qed.
End Stability.

End Insertion.
End SortFacts.

(** ** The ordering of addresses *)

Module AddrOrder.
Import netip.

Lemma ltb_irrefl s : String.ltb s s = false.
Proof.
  unfold String.ltb. pose proof (String.compare_antisym s s).
  destruct (String.compare s s); done.
Qed.

Lemma ltb_asym s t : String.ltb s t = true -> String.ltb t s = false.
Proof.
  unfold String.ltb. rewrite (String.compare_antisym t s).
  by destruct (String.compare s t).
Qed.

Lemma ltb_leb s t : String.ltb s t = negb (String.leb t s).
Proof.
  unfold String.ltb, String.leb. rewrite (String.compare_antisym t s).
  by destruct (String.compare s t).
Qed.

Lemma notltb_trans s t u :
  String.ltb s t = false -> String.ltb t u = false -> String.ltb s u = false.
Proof.
  rewrite !ltb_leb, !negb_false_iff. intros H1 H2.
  apply Is_true_true. apply Is_true_true in H1, H2.
  exact (transitivity (R := String.le) H2 H1).
Qed.

Lemma BitLen_Is6 a b : BitLen a = BitLen b -> Is6 a = Is6 b.
Proof. unfold BitLen, Is6. destruct (z a), (z b); intros; lia || reflexivity. Qed.

(** [Less] is the lexicographic order on the bit length, the value and, for
    IPv6, the zone. *)
Lemma Less_spec a b :
  Less a b = true <->
  (BitLen a < BitLen b
   \/ BitLen a = BitLen b
      /\ (hi a < hi b
          \/ hi a = hi b
             /\ (lo a < lo b
                 \/ lo a = lo b /\ Is6 a = true
                    /\ String.ltb (Zone a) (Zone b) = true))).
Proof.
  unfold Less, Compare.
  destruct (BitLen a <? BitLen b) eqn:E1; [split; [lia|reflexivity]|].
  destruct (BitLen b <? BitLen a) eqn:E2; [split; [discriminate|lia]|].
  destruct (hi a <? hi b) eqn:E3; [split; [lia|reflexivity]|].
  destruct (hi b <? hi a) eqn:E4; [split; [discriminate|lia]|].
  destruct (lo a <? lo b) eqn:E5; [split; [lia|reflexivity]|].
  destruct (lo b <? lo a) eqn:E6; [split; [discriminate|lia]|].
  destruct (Is6 a); [|split; [discriminate|intuition (lia || discriminate)]].
  destruct (String.ltb (Zone a) (Zone b)) eqn:E7.
  - split; [intros _|reflexivity]. right. split; [lia|]. right. split; [lia|].
    right. auto with lia.
  - split.
    + destruct (String.ltb (Zone b) (Zone a)); discriminate.
    + intuition (lia || discriminate).
Qed.

Lemma Less_asym a b : Less a b = true -> Less b a = false.
Proof.
  intros Hab. destruct (Less b a) eqn:Hba; [|reflexivity].
  apply Less_spec in Hab, Hba.
  destruct Hab as [?|[? [?|[? [?|(? & ? & Hz)]]]]];
    destruct Hba as [?|[? [?|[? [?|(? & ? & Hz')]]]]]; try lia.
  apply ltb_asym in Hz. congruence.
Qed.

Lemma notLess_trans a b c :
  Less a b = false -> Less b c = false -> Less a c = false.
Proof.
  intros Hab Hbc. destruct (Less a c) eqn:Hac; [|reflexivity].
  apply Less_spec in Hac.
  assert (Hab' : ~ Less a b = true) by congruence.
  assert (Hbc' : ~ Less b c = true) by congruence.
  rewrite Less_spec in Hab', Hbc'.
  destruct (Z.lt_trichotomy (BitLen a) (BitLen b)) as [?|[Eab|?]]; [tauto| |lia || tauto].
  all: destruct (Z.lt_trichotomy (BitLen b) (BitLen c)) as [?|[Ebc|?]]; try tauto; try lia.
  all: destruct (Z.lt_trichotomy (hi a) (hi b)) as [?|[?|?]]; try tauto; try lia.
  all: destruct (Z.lt_trichotomy (hi b) (hi c)) as [?|[?|?]]; try tauto; try lia.
  all: destruct (Z.lt_trichotomy (lo a) (lo b)) as [?|[?|?]]; try tauto; try lia.
  all: destruct (Z.lt_trichotomy (lo b) (lo c)) as [?|[?|?]]; try tauto; try lia.
  destruct Hac as [?|[_ [?|[_ [?|(_ & Ha & Hz)]]]]]; try lia.
  assert (Is6 b = true) by (rewrite <- (BitLen_Is6 a b); auto).
  destruct (String.ltb (Zone a) (Zone b)) eqn:Z1; [tauto|].
  destruct (String.ltb (Zone b) (Zone c)) eqn:Z2; [tauto|].
  rewrite (notltb_trans _ _ _ Z1 Z2) in Hz. discriminate.
Qed.

(** Addresses that compare equal to the same address are not ordered. *)
Lemma Compare_zero_spec a b :
  Compare a b = 0 <->
  BitLen a = BitLen b /\ hi a = hi b /\ lo a = lo b
  /\ (Is6 a = true -> String.ltb (Zone a) (Zone b) = false
                      /\ String.ltb (Zone b) (Zone a) = false).
Proof.
  unfold Compare.
  destruct (BitLen a <? BitLen b) eqn:E1; [split; [discriminate|lia]|].
  destruct (BitLen b <? BitLen a) eqn:E2; [split; [discriminate|lia]|].
  destruct (hi a <? hi b) eqn:E3; [split; [discriminate|lia]|].
  destruct (hi b <? hi a) eqn:E4; [split; [discriminate|lia]|].
  destruct (lo a <? lo b) eqn:E5; [split; [discriminate|lia]|].
  destruct (lo b <? lo a) eqn:E6; [split; [discriminate|lia]|].
  destruct (Is6 a); [|split; [intros _; repeat split; (lia || discriminate)|reflexivity]].
  destruct (String.ltb (Zone a) (Zone b)) eqn:E7;
    [split; [discriminate|intros (_ & _ & _ & H); destruct H; auto; discriminate]|].
  destruct (String.ltb (Zone b) (Zone a)) eqn:E8;
    [split; [discriminate|intros (_ & _ & _ & H); destruct H; auto; discriminate]|].
  split; [intros _; repeat split; lia || auto|reflexivity].
Qed.

Lemma Compare_zero_unordered x y a :
  Compare x a = 0 -> Compare y a = 0 -> Less x y = false.
Proof.
  intros (Hb & Hh & Hl & Hz)%Compare_zero_spec (Hb' & Hh' & Hl' & Hz')%Compare_zero_spec.
  destruct (Less x y) eqn:E; [|reflexivity].
  apply Less_spec in E. destruct E as [?|[_ [?|[_ [?|(_ & Hx & Hlt)]]]]]; try lia.
  assert (Hy : Is6 y = true) by (rewrite <- (BitLen_Is6 x y); auto; lia).
  destruct (Hz Hx) as [Z1 Z2]. destruct (Hz' Hy) as [Z3 Z4].
  rewrite (notltb_trans _ _ _ Z1 Z4) in Hlt. discriminate.
Qed.

End AddrOrder.

(** ** Enumeration *)

Module DiscoverFacts.
Import discover strings CutFacts SortFacts AddrOrder Utf8Facts RangeFacts.

Lemma collect_from peers acc :
  elems (fold_left
           (fun endpoints v =>
              match peerEndpoint v with
              | None => endpoints
              | Some endpoint => append endpoints endpoint
              end) peers acc)
  = elems acc ++ encountered peers.
Proof.
  revert acc; induction peers as [|v peers IH]; intros acc; cbn [fold_left encountered flat_map].
  - by rewrite app_nil_r.
  - rewrite IH. fold (encountered peers). destruct (peerEndpoint v) as [e|]; [|reflexivity].
    destruct acc as [l|]; cbn [append elems app]; [|reflexivity].
    by rewrite <- app_assoc.
Qed.

Lemma collect_elems peers : elems (collect peers) = encountered peers.
Proof. apply collect_from. Qed.

Lemma collect_nil_from peers acc :
  fold_left
    (fun endpoints v =>
       match peerEndpoint v with
       | None => endpoints
       | Some endpoint => append endpoints endpoint
       end) peers acc = None
  <-> acc = None /\ encountered peers = [].
Proof.
  revert acc; induction peers as [|v peers IH]; intros acc; cbn [fold_left encountered flat_map].
  - intuition.
  - rewrite IH. fold (encountered peers). destruct (peerEndpoint v) as [e|].
    + destruct acc; cbn [append]; intuition discriminate.
    + cbn [app]. reflexivity.
Qed.

(** The slice stays nil exactly when no peer yields an endpoint. *)
Lemma collect_nil peers : collect peers = None <-> encountered peers = [].
Proof. unfold collect. rewrite collect_nil_from. intuition. Qed.

Lemma peerEndpoint_qualifies v : is_Some (peerEndpoint v) <-> qualifies v = true.
Proof.
  unfold peerEndpoint, qualifies.
  destruct (HasPrefix (PeerStatus.HostName v) "tailmon/"); cbn [negb andb].
  - destruct (PeerStatus.TailscaleIPs v) as [|a rest].
    + split; [intros [? ?]; discriminate|discriminate].
    + destruct (Cut _ _) as [[exporter node] ok]. destruct (negb ok); split; eauto.
  - split; [intros [? ?]; discriminate|discriminate].
Qed.

Lemma encountered_filter peers :
  exists l, encountered peers = l
            /\ Forall2 (fun v e => peerEndpoint v = Some e) (List.filter qualifies peers) l.
Proof.
  eexists. split; [reflexivity|].
  induction peers as [|v peers IH]; cbn [encountered flat_map List.filter]; [constructor|].
  fold (encountered peers).
  pose proof (peerEndpoint_qualifies v) as Hq.
  destruct (peerEndpoint v) as [e|] eqn:E.
  - assert (Hqv : qualifies v = true) by (apply Hq; eauto).
    rewrite Hqv. cbn [app]. constructor; [exact E|exact IH].
  - destruct (qualifies v); [|exact IH].
    destruct (proj2 Hq eq_refl) as [? ?]. discriminate.
Qed.

Lemma HasPrefix_app p s : HasPrefix (p +:+ s) p = true.
Proof.
  unfold HasPrefix. rewrite take_app, String.eqb_refl, andb_true_r.
  unfold len. clear. induction p as [|c p IH]; cbn [String.length].
  - lia.
  - change (String c p +:+ s) with (String c (p +:+ s)). cbn [String.length]. lia.
Qed.

Lemma TrimPrefix_app p s : TrimPrefix (p +:+ s) p = s.
Proof. unfold TrimPrefix. by rewrite HasPrefix_app, drop_app. Qed.

Lemma formatAddr_80 a : formatAddr a 80 = targetOf a.
Proof. reflexivity. Qed.

Lemma peerEndpoint_describes v e : peerEndpoint v = Some e -> describes v e.
Proof.
  unfold peerEndpoint, describes.
  destruct (HasPrefix (PeerStatus.HostName v) "tailmon/") eqn:Hp; cbn [negb]; [|discriminate].
  destruct (PeerStatus.TailscaleIPs v) as [|a rest]; [discriminate|].
  destruct (Cut _ _) as [[exporter node] ok] eqn:Hcut.
  set (labels := if negb ok then _ else _).
  destruct labels as [exporter' node'] eqn:Hl.
  intros [= <-]. cbn [ip Targets Labels head].
  split; [reflexivity|]. split; [by rewrite formatAddr_80|].
  split; [|split].
  - rewrite !dom_insert_L, dom_singleton_L. set_solver.
  - by simplify_map_eq.
  - intros ex nd Hhost Hex. rewrite Hhost, TrimPrefix_app in Hcut.
    change (ex +:+ "/" +:+ nd) with (ex +:+ String "/"%char nd) in Hcut.
    change "/" with (String "/"%char "") in Hcut.
    rewrite Cut_first in Hcut by done. injection Hcut as <- <- <-.
    subst labels. injection Hl as <- <-. by simplify_map_eq.
Qed.

(** The endpoints met are those of the peers kept, one for each. *)
Lemma encountered_described peers :
  Forall2 describes (List.filter qualifies peers) (encountered peers).
Proof.
  destruct (encountered_filter peers) as (l & -> & Hall).
  eapply Forall2_impl; [exact Hall|]. intros v e. apply peerEndpoint_describes.
Qed.

End DiscoverFacts.

(** ** The target enumerator *)

Section DiscoverClaims.
Import discover strings CutFacts SortFacts AddrOrder DiscoverFacts.

Lemma findTailmonEndpoints_ok tailnet lc status :
  tsnet.LocalClient tailnet = Ok lc -> tsnet.Status lc = Ok status ->
  findTailmonEndpoints tailnet
  = Ok (sort.SliceStable (fun a b => netip.Less (ip a) (ip b))
                         (collect (Status.Peer status))).
Proof. intros Hlc Hst. unfold findTailmonEndpoints. by rewrite Hlc, Hst. Qed.

Lemma SliceStable_elems {A} (less : A -> A -> bool) s :
  elems (sort.SliceStable less s) = sort.insertionSort less (elems s).
Proof. by destruct s. Qed.

(** C5.  When the overlay provider answers, the enumerator returns one
    endpoint for each peer whose hostname starts with [tailmon/] and that has
    an address, and no other: the endpoints are, up to their order, those of
    the peers kept.  The endpoint of a peer has the peer's first address as
    its sort key and, as its only target, that address with port 80, in
    brackets unless it is IPv4; its labels are the exporter name, the node
    name and the overlay DNS name, the last being the peer's. *)
Theorem findTailmonEndpoints_peers tailnet lc status :
  tsnet.LocalClient tailnet = Ok lc -> tsnet.Status lc = Ok status ->
  exists endpoints l,
    findTailmonEndpoints tailnet = Ok endpoints
    /\ Permutation (elems endpoints) l
    /\ Forall2 describes (List.filter qualifies (Status.Peer status)) l.
Proof.
  intros Hlc Hst. rewrite (findTailmonEndpoints_ok _ _ _ Hlc Hst).
  eexists _, (encountered (Status.Peer status)). split; [reflexivity|]. split.
  - rewrite SliceStable_elems, collect_elems. apply insertionSort_perm.
  - apply encountered_described.
Qed.

(** C6.  When the overlay provider answers, the endpoints returned are those
    met in the peer list, in ascending order of their addresses under
    [Addr.Less]: no endpoint has an address less than that of an endpoint
    before it.  The sort is stable: the endpoints whose addresses compare
    equal to a given address stand in the order in which they were met. *)
Theorem findTailmonEndpoints_sorted tailnet lc status :
  tsnet.LocalClient tailnet = Ok lc -> tsnet.Status lc = Ok status ->
  exists endpoints,
    findTailmonEndpoints tailnet = Ok endpoints
    /\ Permutation (elems endpoints) (encountered (Status.Peer status))
    /\ StronglySorted (fun earlier later => netip.Less (ip later) (ip earlier) = false)
                      (elems endpoints)
    /\ forall a,
         List.filter (fun e => netip.Compare (ip e) a =? 0) (elems endpoints)
         = List.filter (fun e => netip.Compare (ip e) a =? 0)
                       (encountered (Status.Peer status)).
Proof.
  intros Hlc Hst. rewrite (findTailmonEndpoints_ok _ _ _ Hlc Hst).
  eexists. split; [reflexivity|]. rewrite SliceStable_elems, collect_elems.
  split; [|split].
  - apply insertionSort_perm.
  - apply (insertionSort_sorted (fun a b => netip.Less (ip a) (ip b))).
    + intros x y. apply Less_asym.
    + intros x y z. apply notLess_trans.
  - intros a. apply insertionSort_stable.
    intros x y Hx%Z.eqb_eq Hy%Z.eqb_eq. by apply (Compare_zero_unordered _ _ a).
Qed.

(** C1, as amended.  A peer whose hostname starts with [tailmon/], holds no
    further [/] and that has an address yields an endpoint whose node name is
    [unknown] and whose exporter name is the hostname as a whole, the prefix
    included. *)
Theorem findTailmonEndpoints_no_node tailnet lc status v :
  tsnet.LocalClient tailnet = Ok lc -> tsnet.Status lc = Ok status ->
  In v (Status.Peer status) ->
  HasPrefix (PeerStatus.HostName v) "tailmon/" = true ->
  count "/"%char (TrimPrefix (PeerStatus.HostName v) "tailmon/") = 0%nat ->
  PeerStatus.TailscaleIPs v <> [] ->
  exists endpoints e,
    findTailmonEndpoints tailnet = Ok endpoints
    /\ In e (elems endpoints)
    /\ head (PeerStatus.TailscaleIPs v) = Some (ip e)
    /\ Labels e !! "__meta_tailmon_node_name" = Some "unknown"
    /\ Labels e !! "__meta_tailmon_exporter_name" = Some (PeerStatus.HostName v)
    /\ Labels e !! "__meta_tailscale_dns_name" = Some (PeerStatus.DNSName v).
Proof.
  intros Hlc Hst Hin Hp Hslash Hips. rewrite (findTailmonEndpoints_ok _ _ _ Hlc Hst).
  assert (exists e, peerEndpoint v = Some e
                    /\ head (PeerStatus.TailscaleIPs v) = Some (ip e)
                    /\ Labels e !! "__meta_tailmon_node_name" = Some "unknown"
                    /\ Labels e !! "__meta_tailmon_exporter_name"
                       = Some (PeerStatus.HostName v)
                    /\ Labels e !! "__meta_tailscale_dns_name"
                       = Some (PeerStatus.DNSName v)) as (e & He & Hdesc).
  { unfold peerEndpoint. rewrite Hp. cbn [negb].
    destruct (PeerStatus.TailscaleIPs v) as [|a rest]; [done|].
    change "/" with (String "/"%char ""). rewrite Cut_absent by done. cbn [negb].
    eexists. split; [reflexivity|]. cbn [ip Labels head]. by simplify_map_eq. }
  eexists _, e. split; [reflexivity|]. split; [|exact Hdesc].
  rewrite SliceStable_elems, collect_elems.
  apply (Permutation_in _ (Permutation_sym (insertionSort_perm _ _))).
  unfold encountered. apply in_flat_map. exists v. split; [exact Hin|].
  rewrite He. by left.
Qed.

End DiscoverClaims.


Section DiscoverDocument.
Import discover strings CutFacts SortFacts AddrOrder DiscoverFacts.

Lemma encountered_nil peers : encountered peers = [] <-> List.filter qualifies peers = [].
Proof.
  destruct (encountered_filter peers) as (l & -> & Hall).
  split; intros E; [subst l|rewrite E in Hall]; by inversion Hall.
Qed.

(** The document is [null] when no peer qualifies, and otherwise an array of
    objects of the shape above, one per endpoint. *)
Lemma marshalEndpoints_shape tailnet lc status :
  tsnet.LocalClient tailnet = Ok lc -> tsnet.Status lc = Ok status ->
  (List.filter qualifies (Status.Peer status) = []
   /\ marshalEndpoints tailnet = Ok json.Null)
  \/ (List.filter qualifies (Status.Peer status) <> []
      /\ exists items, marshalEndpoints tailnet = Ok (json.Array items)
                       /\ Forall isEndpointObject items
                       /\ length items
                          = length (List.filter qualifies (Status.Peer status))).
Proof.
  intros Hlc Hst. unfold marshalEndpoints.
  rewrite (findTailmonEndpoints_ok _ _ _ Hlc Hst).
  pose proof (encountered_described (Status.Peer status)) as Hall.
  pose proof (collect_elems (Status.Peer status)) as Hel.
  destruct (collect (Status.Peer status)) as [unsorted|] eqn:Hc.
  - right. cbn [sort.SliceStable elems marshalSlice] in *.
    assert (Hne : encountered (Status.Peer status) <> []).
    { intros Hnil%collect_nil. congruence. }
    split; [by rewrite <- encountered_nil|].
    pose proof (insertionSort_perm (fun a b => netip.Less (ip a) (ip b)) unsorted) as Hperm.
    eexists. split; [reflexivity|]. split.
    + apply List.Forall_map.
      eapply (Permutation_Forall (Permutation_sym Hperm)). rewrite Hel.
      clear -Hall. induction Hall as [|v e vs es Hve _ IH]; constructor; [|exact IH].
      destruct Hve as (_ & Ht & _). unfold marshalEndpoint, isEndpointObject.
      rewrite Ht. eexists _, _. reflexivity.
    + rewrite length_map, (Permutation_length Hperm), Hel. symmetry.
      eapply Forall2_length, Hall.
  - left. apply collect_nil, encountered_nil in Hc. by split.
Qed.

(** C4 fails on the code: with no peer at all, or with none that qualifies,
    the document is [null], not the empty array. *)
Theorem marshalEndpoints_no_peers :
  marshalEndpoints (overlayOf []) = Ok json.Null
  /\ marshalEndpoints (overlayOf [otherService]) = Ok json.Null
  /\ marshalEndpoints (overlayOf []) <> Ok (json.Array []).
Proof. repeat split. discriminate. Qed.

End DiscoverDocument.

Section DiscoverWitnesses.
Import discover.

(** The example of the specification: of the peers [host2], [other-service]
    and [host1], the unprefixed one is left out and the two others come in
    ascending order of their addresses. *)
Example findTailmonEndpoints_example :
  exists e1 e2,
    findTailmonEndpoints (overlayOf [host2; otherService; host1]) = Ok (Some [e1; e2])
    /\ Targets e1 = Some ["100.64.0.1:80"]
    /\ Labels e1 !! "__meta_tailmon_exporter_name" = Some "node-exporter"
    /\ Labels e1 !! "__meta_tailmon_node_name" = Some "host1"
    /\ Targets e2 = Some ["100.64.0.2:80"]
    /\ Labels e2 !! "__meta_tailmon_exporter_name" = Some "postgres-exporter"
    /\ Labels e2 !! "__meta_tailmon_node_name" = Some "host2".
Proof. eexists _, _. split; [reflexivity|]. repeat split. Qed.

(** An IPv6 address is put in brackets. *)
Example formatAddr_example :
  formatAddr (netip.AddrFrom4 100 64 0 1) 80 = "100.64.0.1:80"
  /\ formatAddr {| netip.hi := 0xfd7a115ccafe0000; netip.lo := 7; netip.z := netip.z6noz |} 80
     = "[fd7a:115c:cafe::7]:80".
Proof. split; reflexivity. Qed.

Lemma findTailmonEndpoints_peers_witness :
  exists endpoints l,
    findTailmonEndpoints (overlayOf [custom; host2; otherService; host1]) = Ok endpoints
    /\ Permutation (elems endpoints) l
    /\ Forall2 describes [custom; host2; host1] l.
Proof.
  exact (findTailmonEndpoints_peers
           (overlayOf [custom; host2; otherService; host1])
           (clientOf [custom; host2; otherService; host1])
           (statusOf [custom; host2; otherService; host1]) eq_refl eq_refl).
Defined.

Lemma findTailmonEndpoints_sorted_witness :
  exists endpoints,
    findTailmonEndpoints (overlayOf [custom; host2; otherService; host1]) = Ok endpoints
    /\ Permutation (elems endpoints) (encountered [custom; host2; otherService; host1])
    /\ StronglySorted (fun earlier later => netip.Less (ip later) (ip earlier) = false)
                      (elems endpoints)
    /\ forall a,
         List.filter (fun e => netip.Compare (ip e) a =? 0) (elems endpoints)
         = List.filter (fun e => netip.Compare (ip e) a =? 0)
                       (encountered [custom; host2; otherService; host1]).
Proof.
  exact (findTailmonEndpoints_sorted
           (overlayOf [custom; host2; otherService; host1])
           (clientOf [custom; host2; otherService; host1])
           (statusOf [custom; host2; otherService; host1]) eq_refl eq_refl).
Defined.

Lemma findTailmonEndpoints_no_node_witness :
  exists endpoints e,
    findTailmonEndpoints (overlayOf [custom; host2; otherService; host1]) = Ok endpoints
    /\ In e (elems endpoints)
    /\ head (PeerStatus.TailscaleIPs custom) = Some (ip e)
    /\ Labels e !! "__meta_tailmon_node_name" = Some "unknown"
    /\ Labels e !! "__meta_tailmon_exporter_name" = Some "tailmon/custom-exporter"
    /\ Labels e !! "__meta_tailscale_dns_name"
       = Some "tailmon-custom-exporter.ts.example.com.".
Proof.
  apply (findTailmonEndpoints_no_node
           (overlayOf [custom; host2; otherService; host1])
           (clientOf [custom; host2; otherService; host1])
           (statusOf [custom; host2; otherService; host1]) custom eq_refl eq_refl).
  - left. reflexivity.
  - reflexivity.
  - reflexivity.
  - discriminate.
Defined.

(** C1, as stated, fails: for the peer [tailmon/custom-exporter] the only
    endpoint returned has the exporter name [tailmon/custom-exporter], not
    [custom-exporter]. *)
Lemma findTailmonEndpoints_no_node_counterexample :
  exists endpoints e,
    findTailmonEndpoints (overlayOf [custom]) = Ok endpoints
    /\ elems endpoints = [e]
    /\ Labels e !! "__meta_tailmon_node_name" = Some "unknown"
    /\ Labels e !! "__meta_tailmon_exporter_name" = Some "tailmon/custom-exporter"
    /\ Labels e !! "__meta_tailmon_exporter_name" <> Some "custom-exporter".
Proof.
  eexists _, _. split; [reflexivity|]. split; [reflexivity|].
  repeat split. discriminate.
Qed.

End DiscoverWitnesses.

(** * Further properties of the code *)

(** ** Strings cut at an ASCII byte *)

Module AsciiFacts.
Import utf8 GoRange Utf8Facts RangeFacts MapFacts strings.

Lemma idx_app_l a t i : (i < String.length a)%nat -> idx (a +:+ t) i = idx a i.
Proof.
  revert i; induction a as [|c a IH]; intros i Hi; cbn [String.length] in Hi; [lia|].
  change (String c a +:+ t) with (String c (a +:+ t)).
  destruct i as [|i]; [reflexivity|]. unfold idx in *. cbn [String.get].
  apply IH. lia.
Qed.

Lemma idx_app_r a c t : idx (a +:+ String c t) (String.length a) = byte_val c.
Proof. induction a as [|c' a IH]; [reflexivity|exact IH]. Qed.

(** A sequence that the end of the string cuts short decodes as it does
    when an ASCII byte follows it: in both cases its first byte is in
    error. *)
Lemma decodeBytes_cut n n' b0 b1 b2 b3 b1' b2' b3' :
  1 <= n <= n' -> 0 <= b0 ->
  (1 < n -> b1' = b1) -> (2 < n -> b2' = b2) -> (3 < n -> b3' = b3) ->
  (n = 1 -> b1' < 0x80) -> (n = 2 -> b2' < 0x80) -> (n = 3 -> b3' < 0x80) ->
  decodeBytes n' b0 b1' b2' b3' = decodeBytes n b0 b1 b2 b3.
Proof.
  intros Hn Hb0 H1 H2 H3 C1 C2 C3. unfold decodeBytes.
  destruct (n <? 1) eqn:E0; [lia|]. destruct (n' <? 1) eqn:E0'; [lia|].
  assert (n = 1 \/ n = 2 \/ n = 3 \/ 4 <= n) as [->|[->|[->|Hn4]]] by lia.
  - specialize (C1 eq_refl). clear H1 H2 H3 C2 C3.
    first_class b0; split_ifs; reflexivity.
  - specialize (C2 eq_refl). rewrite H1 by lia. clear H1 H2 H3 C1 C3.
    first_class b0; split_ifs; reflexivity.
  - specialize (C3 eq_refl). rewrite H1, H2 by lia. clear H1 H2 H3 C1 C2.
    first_class b0; split_ifs; reflexivity.
  - rewrite H1, H2, H3 by lia. clear H1 H2 H3 C1 C2 C3.
    first_class b0; split_ifs; reflexivity.
Qed.

Lemma len_app s t : len (s +:+ t) = len s + len t.
Proof.
  unfold len. rewrite <- Nat2Z.inj_add. f_equal.
  induction s as [|x s IH]; [reflexivity|].
  change (String x s +:+ t) with (String x (s +:+ t)). cbn [String.length]. by rewrite IH.
Qed.

Lemma DecodeRune_app_ascii c0 a c b :
  byte_val c < 0x80 ->
  DecodeRuneInString (String c0 a +:+ String c b) = DecodeRuneInString (String c0 a).
Proof.
  intros Hc. rewrite !DecodeRuneInString_bytes.
  set (s := String c0 a). set (t := String c b).
  pose proof (len_app s t) as Hlen. pose proof (len_nonneg t).
  assert (1 <= len s) by (unfold s; rewrite len_cons; pose proof (len_nonneg a); lia).
  assert (Hk : forall k, (k < String.length s)%nat -> idx (s +:+ t) k = idx s k)
    by (intros; by apply idx_app_l).
  assert (Hr : idx (s +:+ t) (String.length s) = byte_val c) by apply idx_app_r.
  apply decodeBytes_cut.
  - lia.
  - unfold s. cbn [idx String.get]. pose proof (byte_val_range c0). lia.
  - intros. apply Hk. unfold len in *. lia.
  - intros. apply Hk. unfold len in *. lia.
  - intros. apply Hk. unfold len in *. lia.
  - intros E. replace 1%nat with (String.length s) by (unfold len in E; lia). by rewrite Hr.
  - intros E. replace 2%nat with (String.length s) by (unfold len in E; lia). by rewrite Hr.
  - intros E. replace 3%nat with (String.length s) by (unfold len in E; lia). by rewrite Hr.
Qed.

Lemma drop_app_le n a t :
  (n <= String.length a)%nat -> drop n (a +:+ t) = drop n a +:+ t.
Proof.
  revert a; induction n as [|n IH]; intros a Hn; [reflexivity|].
  destruct a as [|c a]; cbn [String.length] in Hn; [lia|].
  change (String c a +:+ t) with (String c (a +:+ t)). cbn [drop]. apply IH. lia.
Qed.

(** An ASCII byte ends whatever sequence is open before it: the runes of
    a string are those before the byte followed by those from it on. *)
Lemma runes_app_ascii a c b :
  byte_val c < 0x80 -> runes (a +:+ String c b) = runes a ++ runes (String c b).
Proof.
  intros Hc. remember (String.length a) as n eqn:Hn.
  revert a Hn. induction n as [n IH] using lt_wf_ind. intros [|c0 a] Hn.
  - reflexivity.
  - change (String c0 a +:+ String c b) with (String c0 (a +:+ String c b)).
    rewrite (runes_step c0 (a +:+ String c b)).
    change (String c0 (a +:+ String c b)) with (String c0 a +:+ String c b).
    rewrite DecodeRune_app_ascii by done. rewrite (runes_step c0 a).
    pose proof (DecodeRuneInString_ok c0 a) as (_ & Hw & Hl).
    destruct (DecodeRuneInString (String c0 a)) as [r w]; cbn [fst snd] in *.
    cbn [app]. f_equal.
    rewrite drop_app_le by (unfold len in Hl; lia).
    eapply IH; [|reflexivity]. subst n. rewrite length_drop. cbn [String.length]. lia.
Qed.

Lemma runes_ascii_head c b :
  byte_val c < 0x80 -> runes (String c b) = byte_val c :: runes b.
Proof.
  intros Hc. rewrite runes_step, DecodeRuneInString_bytes, len_cons.
  cbn [idx String.get]. pose proof (byte_val_range c). pose proof (len_nonneg b).
  rewrite decodeBytes_1 by lia. reflexivity.
Qed.

Lemma mapRunes_fold (mapping : Z -> Z) l acc :
  fold_right
    (fun c acc => if 0 <=? mapping c then EncodeRune (mapping c) +:+ acc else acc)
    acc l
  = fold_right
      (fun c acc => if 0 <=? mapping c then EncodeRune (mapping c) +:+ acc else acc)
      "" l +:+ acc.
Proof.
  induction l as [|c l IH]; cbn [fold_right]; [reflexivity|].
  rewrite IH. destruct (0 <=? mapping c); [|reflexivity]. by rewrite !app_assoc_s.
Qed.

Lemma mapRunes_app_ascii mapping a c b :
  byte_val c < 0x80 ->
  mapRunes mapping (a +:+ String c b)
  = mapRunes mapping a
    +:+ (if 0 <=? mapping (byte_val c) then EncodeRune (mapping (byte_val c)) else "")
    +:+ mapRunes mapping b.
Proof.
  intros Hc. unfold mapRunes. rewrite runes_app_ascii, runes_ascii_head by done.
  rewrite fold_right_app, mapRunes_fold. cbn [fold_right].
  destruct (0 <=? mapping (byte_val c)); reflexivity.
Qed.

End AsciiFacts.

(** ** The bytes of a sanitized name *)

Module NameFacts.
Import utf8 GoRange unicode tshttp Utf8Facts RangeFacts MapFacts SanitizeFacts AsciiFacts.

Lemma allBytes_app p s t : allBytes p (s +:+ t) = allBytes p s && allBytes p t.
Proof.
  induction s as [|c s IH]; [reflexivity|].
  change (String c s +:+ t) with (String c (s +:+ t)). cbn [allBytes].
  by rewrite IH, andb_assoc.
Qed.

Lemma allBytes_count p c s : allBytes p s = true -> p c = false -> count c s = 0%nat.
Proof.
  intros Hs Hc. induction s as [|c' s IH]; [reflexivity|].
  cbn [allBytes count] in *. apply andb_true_iff in Hs as [Hc' Hs].
  rewrite (IH Hs). destruct (Ascii.eqb_spec c' c) as [->|]; [congruence|reflexivity].
Qed.

Lemma count_app_s c s t : count c (s +:+ t) = (count c s + count c t)%nat.
Proof.
  induction s as [|c' s IH]; [reflexivity|].
  change (String c' s +:+ t) with (String c' (s +:+ t)). cbn [count]. rewrite IH. lia.
Qed.

(** The bytes of the encoding of a rune that is not ASCII are not ASCII. *)
Lemma EncodeRune_high r :
  ValidRune r = true -> 0x80 <= r ->
  allBytes (fun b => 0x80 <=? byte_val b) (EncodeRune r) = true.
Proof.
  intros Hr%ValidRune_spec Hhi.
  unfold EncodeRune, uint32, encode3, rune1Max, rune2Max, rune3Max,
    MaxRune, surrogateMin, surrogateMax.
  rewrite Z.mod_small by lia. split_ifs.
  all: cbn [allBytes]; rewrite ?shiftr_6, ?shiftr_12, ?shiftr_18, ?enc_cont.
  - rewrite enc_lead2 by (Z.to_euclidean_division_equations; lia).
    Z.to_euclidean_division_equations; lia.
  - rewrite enc_lead3 by (Z.to_euclidean_division_equations; lia).
    Z.to_euclidean_division_equations; lia.
  - rewrite enc_lead4 by (Z.to_euclidean_division_equations; lia).
    Z.to_euclidean_division_equations; lia.
Qed.

Lemma length_mapBytes f s : String.length (mapBytes f s) = String.length s.
Proof. induction s as [|c s IH]; cbn [mapBytes String.length]; congruence. Qed.

Section WithTables.
Context `{RangeTables}.

Lemma underscore_val : byte_val "_"%char = 0x5F.
Proof. reflexivity. Qed.

(** On an ASCII byte the mapping of [sanitize] keeps the letters, the
    digits and the hyphen, and puts the underscore for the others. *)
Lemma sanitizeRune_ascii b :
  isAscii b = true ->
  sanitizeRune (byte_val b) = byte_val (if nameByte b then b else "_"%char).
Proof.
  unfold isAscii, sanitizeRune, IsLetter, IsDigit, latin1Letter, uint32, MaxLatin1, nameByte.
  pose proof (byte_val_range b) as Hb. intros Ha.
  rewrite Z.mod_small by lia.
  destruct (byte_val b <=? 255) eqn:E; [|lia].
  match goal with |- (if ?c then _ else _) = _ => destruct c eqn:Ec end;
  match goal with |- _ = byte_val (if ?c then _ else _) => destruct c eqn:En end;
  rewrite ?underscore_val; lia.
Qed.

(** A rune below [0x80] that [sanitize] yields is one of the bytes of a
    name. *)
Lemma sanitizeRune_low c :
  0 <= sanitizeRune c < 0x80 -> nameByte (to_byte (sanitizeRune c)) = true.
Proof.
  intros Hr. pose proof (sanitizeRune_charset c) as Hc.
  revert Hr Hc. generalize (sanitizeRune c) as r. intros r Hr.
  unfold IsLetter, IsDigit, latin1Letter, uint32, MaxLatin1, nameByte.
  rewrite byte_val_to_byte. rewrite !(Z.mod_small r) by lia.
  destruct (r <=? 255) eqn:E; [|lia]. intros Hc. lia.
Qed.

Lemma sanitize_mapRunes path : sanitize path = mapRunes sanitizeRune path.
Proof. rewrite sanitize_Map. apply Map_mapRunes. Qed.

Lemma sanitize_bytes_all path :
  allBytes (fun b => nameByte b || negb (isAscii b)) (sanitize path) = true.
Proof.
  rewrite sanitize_mapRunes. unfold mapRunes.
  induction (runes_valid path) as [|c l Hc _ IH]; [reflexivity|].
  cbn [fold_right]. pose proof (sanitizeRune_valid c Hc) as Hv.
  rewrite (ValidRune_nonneg _ Hv), allBytes_app, IH, andb_true_r.
  destruct (Z.lt_ge_cases (sanitizeRune c) 0x80) as [Hlo|Hhi].
  - apply ValidRune_spec in Hv. rewrite EncodeRune_1 by lia. cbn [allBytes].
    rewrite sanitizeRune_low by lia. reflexivity.
  - pose proof (EncodeRune_high _ Hv Hhi) as Hb.
    revert Hb. generalize (EncodeRune (sanitizeRune c)). clear.
    induction s as [|b s IH]; [reflexivity|]. cbn [allBytes].
    intros [Hb Hs]%andb_true_iff. rewrite (IH Hs), andb_true_r.
    unfold isAscii. apply orb_true_iff. right. lia.
Qed.

Lemma sanitize_runes path : runes (sanitize path) = map sanitizeRune (runes path).
Proof. rewrite sanitize_Map. apply runes_Map, sanitizeRune_valid. Qed.

Lemma sanitize_app_ascii_bytes a c b :
  isAscii c = true ->
  sanitize (a +:+ String c b)
  = sanitize a +:+ String (if nameByte c then c else "_"%char) (sanitize b).
Proof.
  intros Hc. rewrite !sanitize_mapRunes.
  rewrite mapRunes_app_ascii by (unfold isAscii in Hc; lia).
  rewrite sanitizeRune_ascii by done.
  set (c' := if nameByte c then c else "_"%char).
  pose proof (byte_val_range c') as Hr.
  assert (byte_val c' < 0x80).
  { unfold c'. destruct (nameByte c); [unfold isAscii in Hc; lia|rewrite underscore_val; lia]. }
  destruct (0 <=? byte_val c') eqn:E; [|lia].
  rewrite EncodeRune_1, to_byte_byte_val by lia. reflexivity.
Qed.

Lemma sanitize_ascii_bytes x :
  allBytes isAscii x = true ->
  sanitize x = mapBytes (fun b => if nameByte b then b else "_"%char) x.
Proof.
  induction x as [|c x IH]; [reflexivity|].
  cbn [allBytes mapBytes]. intros [Hc Hx]%andb_true_iff.
  change (String c x) with ("" +:+ String c x) at 1.
  rewrite sanitize_app_ascii_bytes by done. by rewrite (IH Hx).
Qed.

End WithTables.
End NameFacts.

Section NameProperties.
Import utf8 GoRange unicode tshttp SanitizeFacts NameFacts.

(** X1.  Whatever its input, [sanitize] returns a name that is one path
    component: each of its bytes is an ASCII letter, a digit, a hyphen or an
    underscore, or is not ASCII at all (a byte of the encoding of a letter or
    digit above U+007F); so the name holds no [/] and no [.]. *)
Theorem sanitize_path_component `{RangeTables} (path : string) :
  allBytes (fun b => nameByte b || negb (isAscii b)) (sanitize path) = true
  /\ count "/"%char (sanitize path) = 0%nat
  /\ count "."%char (sanitize path) = 0%nat.
Proof.
  pose proof (sanitize_bytes_all path) as Hall.
  split; [exact Hall|]. split; eapply allBytes_count; try exact Hall; reflexivity.
Qed.

(** X2.  Whatever its input, well-formed or not, [sanitize] returns
    well-formed UTF-8: encoding the runes that the result decodes to gives
    the result back. *)
Theorem sanitize_well_formed `{RangeTables} (path : string) :
  wellFormed (sanitize path).
Proof.
  unfold wellFormed, mapRunes at 1. rewrite sanitize_runes, sanitize_mapRunes.
  unfold mapRunes. induction (runes path) as [|c l IH]; [reflexivity|].
  cbn [map fold_right]. by rewrite IH.
Qed.

(** X3.  On a name of ASCII bytes [sanitize] works byte by byte: it keeps
    the letters, the digits, the hyphen and the underscore and puts an
    underscore for every other byte, so that the length is kept. *)
Theorem sanitize_ascii `{RangeTables} (path : string) :
  allBytes isAscii path = true ->
  sanitize path = mapBytes (fun b => if nameByte b then b else "_"%char) path
  /\ len (sanitize path) = len path.
Proof.
  intros Ha. rewrite (sanitize_ascii_bytes path Ha). split; [reflexivity|].
  unfold len. by rewrite length_mapBytes.
Qed.

(** X4.  [sanitize] can be computed part by part on the two sides of an
    ASCII byte: the parts before and after the byte are sanitized on their
    own, whatever their bytes, and the byte itself is kept or replaced by an
    underscore. *)
Theorem sanitize_app_ascii `{RangeTables} (a : string) (c : ascii) (b : string) :
  isAscii c = true ->
  sanitize (a +:+ String c b)
  = sanitize a +:+ String (if nameByte c then c else "_"%char) (sanitize b).
Proof. apply sanitize_app_ascii_bytes. Qed.

End NameProperties.

Section NameWitnesses.
Import unicode tshttp.

Lemma sanitize_ascii_witness :
  @sanitize excerpt "tailmon/node-exporter/db1.example"
  = "tailmon_node-exporter_db1_example"
  /\ len (@sanitize excerpt "tailmon/node-exporter/db1.example") = 33.
Proof. exact (@sanitize_ascii excerpt "tailmon/node-exporter/db1.example" eq_refl). Defined.

(** The name [caf] followed by the two bytes of an e with an acute accent,
    then [/] and [x]. *)
Lemma sanitize_app_ascii_witness :
  @sanitize excerpt
    (String "c" (String "a" (String "f" (String (to_byte 0xC3) (String (to_byte 0xA9) ""))))
     +:+ String "/"%char "x")
  = @sanitize excerpt
      (String "c" (String "a" (String "f" (String (to_byte 0xC3) (String (to_byte 0xA9) "")))))
    +:+ String "_"%char (@sanitize excerpt "x").
Proof.
  exact (@sanitize_app_ascii excerpt
           (String "c" (String "a" (String "f"
              (String (to_byte 0xC3) (String (to_byte 0xA9) "")))))
           "/"%char "x" eq_refl).
Defined.

(** Where a sequence is cut in two, the parts do not sanitize to the whole:
    the two bytes of an e with an acute accent are kept together and replaced
    one by one. *)
Example sanitize_split_sequence :
  @sanitize excerpt (String (to_byte 0xC3) (String (to_byte 0xA9) ""))
  = String (to_byte 0xC3) (String (to_byte 0xA9) "")
  /\ @sanitize excerpt (String (to_byte 0xC3) "")
     +:+ @sanitize excerpt (String (to_byte 0xA9) "") = "__".
Proof. split; reflexivity. Qed.

(** A byte that starts no sequence is not well-formed; sanitized, it is. *)
Example wellFormed_example :
  ~ wellFormed (String (to_byte 0xFF) "")
  /\ wellFormed (String (to_byte 0xC3) (String (to_byte 0xA9) "")).
Proof. split; [discriminate|reflexivity]. Qed.

End NameWitnesses.

(** ** The life of a server *)

Module LifecycleFacts.
Import unicode tshttp.

Section WithTables.
Context `{RangeTables}.

Lemma initOnce_Do_fired M s : initOnce s = true -> initOnce_Do M s = ([], Some s).
Proof. intros E. unfold initOnce_Do. by rewrite E. Qed.

Lemma initOnce_Do_after M s log s' :
  initOnce_Do M s = (log, Some s') -> initOnce s' = true /\ cancel s' = cancel s.
Proof.
  unfold initOnce_Do. destruct (initOnce s) eqn:E.
  - intros [= <- <-]. by split.
  - unfold init.
    destruct (match M _ _ with Some err => _ | None => None end); [discriminate|].
    intros [= <- <-]. by split.
Qed.

(** When the directory can be made, or exists, [init] goes through. *)
Lemma initOnce_Do_first M s :
  initOnce s = false ->
  (forall dir perm err, M dir perm = Some err -> errors_Is_ErrExist err = true) ->
  initOnce_Do M s
  = ([Log DebugLevel "tshttp init" []],
     Some {| Logger := Some (match Logger s with None => NewNop | Some l => l end);
             Name := if String.eqb (Name s) "" then "unknown" else Name s;
             ControlURL := ControlURL s;
             StateDir := if String.eqb (StateDir s) "" then "." else StateDir s;
             Debug := Debug s;
             tailnet :=
               Some {| tsnet.Dir :=
                         (if String.eqb (StateDir s) "" then "." else StateDir s)
                         +:+ "/data-"
                         +:+ sanitize (if String.eqb (Name s) "" then "unknown" else Name s);
                       tsnet.Hostname :=
                         if String.eqb (Name s) "" then "unknown" else Name s;
                       tsnet.ControlURL := ControlURL s;
                       tsnet.Logf :=
                         if Debug s
                            || debugEnabled (match Logger s with
                                             | None => NewNop
                                             | Some l => l
                                             end)
                         then tsnet.Infof "tsnet.Server" else tsnet.Discard |};
             cancel := cancel s;
             initOnce := true |}).
Proof.
  intros Hfirst Hmk. unfold initOnce_Do, init. rewrite Hfirst.
  set (name := if String.eqb (Name s) "" then "unknown" else Name s).
  set (stateDir := if String.eqb (StateDir s) "" then "." else StateDir s).
  set (dir := stateDir +:+ "/data-" +:+ sanitize name).
  assert (Hok : match M dir 0x1C0 with
                | Some err => if negb (errors_Is_ErrExist err) then Some err else None
                | None => None
                end = None).
  { destruct (M dir 0x1C0) as [err|] eqn:E; [|reflexivity]. by rewrite (Hmk _ _ _ E). }
  rewrite Hok. reflexivity.
Qed.

Lemma Start_fired M listen s :
  initOnce s = true ->
  Start M listen s
  = ([Entry (Log InfoLevel "tailnet starting" []);
      Go AuthHelper;
      Entry (Log DebugLevel "listen" [zapInt "port" 80]);
      Listen "tcp" ":80"]
     ++ match listen with None => [Go Serving] | Some _ => [] end,
     Some (match listen with
           | None => {| Logger := Logger s; Name := Name s;
                        ControlURL := ControlURL s; StateDir := StateDir s;
                        Debug := Debug s; tailnet := tailnet s;
                        cancel := true; initOnce := initOnce s |}
           | Some _ => s
           end, listen)).
Proof.
  intros E. unfold Start. rewrite initOnce_Do_fired by done.
  destruct listen; reflexivity.
Qed.

End WithTables.
End LifecycleFacts.

Section LifecycleProperties.
Import unicode tshttp NameFacts LifecycleFacts.
Context `{RangeTables}.

(** X5.  When the state directory can be created, or exists already, the
    directory that [init] hands to the overlay provider is a direct child of
    the server's [StateDir] (defaulted to [.]): it is that directory, a [/]
    and one more component, [data-] followed by the sanitized name, which
    holds no [/] and no [.], whatever the bytes of [Name]. *)
Theorem init_state_dir_child (MkdirAll : string -> Z -> option error) (s : Server) :
  initOnce s = false ->
  (forall dir perm err, MkdirAll dir perm = Some err -> errors_Is_ErrExist err = true) ->
  exists s' t leaf,
    snd (initOnce_Do MkdirAll s) = Some s'
    /\ tailnet s' = Some t
    /\ tsnet.Dir t = StateDir s' +:+ "/" +:+ leaf
    /\ leaf = "data-" +:+ sanitize (Name s')
    /\ count "/"%char leaf = 0%nat
    /\ count "."%char leaf = 0%nat.
Proof.
  intros Hfirst Hmk. rewrite (initOnce_Do_first _ _ Hfirst Hmk). cbn [snd].
  set (name := if String.eqb (Name s) "" then "unknown" else Name s).
  eexists _, _, ("data-" +:+ sanitize name). split; [reflexivity|].
  cbn [tailnet tsnet.Dir StateDir Name].
  split; [reflexivity|]. split; [reflexivity|]. split; [reflexivity|].
  pose proof (sanitize_bytes_all name) as Hall.
  rewrite !count_app_s.
  rewrite !(allBytes_count _ _ _ Hall) by reflexivity. by split.
Qed.

(** X6.  Once [Tailnet] has returned, initialization is over: a later call
    of [Tailnet], or [Start], logs no [tshttp init] entry, asks nothing of the
    file system (it behaves alike whatever [os.MkdirAll] would answer), and
    works on the very handle that [Tailnet] returned; [Start] then logs,
    starts the helper goroutine, listens on port 80 and, when that succeeds,
    starts to serve. *)
Theorem Tailnet_then_Start (M : string -> Z -> option error) (s : Server)
  (log : list Event) (s1 : Server) (t : option tsnet.Server)
  (M' : string -> Z -> option error) (listen : option error) :
  Tailnet M s = (log, Some (s1, t)) ->
  Tailnet M' s1 = ([], Some (s1, t))
  /\ exists s2,
       Start M' listen s1
       = ([Entry (Log InfoLevel "tailnet starting" []);
           Go AuthHelper;
           Entry (Log DebugLevel "listen" [zapInt "port" 80]);
           Listen "tcp" ":80"]
          ++ match listen with None => [Go Serving] | Some _ => [] end,
          Some (s2, listen))
       /\ tailnet s2 = t.
Proof.
  unfold Tailnet. destruct (initOnce_Do M s) as [log0 [s0|]] eqn:E; [|discriminate].
  intros [= <- <- <-].
  destruct (initOnce_Do_after _ _ _ _ E) as [Hf _].
  rewrite initOnce_Do_fired by done. split; [reflexivity|].
  rewrite Start_fired by done. eexists. split; [reflexivity|]. by destruct listen.
Qed.

(** X7.  [Shutdown] does something only after a [Start] that has bound its
    listener.  On a server that was never started it does nothing.  When
    [Start] returns, the error it returns is that of [tailnet.Listen], and the
    helper goroutine has been started in either case.  After a successful
    [Start], [Shutdown] stops the HTTP server under a deadline of one second,
    closes the listener, closes the overlay handle and logs [shutdown], in
    that order; after a failed one it does nothing, so that the overlay
    handle stays open, and no serving goroutine was started. *)
Theorem Shutdown_after_Start (M : string -> Z -> option error) (listen : option error)
  (s : Server) (steps : list Step) (s' : Server) (err : option error) :
  cancel s = false ->
  Start M listen s = (steps, Some (s', err)) ->
  Shutdown s = []
  /\ err = listen
  /\ In (Go AuthHelper) steps
  /\ match listen with
     | None =>
       Shutdown s'
       = [HTTPShutdown (1 * Second); ListenerClose; TailnetClose;
          Entry (Log InfoLevel "shutdown" [])]
     | Some _ => Shutdown s' = [] /\ ~ In (Go Serving) steps
     end.
Proof.
  intros Hc. unfold Start.
  destruct (initOnce_Do M s) as [log0 [s0|]] eqn:E; [|discriminate].
  destruct (initOnce_Do_after _ _ _ _ E) as [_ Hc0]. rewrite Hc in Hc0.
  assert (Hs : Shutdown s = []) by (unfold Shutdown; by rewrite Hc).
  destruct listen as [e|]; intros [= <- <- <-]; (split; [exact Hs|]).
  - split; [reflexivity|]. split.
    + apply in_or_app. right. right. by left.
    + split; [unfold Shutdown; by rewrite Hc0|].
      intros [Hin|Hin]%in_app_or.
      * apply List.in_map_iff in Hin as (? & ? & _). discriminate.
      * cbn in Hin. intuition discriminate.
  - split; [reflexivity|]. split; [|reflexivity].
    apply in_or_app. left. apply in_or_app. right. right. by left.
Qed.

End LifecycleProperties.

Section LifecycleWitnesses.
Import unicode tshttp.

Lemma init_state_dir_child_witness :
  exists s' t leaf,
    snd (@initOnce_Do excerpt (fun _ _ => None)
           {| Logger := None; Name := "../../etc/cron.d"; ControlURL := "";
              StateDir := "/var/lib/tailmon"; Debug := false; tailnet := None;
              cancel := false; initOnce := false |})
    = Some s'
    /\ tailnet s' = Some t
    /\ tsnet.Dir t = StateDir s' +:+ "/" +:+ leaf
    /\ leaf = "data-" +:+ @sanitize excerpt (Name s')
    /\ count "/"%char leaf = 0%nat
    /\ count "."%char leaf = 0%nat.
Proof.
  apply (@init_state_dir_child excerpt (fun _ _ => None)
           {| Logger := None; Name := "../../etc/cron.d"; ControlURL := "";
              StateDir := "/var/lib/tailmon"; Debug := false; tailnet := None;
              cancel := false; initOnce := false |}).
  - reflexivity.
  - discriminate.
Defined.

(** The directory of the witness above. *)
Example init_state_dir_example :
  exists s' t,
    snd (@initOnce_Do excerpt (fun _ _ => None)
           {| Logger := None; Name := "../../etc/cron.d"; ControlURL := "";
              StateDir := "/var/lib/tailmon"; Debug := false; tailnet := None;
              cancel := false; initOnce := false |})
    = Some s'
    /\ tailnet s' = Some t
    /\ tsnet.Dir t = "/var/lib/tailmon/data-______etc_cron_d".
Proof. eexists _, _. repeat split. Qed.

Lemma Tailnet_then_Start_witness :
  match @Tailnet excerpt (fun _ _ => None)
          (discover.main_server
             {| flagDebug := false; flagState := "/var/lib/tailmon";
                flagNoLogs := true; controlURL := "" |}) with
  | (_, Some (s1, t)) =>
    @Tailnet excerpt (fun _ _ => Some (pathError "mkdir" "/var/lib/tailmon" false)) s1
    = ([], Some (s1, t))
    /\ exists s2,
         @Start excerpt (fun _ _ => Some (pathError "mkdir" "/var/lib/tailmon" false))
           None s1
         = ([Entry (Log InfoLevel "tailnet starting" []);
             Go AuthHelper;
             Entry (Log DebugLevel "listen" [zapInt "port" 80]);
             Listen "tcp" ":80"; Go Serving],
            Some (s2, None))
         /\ tailnet s2 = t
  | _ => False
  end.
Proof.
  exact (@Tailnet_then_Start excerpt (fun _ _ => None)
           (discover.main_server
              {| flagDebug := false; flagState := "/var/lib/tailmon";
                 flagNoLogs := true; controlURL := "" |}) _ _ _
           (fun _ _ => Some (pathError "mkdir" "/var/lib/tailmon" false)) None eq_refl).
Defined.

Lemma Shutdown_after_Start_witness :
  match @Start excerpt (fun _ _ => None) (Some (errorString "listen: address in use"))
          (discover.main_server
             {| flagDebug := false; flagState := "/var/lib/tailmon";
                flagNoLogs := true; controlURL := "" |}) with
  | (steps, Some (s', err)) =>
    Shutdown (discover.main_server
                {| flagDebug := false; flagState := "/var/lib/tailmon";
                   flagNoLogs := true; controlURL := "" |}) = []
    /\ err = Some (errorString "listen: address in use")
    /\ In (Go AuthHelper) steps
    /\ Shutdown s' = [] /\ ~ In (Go Serving) steps
  | _ => False
  end.
Proof.
  exact (@Shutdown_after_Start excerpt (fun _ _ => None)
           (Some (errorString "listen: address in use"))
           (discover.main_server
              {| flagDebug := false; flagState := "/var/lib/tailmon";
                 flagNoLogs := true; controlURL := "" |})
           _ _ _ eq_refl eq_refl).
Defined.

End LifecycleWitnesses.

(** ** Registrations on the command line *)

Module ItoaFacts.
Import strconv ParseFacts RangeFacts AsciiFacts.

Lemma uint_allDigits d : allDigits (NilEmpty.string_of_uint d) = true.
Proof. induction d; cbn [NilEmpty.string_of_uint allDigits]; auto. Qed.

Lemma uint_value_acc d acc :
  decimalValue (Z.pos acc) (NilEmpty.string_of_uint d) = Z.pos (Pos.of_uint_acc d acc).
Proof.
  revert acc; induction d; intros acc;
    cbn [NilEmpty.string_of_uint decimalValue Pos.of_uint_acc]; [reflexivity|..].
  all: rewrite <- IHd; f_equal; unfold byte_val; cbn; lia.
Qed.

Lemma uint_value d :
  decimalValue 0 (NilEmpty.string_of_uint d) = Z.of_N (Pos.of_uint d).
Proof.
  induction d; cbn [NilEmpty.string_of_uint decimalValue Pos.of_uint]; [reflexivity|..].
  1: exact IHd.
  all: cbn [Z.of_N]; rewrite <- uint_value_acc; f_equal.
Qed.

Lemma uint_nonempty d : d <> Decimal.Nil -> NilEmpty.string_of_uint d <> "".
Proof. destruct d; [congruence|discriminate..]. Qed.

Lemma uint_NilZero d :
  d <> Decimal.Nil -> NilZero.string_of_uint d = NilEmpty.string_of_uint d.
Proof. destruct d; [congruence|reflexivity..]. Qed.


(** What [%d] prints of a positive number: its digits, which write it. *)
Lemma itoa_pos p :
  itoa (Z.pos p) <> "" /\ allDigits (itoa (Z.pos p)) = true
  /\ decimalValue 0 (itoa (Z.pos p)) = Z.pos p.
Proof.
  unfold itoa. cbn [Z.to_int NilZero.string_of_int].
  pose proof (DecimalPos.Unsigned.to_uint_nonnil p) as Hn.
  rewrite uint_NilZero by done. split; [by apply uint_nonempty|].
  split; [apply uint_allDigits|].
  by rewrite uint_value, DecimalPos.Unsigned.of_to.
Qed.

Lemma itoa_neg p : itoa (Z.neg p) = String "-"%char (itoa (Z.pos p)).
Proof. reflexivity. Qed.


Lemma runes_digits s :
  allDigits s = true ->
  forallb (fun b => negb ((b <? 0x30) || (0x39 <? b))) (GoRange.runes s) = true.
Proof.
  induction s as [|c s IH]; [reflexivity|]. cbn [allDigits].
  intros [Hc Hs]%andb_prop. unfold isDigitByte in Hc.
  assert (Hlt : byte_val c < 0x80) by (clear IH; lia).
  rewrite runes_ascii_head by exact Hlt. cbn [forallb]. rewrite (IH Hs).
  clear IH. lia.
Qed.

(** The port check of [url.Parse] on what [%d] prints: it passes exactly
    when the number is not negative. *)
Lemma validOptionalPort_itoa n :
  url.validOptionalPort (":" +:+ itoa n) = (0 <=? n).
Proof.
  change (":" +:+ itoa n) with (String ":"%char (itoa n)).
  unfold url.validOptionalPort. change (byte_val ":"%char =? 58) with true. cbn [negb].
  destruct n as [|p|p].
  - reflexivity.
  - destruct (itoa_pos p) as (_ & Hd & _). by rewrite runes_digits.
  - rewrite itoa_neg, runes_ascii_head by reflexivity. reflexivity.
Qed.

End ItoaFacts.

Module ExporterFacts.
Import tailmon strconv CutFacts ParseFacts ItoaFacts NameFacts LifecycleFacts unicode tshttp.

Lemma append_inv_head (p x y : string) : p +:+ x = p +:+ y -> x = y.
Proof.
  induction p as [|c p IH]; [done|].
  change (String c p +:+ x) with (String c (p +:+ x)).
  change (String c p +:+ y) with (String c (p +:+ y)). intros [= E]. auto.
Qed.


Lemma parses_spec h a : parses h a = true <-> snd (newExporter h a) = None.
Proof. unfold parses. destruct (snd (newExporter h a)); split; congruence. Qed.

(** The loop appends the registrations of the arguments one by one, up to
    the first that does not parse. *)
Lemma main_exporters_from h args exporters :
  match main_exporters h args exporters with
  | inl all =>
    forallb (parses h) args = true
    /\ elems all = elems exporters ++ map (fun a => fst (newExporter h a)) args
    /\ (all = None <-> exporters = None /\ args = [])
  | inr (epStr, err) =>
    exists before after,
      args = before ++ epStr :: after
      /\ forallb (parses h) before = true
      /\ snd (newExporter h epStr) = Some err
  end.
Proof.
  revert exporters. induction args as [|a args IH]; intros exporters; cbn [main_exporters].
  - split; [reflexivity|]. split; [by rewrite app_nil_r|]. intuition.
  - destruct (newExporter h a) as [ep [err|]] eqn:E.
    + exists [], args. split; [reflexivity|]. split; [reflexivity|]. by rewrite E.
    + specialize (IH (append exporters ep)).
      assert (Ha : parses h a = true) by (apply parses_spec; by rewrite E).
      destruct (main_exporters h args (append exporters ep)) as [all|[epStr err]].
      * destruct IH as (Hall & Hel & Hnil). cbn [forallb map]. rewrite Ha, Hall, E.
        split; [reflexivity|]. split.
        -- rewrite Hel. destruct exporters as [l|]; cbn [append elems fst]; [|reflexivity].
           by rewrite <- app_assoc.
        -- rewrite Hnil. destruct exporters; cbn [append]; intuition discriminate.
      * destruct IH as (before & after & -> & Hb & He).
        exists (a :: before), after. cbn [forallb app]. by rewrite Ha, Hb.
Qed.

(** The first argument that does not parse is determined by the
    arguments. *)
Lemma first_failure_unique h before epStr after err before' epStr' after' err' :
  before ++ epStr :: after = before' ++ epStr' :: after' ->
  forallb (parses h) before = true -> snd (newExporter h epStr) = Some err ->
  forallb (parses h) before' = true -> snd (newExporter h epStr') = Some err' ->
  epStr' = epStr /\ err' = err.
Proof.
  revert before'. induction before as [|b before IH]; intros [|b' before'] E Hb He Hb' He';
    cbn [app forallb] in *.
  - injection E as -> _. split; [reflexivity|congruence].
  - injection E as -> _. apply andb_prop in Hb' as [Hp _].
    apply parses_spec in Hp. congruence.
  - injection E as -> _. apply andb_prop in Hb as [Hp _].
    apply parses_spec in Hp. congruence.
  - injection E as _ E. apply andb_prop in Hb as [_ Hb].
    apply andb_prop in Hb' as [_ Hb']. by apply (IH before').
Qed.

Section WithTables.
Context `{RangeTables}.

Lemma sanitize_TailscaleNodeName e :
  sanitize (TailscaleNodeName e)
  = "tailmon_" +:+ sanitize (name e) +:+ "_" +:+ sanitize (hostname e).
Proof.
  unfold TailscaleNodeName.
  change ("tailmon/" +:+ name e +:+ "/" +:+ hostname e)
    with ("tailmon" +:+ String "/"%char (name e +:+ String "/"%char (hostname e))).
  rewrite !sanitize_app_ascii_bytes by reflexivity.
  rewrite (sanitize_ascii_bytes "tailmon") by reflexivity. reflexivity.
Qed.

Lemma init_main_server flags M ep :
  (forall dir perm err, M dir perm = Some err -> errors_Is_ErrExist err = true) ->
  flagState flags <> "" ->
  initOnce_Do M (main_server flags ep)
  = ([Log DebugLevel "tshttp init" []],
     Some {| Logger := Some (log.MustZapLogger (flagDebug flags));
             Name := TailscaleNodeName ep;
             ControlURL := controlURL flags;
             StateDir := flagState flags;
             Debug := flagDebug flags;
             tailnet :=
               Some {| tsnet.Dir := flagState flags +:+ "/data-"
                                    +:+ sanitize (TailscaleNodeName ep);
                       tsnet.Hostname := TailscaleNodeName ep;
                       tsnet.ControlURL := controlURL flags;
                       tsnet.Logf := if flagDebug flags then tsnet.Infof "tsnet.Server"
                                     else tsnet.Discard |};
             cancel := false;
             initOnce := true |}).
Proof.
  intros Hmk Hs. rewrite initOnce_Do_first by done. unfold main_server.
  cbn [initOnce Logger Name StateDir Debug ControlURL cancel tailnet].
  change (String.eqb (TailscaleNodeName ep) "") with false. cbv iota.
  destruct (String.eqb_spec (flagState flags) "") as [|_]; [done|].
  cbn [log.MustZapLogger debugEnabled]. by rewrite orb_diag.
Qed.

End WithTables.
End ExporterFacts.

Section ExporterProperties.
Import tailmon strconv ExporterFacts.


(** X9.  Registrations whose names hold no [/] get the same node name only
    if they have the same name and the same hostname; the port plays no
    part in the node name. *)
Theorem TailscaleNodeName_inj (e1 e2 : exporter) :
  count "/"%char (name e1) = 0%nat -> count "/"%char (name e2) = 0%nat ->
  TailscaleNodeName e1 = TailscaleNodeName e2 ->
  name e1 = name e2 /\ hostname e1 = hostname e2.
Proof.
  intros H1 H2 E. unfold TailscaleNodeName in E. apply append_inv_head in E.
  pose proof (CutFacts.Cut_first "/"%char (name e1) (hostname e1) H1) as C1.
  pose proof (CutFacts.Cut_first "/"%char (name e2) (hostname e2) H2) as C2.
  change (name e1 +:+ "/" +:+ hostname e1)
    with (name e1 +:+ String "/"%char (hostname e1)) in E.
  change (name e2 +:+ "/" +:+ hostname e2)
    with (name e2 +:+ String "/"%char (hostname e2)) in E.
  rewrite E, C2 in C1. by injection C1 as -> ->.
Qed.

(** X10.  The first loop of [main] is all or nothing.  When every argument
    parses it yields their registrations in the order of the arguments, and
    the slice is nil exactly when there is no argument.  Otherwise it stops
    at the first argument that does not parse, with the error of
    [newExporter] on it: all arguments before that one parse, and those
    after it are not looked at. *)
Theorem main_exporters_first_failure (osHostname : result string) (args : list string) :
  match main_exporters osHostname args None with
  | inl exporters =>
    forallb (parses osHostname) args = true
    /\ elems exporters = map (fun a => fst (newExporter osHostname a)) args
    /\ (exporters = None <-> args = [])
  | inr (epStr, err) =>
    exists before after,
      args = before ++ epStr :: after
      /\ forallb (parses osHostname) before = true
      /\ snd (newExporter osHostname epStr) = Some err
  end.
Proof.
  pose proof (main_exporters_from osHostname args None) as Hm.
  destruct (main_exporters osHostname args None) as [all|[epStr err]]; [|exact Hm].
  destruct Hm as (Hall & Hel & Hnil). split; [exact Hall|]. split; [exact Hel|].
  rewrite Hnil. intuition.
Qed.

(** X11.  The checks at the head of [main].  [main] goes on to build
    servers exactly when every argument parses, the state directory is given
    and there is at least one argument; it then works on the registrations
    of the arguments, in their order.  In every other case it exits with
    status 1: on the first argument that does not parse, after a line about
    that argument alone, whatever the flags; else on an empty [-state],
    after the text about [-state] and the usage; else, without arguments,
    after the text about exporters and the usage. *)
Theorem main_startup_checks (osHostname : result string) (flags : Flags)
  (args : list string) :
  ((exists exporters, main_startup osHostname flags args = Proceed exporters)
   <-> forallb (parses osHostname) args = true
       /\ flagState flags <> "" /\ args <> [])
  /\ (forall exporters,
         main_startup osHostname flags args = Proceed exporters ->
         exporters = map (fun a => fst (newExporter osHostname a)) args)
  /\ (forall before epStr after err,
         args = before ++ epStr :: after ->
         forallb (parses osHostname) before = true ->
         snd (newExporter osHostname epStr) = Some err ->
         main_startup osHostname flags args = Exit [ArgError epStr err] 1)
  /\ (forallb (parses osHostname) args = true -> flagState flags = "" ->
      main_startup osHostname flags args
      = Exit [Text ("ERROR: Must provide -state dir" +:+ LF +:+ LF);
              UsageMessage; PrintDefaults] 1)
  /\ (args = [] -> flagState flags <> "" ->
      main_startup osHostname flags args
      = Exit [Text ("ERROR: Must specify one or more exporters to announce."
                    +:+ LF +:+ LF);
              UsageMessage; PrintDefaults] 1).
Proof.
  unfold main_startup.
  pose proof (main_exporters_from osHostname args None) as Hm.
  destruct (main_exporters osHostname args None) as [all|[epStr err]].
  - destruct Hm as (Hall & Hel & Hnil). cbn [elems app] in Hel.
    assert (Hlen : (Z.of_nat (length (elems all)) =? 0) = true <-> args = []).
    { rewrite Hel, length_map. destruct args; cbn [length]; split; try done; lia. }
    assert (Hnofail : forall before epStr after err,
               args = before ++ epStr :: after ->
               snd (newExporter osHostname epStr) = Some err -> False).
    { intros before epStr after err -> He. rewrite forallb_app in Hall.
      apply andb_prop in Hall as [_ Hall]. cbn [forallb] in Hall.
      apply andb_prop in Hall as [Hall _]. apply parses_spec in Hall. congruence. }
    destruct (String.eqb_spec (flagState flags) "") as [Hs|Hs].
    + split; [split; [intros [? [=]]|intros (_ & ? & _); done]|].
      split; [intros ? [=]|]. split.
      * intros before epStr after err E _ He. destruct (Hnofail _ _ _ _ E He).
      * split; [reflexivity|]. intros _ ?. done.
    + destruct (Z.of_nat (length (elems all)) =? 0) eqn:El.
      * assert (args = []) as -> by (by apply Hlen).
        split; [split; [intros [? [=]]|intros (_ & _ & ?); done]|].
        split; [intros ? [=]|]. split.
        -- intros before epStr after err E. by destruct before.
        -- split; [intros _ ?; done|]. reflexivity.
      * assert (Hne : args <> []) by (intros E; apply Hlen in E; congruence).
        split; [split; [intros _; by repeat split|intros _; eauto]|].
        split; [intros ? [= <-]; exact Hel|]. split.
        -- intros before epStr after err E _ He. destruct (Hnofail _ _ _ _ E He).
        -- split; [intros _ ?; done|]. intros ?. done.
  - destruct Hm as (before & after & -> & Hb & He).
    assert (Hbad : forallb (parses osHostname) (before ++ epStr :: after) = false).
    { rewrite forallb_app. cbn [forallb].
      assert (parses osHostname epStr = false) as ->.
      { unfold parses. by rewrite He. }
      by rewrite andb_false_r. }
    split; [split; [intros [? [=]]|intros (? & _); congruence]|].
    split; [intros ? [=]|]. split.
    + intros before' epStr' after' err' E Hb' He'.
      destruct (first_failure_unique _ _ _ _ _ _ _ _ _ E Hb He Hb' He') as [-> ->].
      reflexivity.
    + split; [congruence|]. intros E. by destruct before.
Qed.

End ExporterProperties.

Section LaunchProperties.
Import tailmon unicode tshttp ItoaFacts ExporterFacts NameFacts.
Context `{RangeTables}.

(** X12.  What the second loop of [main] sets up for a registration whose
    port is not negative, when the state directory is given and can be made
    and the listener can be bound: a node whose hostname is
    [tailmon/<name>/<hostname>], whose state lives in
    [<state>/data-tailmon_<name>_<hostname>], both parts sanitized on their
    own, under the control server of the flags, with the provider's log
    lines kept only under [-debug]; a handler that sends [/metrics] to
    [http://localhost:<port>]; and a server that [Shutdown] can stop. *)
Theorem main_launch_node (flags : Flags) (MkdirAll : string -> Z -> option error)
  (ep : exporter) :
  0 <= port ep ->
  (forall dir perm err, MkdirAll dir perm = Some err -> errors_Is_ErrExist err = true) ->
  flagState flags <> "" ->
  exists steps srv handler t,
    main_launch flags MkdirAll None ep = (steps, Some (srv, handler))
    /\ tailnet srv = Some t
    /\ tsnet.Hostname t = "tailmon/" +:+ name ep +:+ "/" +:+ hostname ep
    /\ tsnet.Dir t = flagState flags +:+ "/data-tailmon_" +:+ sanitize (name ep)
                     +:+ "_" +:+ sanitize (hostname ep)
    /\ tsnet.ControlURL t = controlURL flags
    /\ tsnet.Logf t = (if flagDebug flags then tsnet.Infof "tsnet.Server"
                       else tsnet.Discard)
    /\ handler "/metrics"
       = [Log InfoLevel "accept" [zapString "path" "/metrics"];
          ProxyServeHTTP ("http://localhost:" +:+ itoa (port ep)) "/metrics"]
    /\ Shutdown srv <> [].
Proof.
  intros Hp Hmk Hs. unfold main_launch, url.ParseLocalhost.
  rewrite validOptionalPort_itoa. destruct (0 <=? port ep) eqn:E; [|lia]. cbn [negb].
  unfold Start. rewrite init_main_server by done.
  eexists _, _, _, _. split; [reflexivity|]. cbn [tailnet]. split; [reflexivity|].
  cbn [tsnet.Hostname tsnet.Dir tsnet.ControlURL tsnet.Logf].
  split; [reflexivity|]. split; [by rewrite sanitize_TailscaleNodeName|].
  split; [reflexivity|]. split; [reflexivity|]. split; [reflexivity|]. discriminate.
Qed.


End LaunchProperties.

Section ExporterWitnesses.
Import tailmon unicode tshttp.


(** Two registrations of one name on one machine, on different ports. *)
Lemma TailscaleNodeName_inj_witness :
  name {| name := "node-exporter"; port := 9100; hostname := "box" |}
  = name {| name := "node-exporter"; port := 9101; hostname := "box" |}
  /\ hostname {| name := "node-exporter"; port := 9100; hostname := "box" |}
     = hostname {| name := "node-exporter"; port := 9101; hostname := "box" |}.
Proof.
  exact (TailscaleNodeName_inj
           {| name := "node-exporter"; port := 9100; hostname := "box" |}
           {| name := "node-exporter"; port := 9101; hostname := "box" |}
           eq_refl eq_refl eq_refl).
Defined.

(** A name with a [/] can give the node name of another registration. *)
Example TailscaleNodeName_slash :
  TailscaleNodeName {| name := "a/b"; port := 1; hostname := "c" |}
  = TailscaleNodeName {| name := "a"; port := 1; hostname := "b/c" |}.
Proof. reflexivity. Qed.

(** The second argument is the first that does not parse: the third one,
    which does not parse either, is not reported. *)
Example main_startup_example :
  main_startup (Ok "box")
    {| flagDebug := false; flagState := ""; flagNoLogs := true; controlURL := "" |}
    ["node-exporter:9100"; "postgres-exporter"; "redis-exporter:x"]
  = Exit [ArgError "postgres-exporter" (errorString "use name-exporter:port format")] 1.
Proof. reflexivity. Qed.

Lemma main_launch_node_witness :
  exists steps srv handler t,
    @main_launch excerpt
      {| flagDebug := false; flagState := "/var/lib/tailmon";
         flagNoLogs := true; controlURL := "https://control.example.com" |}
      (fun _ _ => None) None
      {| name := "node-exporter"; port := 9100; hostname := "db1.example" |}
    = (steps, Some (srv, handler))
    /\ tailnet srv = Some t
    /\ tsnet.Hostname t = "tailmon/node-exporter/db1.example"
    /\ tsnet.Dir t = "/var/lib/tailmon/data-tailmon_node-exporter_db1_example"
    /\ tsnet.ControlURL t = "https://control.example.com"
    /\ tsnet.Logf t = tsnet.Discard
    /\ handler "/metrics"
       = [Log InfoLevel "accept" [zapString "path" "/metrics"];
          ProxyServeHTTP "http://localhost:9100" "/metrics"]
    /\ Shutdown srv <> [].
Proof.
  apply (@main_launch_node excerpt
           {| flagDebug := false; flagState := "/var/lib/tailmon";
              flagNoLogs := true; controlURL := "https://control.example.com" |}
           (fun _ _ => None)
           {| name := "node-exporter"; port := 9100; hostname := "db1.example" |}).
  - cbn. lia.
  - discriminate.
  - discriminate.
Defined.


End ExporterWitnesses.

(** ** The discovery document and its order *)

Module DocumentFacts.
Import discover strings netip CutFacts SortFacts AddrOrder DiscoverFacts.

Lemma unordered_Compare a b :
  Less a b = false -> Less b a = false -> Compare a b = 0.
Proof.
  intros Hab Hba. apply Compare_zero_spec.
  assert (Hab' : ~ Less a b = true) by congruence.
  assert (Hba' : ~ Less b a = true) by congruence.
  rewrite Less_spec in Hab', Hba'.
  assert (E1 : BitLen a = BitLen b) by lia.
  assert (E2 : hi a = hi b) by lia.
  assert (E3 : lo a = lo b) by lia.
  repeat (split; [assumption|]). intros H6.
  assert (H6' : Is6 b = true) by (by rewrite <- (BitLen_Is6 a b)).
  split.
  - destruct (String.ltb (Zone a) (Zone b)); [|reflexivity]. exfalso. apply Hab'.
    right. split; [done|]. right. split; [done|]. right. auto.
  - destruct (String.ltb (Zone b) (Zone a)); [|reflexivity]. exfalso. apply Hba'.
    right. split; [done|]. right. split; [done|]. right. auto.
Qed.

Lemma notLess_ascending a b : Less b a = false -> ascending a b.
Proof.
  intros Hba. assert (Hba' : ~ Less b a = true) by congruence.
  rewrite Less_spec in Hba'. unfold ascending. lia.
Qed.

Lemma ascending_family a b : ascending a b -> Is6 a = true -> Is4 b = false.
Proof.
  unfold ascending, BitLen, Is6, Is4. destruct (z a), (z b); intros; lia || done.
Qed.

Lemma StronglySorted_weaken {A} (R R' : A -> A -> Prop) l :
  (forall x y, R x y -> R' x y) -> StronglySorted R l -> StronglySorted R' l.
Proof.
  intros HR. induction 1 as [|x l _ IH Hx]; constructor; [exact IH|].
  eapply List.Forall_impl; [|exact Hx]. auto.
Qed.

Lemma encountered_In peers e :
  In e (encountered peers) <-> exists v, In v peers /\ peerEndpoint v = Some e.
Proof.
  unfold encountered. rewrite in_flat_map. split; intros (v & Hv & He); exists v.
  - split; [exact Hv|]. destruct (peerEndpoint v) as [e'|]; [|done].
    destruct He as [->|[]]. reflexivity.
  - split; [exact Hv|]. rewrite He. by left.
Qed.

Lemma encountered_Permutation peers1 peers2 :
  Permutation peers1 peers2 -> Permutation (encountered peers1) (encountered peers2).
Proof. intros Hp. unfold encountered. by apply Permutation_flat_map. Qed.

Lemma peerEndpoint_ip v e :
  peerEndpoint v = Some e ->
  qualifies v = true /\ head (PeerStatus.TailscaleIPs v) = Some (ip e).
Proof.
  intros He. split; [apply peerEndpoint_qualifies; eauto|].
  by destruct (peerEndpoint_describes v e He) as (Hh & _).
Qed.

(** The member of the document that an endpoint of the enumerator gives. *)
Lemma marshalEndpoint_member v e :
  peerEndpoint v = Some e ->
  marshalEndpoint e
  = memberOf (targetOf (ip e)) (label e "__meta_tailmon_exporter_name")
             (label e "__meta_tailmon_node_name") (label e "__meta_tailscale_dns_name").
Proof.
  unfold peerEndpoint.
  destruct (HasPrefix (PeerStatus.HostName v) "tailmon/"); cbn [negb]; [|discriminate].
  destruct (PeerStatus.TailscaleIPs v) as [|a rest]; [discriminate|].
  destruct (Cut _ _) as [[exporter node] ok].
  set (names := if negb ok then _ else _). destruct names as [exporter' node'].
  intros [= <-]. unfold marshalEndpoint, label. cbn [ip Targets Labels json.ofStrings map].
  rewrite formatAddr_80. reflexivity.
Qed.

Lemma findTailmonEndpoints_Fail tailnet err :
  findTailmonEndpoints tailnet = Fail err
  <-> (tsnet.LocalClient tailnet = Fail err
       \/ exists lc, tsnet.LocalClient tailnet = Ok lc /\ tsnet.Status lc = Fail err).
Proof.
  unfold findTailmonEndpoints.
  destruct (tsnet.LocalClient tailnet) as [lc|e1].
  - destruct (tsnet.Status lc) as [status|e2] eqn:Est.
    + split; [discriminate|]. intros [[=]|(lc' & [= <-] & E)]. congruence.
    + split; [intros [= ->]|].
      * right. exists lc. by split.
      * intros [[=]|(lc' & [= <-] & E)]. congruence.
  - split; [intros [= ->]; by left|]. by intros [[= ->]|(lc' & [=] & _)].
Qed.

Lemma marshalEndpoints_Fail tailnet err :
  marshalEndpoints tailnet = Fail err <-> findTailmonEndpoints tailnet = Fail err.
Proof.
  unfold marshalEndpoints. destruct (findTailmonEndpoints tailnet); split; congruence.
Qed.

End DocumentFacts.

Module QuadFacts.
Import netip Utf8Facts.

(** The low half of the address [a.b.c.d]. *)
Lemma AddrFrom4_lo a b c d :
  0 <= a < 256 -> 0 <= b < 256 -> 0 <= c < 256 -> 0 <= d < 256 ->
  lo (AddrFrom4 a b c d) = 0xffff * 2 ^ 32 + a * 2 ^ 24 + b * 2 ^ 16 + c * 2 ^ 8 + d.
Proof.
  intros Ha Hb Hc Hd. unfold AddrFrom4. cbn [lo].
  rewrite !Z.shiftl_mul_pow2 by lia. rewrite <- !Z.lor_assoc.
  rewrite (lor_add c d 8) by lia.
  rewrite (lor_add b (c * 2 ^ 8 + d) 16) by lia.
  rewrite (lor_add a (b * 2 ^ 16 + (c * 2 ^ 8 + d)) 24) by lia.
  change 0xffff00000000 with (0xffff * 2 ^ 32).
  rewrite (lor_add 0xffff _ 32) by lia. lia.
Qed.

Lemma v4_AddrFrom4 a b c d :
  0 <= a < 256 -> 0 <= b < 256 -> 0 <= c < 256 -> 0 <= d < 256 ->
  v4 (AddrFrom4 a b c d) 0 = a /\ v4 (AddrFrom4 a b c d) 1 = b
  /\ v4 (AddrFrom4 a b c d) 2 = c /\ v4 (AddrFrom4 a b c d) 3 = d.
Proof.
  intros Ha Hb Hc Hd. unfold v4. rewrite AddrFrom4_lo by done.
  rewrite !Z.shiftr_div_pow2 by lia.
  change ((3 - 0) * 8) with 24. change ((3 - 1) * 8) with 16.
  change ((3 - 2) * 8) with 8. change ((3 - 3) * 8) with 0.
  change (2 ^ 32) with 4294967296. change (2 ^ 24) with 16777216.
  change (2 ^ 16) with 65536. change (2 ^ 8) with 256. change (2 ^ 0) with 1.
  repeat split; Z.to_euclidean_division_equations; lia.
Qed.

End QuadFacts.

Section DiscoverProperties.
Import discover strings netip CutFacts SortFacts AddrOrder DiscoverFacts DocumentFacts.
Import QuadFacts.

(** X14.  The enumerator fails exactly when the overlay provider does:
    [findTailmonEndpoints] returns an error if and only if [LocalClient]
    fails, or it succeeds and [Status] fails, and the error is the
    provider's; [marshalEndpoints] fails exactly when [findTailmonEndpoints]
    does, with the same error, the encoding adding no failure of its own. *)
Theorem findTailmonEndpoints_fails (tailnet : tsnet.Handle) (err : error) :
  (findTailmonEndpoints tailnet = Fail err
   <-> (tsnet.LocalClient tailnet = Fail err
        \/ exists lc, tsnet.LocalClient tailnet = Ok lc /\ tsnet.Status lc = Fail err))
  /\ (marshalEndpoints tailnet = Fail err <-> findTailmonEndpoints tailnet = Fail err).
Proof. split; [apply findTailmonEndpoints_Fail|apply marshalEndpoints_Fail]. Qed.

(** X15.  The order of the endpoints returned: an endpoint never comes
    after one of a longer address family, so that IPv4 addresses come before
    IPv6 addresses, and within a family the addresses ascend by their
    numerical value. *)
Theorem findTailmonEndpoints_ascending tailnet lc status :
  tsnet.LocalClient tailnet = Ok lc -> tsnet.Status lc = Ok status ->
  exists endpoints,
    findTailmonEndpoints tailnet = Ok endpoints
    /\ StronglySorted
         (fun earlier later =>
            ascending (ip earlier) (ip later)
            /\ (Is6 (ip earlier) = true -> Is4 (ip later) = false))
         (elems endpoints).
Proof.
  intros Hlc Hst. rewrite (findTailmonEndpoints_ok _ _ _ Hlc Hst).
  eexists. split; [reflexivity|]. rewrite SliceStable_elems, collect_elems.
  eapply StronglySorted_weaken;
    [|apply (insertionSort_sorted (fun a b => Less (ip a) (ip b)))].
  - cbn beta. intros x y Hxy. apply notLess_ascending in Hxy.
    split; [exact Hxy|]. by apply ascending_family.
  - intros x y. apply Less_asym.
  - intros x y z. apply notLess_trans.
Qed.

(** X16.  The result does not depend on the order in which the loop ranges
    over the peer map, as long as no two different peers that qualify share
    their first address: two answers of the provider whose peers are the
    same up to their order give the same endpoints in the same order, and
    the same document. *)
Theorem findTailmonEndpoints_order_independent tailnet1 lc1 status1 tailnet2 lc2 status2 :
  tsnet.LocalClient tailnet1 = Ok lc1 -> tsnet.Status lc1 = Ok status1 ->
  tsnet.LocalClient tailnet2 = Ok lc2 -> tsnet.Status lc2 = Ok status2 ->
  Permutation (Status.Peer status1) (Status.Peer status2) ->
  (forall v w a b,
      In v (Status.Peer status1) -> In w (Status.Peer status1) ->
      qualifies v = true -> qualifies w = true ->
      head (PeerStatus.TailscaleIPs v) = Some a ->
      head (PeerStatus.TailscaleIPs w) = Some b ->
      v = w \/ Compare a b <> 0) ->
  findTailmonEndpoints tailnet1 = findTailmonEndpoints tailnet2
  /\ marshalEndpoints tailnet1 = marshalEndpoints tailnet2.
Proof.
  intros Hlc1 Hst1 Hlc2 Hst2 Hperm Hdist.
  assert (E : findTailmonEndpoints tailnet1 = findTailmonEndpoints tailnet2).
  { rewrite (findTailmonEndpoints_ok _ _ _ Hlc1 Hst1), (findTailmonEndpoints_ok _ _ _ Hlc2 Hst2).
    f_equal. set (less := fun a b : Endpoint => Less (ip a) (ip b)).
    pose proof (encountered_Permutation _ _ Hperm) as Hpe.
    pose proof (collect_elems (Status.Peer status1)) as H1.
    pose proof (collect_elems (Status.Peer status2)) as H2.
    pose proof (collect_nil (Status.Peer status1)) as N1.
    pose proof (collect_nil (Status.Peer status2)) as N2.
    destruct (collect (Status.Peer status1)) as [l1|], (collect (Status.Peer status2)) as [l2|];
      cbn [sort.SliceStable elems] in *.
    - f_equal. rewrite <- H1, <- H2 in Hpe.
      assert (Hs : forall l, StronglySorted (fun earlier later => less later earlier = false)
                                            (sort.insertionSort less l)).
      { intros l. apply insertionSort_sorted.
        - intros x y. apply Less_asym.
        - intros x y z. apply notLess_trans. }
      apply (StronglySorted_unique_strong
               (fun earlier later => less later earlier = false)); [|apply Hs|apply Hs|].
      + intros x1 x2 Hx1%list_elem_of_In Hx2%list_elem_of_In H12 H21.
        assert (Hi1 : In x1 (encountered (Status.Peer status1))).
        { rewrite <- H1. eapply Permutation_in; [apply insertionSort_perm|exact Hx1]. }
        assert (Hi2 : In x2 (encountered (Status.Peer status1))).
        { rewrite <- H1. eapply Permutation_in; [symmetry; exact Hpe|].
          eapply Permutation_in; [apply insertionSort_perm|exact Hx2]. }
        apply encountered_In in Hi1 as (v & Hv & Ev).
        apply encountered_In in Hi2 as (w & Hw & Ew).
        destruct (peerEndpoint_ip _ _ Ev) as [Qv Av].
        destruct (peerEndpoint_ip _ _ Ew) as [Qw Aw].
        destruct (Hdist v w _ _ Hv Hw Qv Qw Av Aw) as [->|Hne]; [congruence|].
        exfalso. apply Hne. by apply unordered_Compare.
      + rewrite (insertionSort_perm less l1), (insertionSort_perm less l2). exact Hpe.
    - exfalso. destruct N2 as [N2 _]. specialize (N2 eq_refl). rewrite N2 in Hpe.
      apply Permutation_nil_r in Hpe. destruct N1 as [_ N1]. specialize (N1 Hpe).
      discriminate.
    - exfalso. destruct N1 as [N1 _]. specialize (N1 eq_refl). rewrite N1 in Hpe.
      apply Permutation_nil in Hpe. destruct N2 as [_ N2]. specialize (N2 Hpe).
      discriminate.
    - reflexivity. }
  split; [exact E|]. unfold marshalEndpoints. by rewrite E.
Qed.

(** X17.  Discovery reads back what registration wrote: a peer that has an
    address and whose hostname is the node name of a registration whose
    name holds no [/] yields an endpoint whose exporter name is the name of
    the registration and whose node name is its hostname. *)
Theorem findTailmonEndpoints_registration tailnet lc status v (e0 : tailmon.exporter) :
  tsnet.LocalClient tailnet = Ok lc -> tsnet.Status lc = Ok status ->
  In v (Status.Peer status) ->
  PeerStatus.HostName v = tailmon.TailscaleNodeName e0 ->
  count "/"%char (tailmon.name e0) = 0%nat ->
  PeerStatus.TailscaleIPs v <> [] ->
  exists endpoints e,
    findTailmonEndpoints tailnet = Ok endpoints
    /\ In e (elems endpoints)
    /\ head (PeerStatus.TailscaleIPs v) = Some (ip e)
    /\ Labels e !! "__meta_tailmon_exporter_name" = Some (tailmon.name e0)
    /\ Labels e !! "__meta_tailmon_node_name" = Some (tailmon.hostname e0)
    /\ Labels e !! "__meta_tailscale_dns_name" = Some (PeerStatus.DNSName v).
Proof.
  intros Hlc Hst Hin Hname Hslash Hips. rewrite (findTailmonEndpoints_ok _ _ _ Hlc Hst).
  assert (Hq : qualifies v = true).
  { unfold qualifies. rewrite Hname. unfold tailmon.TailscaleNodeName.
    rewrite HasPrefix_app. by destruct (PeerStatus.TailscaleIPs v). }
  apply peerEndpoint_qualifies in Hq as [e He].
  destruct (peerEndpoint_describes v e He) as (Hh & _ & _ & Hdns & Hlab).
  destruct (Hlab _ _ Hname Hslash) as [Hx Hn].
  eexists _, e. split; [reflexivity|]. split; [|by repeat split].
  rewrite SliceStable_elems, collect_elems.
  apply (Permutation_in _ (Permutation_sym (insertionSort_perm _ _))).
  apply encountered_In. eauto.
Qed.

(** X18.  The document, member by member: when the provider answers, the
    document is [null] for the nil slice and otherwise the array of the
    endpoints in the order in which [findTailmonEndpoints] returns them;
    the member of an endpoint is an object with [targets], an array of the
    one target, the address with port 80, and then [labels], an object
    whose keys come in the order exporter name, node name, DNS name. *)
Theorem marshalEndpoints_document tailnet lc status :
  tsnet.LocalClient tailnet = Ok lc -> tsnet.Status lc = Ok status ->
  exists endpoints,
    findTailmonEndpoints tailnet = Ok endpoints
    /\ marshalEndpoints tailnet
       = Ok match endpoints with
            | None => json.Null
            | Some l =>
              json.Array
                (map (fun e => memberOf (targetOf (ip e))
                                        (label e "__meta_tailmon_exporter_name")
                                        (label e "__meta_tailmon_node_name")
                                        (label e "__meta_tailscale_dns_name")) l)
            end.
Proof.
  intros Hlc Hst. unfold marshalEndpoints. rewrite (findTailmonEndpoints_ok _ _ _ Hlc Hst).
  eexists. split; [reflexivity|]. f_equal.
  pose proof (collect_elems (Status.Peer status)) as Hel.
  destruct (collect (Status.Peer status)) as [l|];
    cbn [sort.SliceStable marshalSlice elems] in *; [|reflexivity].
  f_equal. apply map_ext_in. intros e He.
  apply (Permutation_in _ (insertionSort_perm _ _)) in He. rewrite Hel in He.
  apply encountered_In in He as (v & _ & Ev). by apply (marshalEndpoint_member v).
Qed.

(** X19.  The handler of the pattern [/].  For a path other than [/] it
    answers 404 with the text [tailmon-discover] and a line feed.  For the
    path [/], when the document can be built, it sets the content type to
    JSON and writes the document, without writing a status of its own.  When
    the provider fails, it logs the error, answers 500 with the text of the
    error and, there being no [return], goes on to set the content type and
    to write the data, which is the nil slice. *)
Theorem NewDiscoverHandler_root_replies (tailnet : tsnet.Handle) (path : string) :
  (path <> "/"
   /\ NewDiscoverHandler_root tailnet path
      = [Ev (WriteHeader 404); Ev (WriteString ("tailmon-discover" +:+ LF))])
  \/ (path = "/"
      /\ exists doc,
           marshalEndpoints tailnet = Ok doc
           /\ NewDiscoverHandler_root tailnet path
              = [HeaderSet "content-type" "application/json; charset=utf-8";
                 WriteData (Some doc)])
  \/ (path = "/"
      /\ exists err,
           (tsnet.LocalClient tailnet = Fail err
            \/ exists lc, tsnet.LocalClient tailnet = Ok lc /\ tsnet.Status lc = Fail err)
           /\ NewDiscoverHandler_root tailnet path
              = [Ev (Log ErrorLevel "marshalEndpoints" [zapError err]);
                 Ev (WriteHeader 500);
                 WriteErrorText err;
                 HeaderSet "content-type" "application/json; charset=utf-8";
                 WriteData None]).
Proof.
  unfold NewDiscoverHandler_root.
  destruct (String.eqb_spec path "/") as [->|Hne]; cbn [negb];
    [|left; split; [exact Hne|reflexivity]].
  right. destruct (marshalEndpoints tailnet) as [doc|err] eqn:E.
  - left. split; [reflexivity|]. exists doc. by split.
  - right. split; [reflexivity|]. exists err. split; [|reflexivity].
    by apply findTailmonEndpoints_Fail, marshalEndpoints_Fail.
Qed.

(** X20.  The target of an IPv4 address is its dotted quad and the port,
    without brackets; the same four bytes as an IPv4-mapped IPv6 address are
    not unmapped: their target is in brackets, with the prefix [::ffff:]. *)
Theorem formatAddr_ipv4 (a b c d port : Z) :
  0 <= a < 256 -> 0 <= b < 256 -> 0 <= c < 256 -> 0 <= d < 256 ->
  formatAddr (AddrFrom4 a b c d) port
  = itoa a +:+ "." +:+ itoa b +:+ "." +:+ itoa c +:+ "." +:+ itoa d +:+ ":" +:+ itoa port
  /\ formatAddr {| hi := 0; lo := lo (AddrFrom4 a b c d); z := z6noz |} port
     = "[::ffff:" +:+ itoa a +:+ "." +:+ itoa b +:+ "." +:+ itoa c +:+ "." +:+ itoa d
       +:+ "]:" +:+ itoa port.
Proof.
  intros Ha Hb Hc Hd.
  destruct (v4_AddrFrom4 a b c d Ha Hb Hc Hd) as (E0 & E1 & E2 & E3).
  split.
  - unfold formatAddr. change (Is4 (AddrFrom4 a b c d)) with true. cbv iota.
    unfold String. change (z (AddrFrom4 a b c d)) with z4. cbv iota.
    unfold string4. rewrite E0, E1, E2, E3. by rewrite !MapFacts.app_assoc_s.
  - set (ip := {| hi := 0; lo := lo (AddrFrom4 a b c d); z := z6noz |}).
    assert (H46 : Is4In6 ip = true).
    { unfold Is4In6, Is6, ip. cbn [z hi lo]. rewrite AddrFrom4_lo by done.
      rewrite Z.shiftr_div_pow2 by lia.
      change (2 ^ 32) with 4294967296. change (2 ^ 24) with 16777216.
      change (2 ^ 16) with 65536. change (2 ^ 8) with 256.
      cbn [andb]. apply Z.eqb_eq. Z.to_euclidean_division_equations; lia. }
    unfold formatAddr. change (Is4 ip) with false. cbv iota.
    unfold String. change (z ip) with z6noz. cbv iota. rewrite H46.
    unfold string4In6, Unmap. rewrite H46. unfold string4, zoneSuffix.
    change (z ip) with z6noz. cbv iota.
    change (v4 {| hi := hi ip; lo := lo ip; z := z4 |}) with (v4 (AddrFrom4 a b c d)).
    rewrite E0, E1, E2, E3. rewrite !MapFacts.app_assoc_s. reflexivity.
Qed.

End DiscoverProperties.

Section DiscoverMainProperties.
Import discover unicode tshttp NameFacts LifecycleFacts.
Context `{RangeTables}.

(** X21.  What [main] of the discoverer does once its checks have passed,
    when the state directory can be made: it initializes once, although
    both [Tailnet] and [Start] ask for it, so that [tshttp init] is logged
    once; the node is named [tailmon-discover] and keeps its state in
    [<state>/data-tailmon-discover]; the provider's log lines are kept only
    under [-debug].  When the listener is bound the server is left running,
    ready for [Shutdown]; when it is not, the process ends in a fatal log
    entry, [unable to initialize], after the helper goroutine has been
    started. *)
Theorem main_run_once (flags : Flags) (MkdirAll : string -> Z -> option error)
  (listen : option error) :
  flagState flags <> "" ->
  (forall dir perm err, MkdirAll dir perm = Some err -> errors_Is_ErrExist err = true) ->
  main_run MkdirAll listen (main_server flags)
  = ([Entry (Log DebugLevel "tshttp init" []);
      Entry (Log InfoLevel "tailnet starting" []);
      Go AuthHelper;
      Entry (Log DebugLevel "listen" [zapInt "port" 80]);
      Listen "tcp" ":80"]
     ++ match listen with
        | None => [Go Serving]
        | Some err => [Entry (Log FatalLevel "unable to initialize" [zapError err])]
        end,
     match listen with
     | None =>
       Some {| Logger := Some (log.MustZapLogger (flagDebug flags));
               Name := "tailmon-discover";
               ControlURL := controlURL flags;
               StateDir := flagState flags;
               Debug := flagDebug flags;
               tailnet :=
                 Some {| tsnet.Dir := flagState flags +:+ "/data-tailmon-discover";
                         tsnet.Hostname := "tailmon-discover";
                         tsnet.ControlURL := controlURL flags;
                         tsnet.Logf := if flagDebug flags then tsnet.Infof "tsnet.Server"
                                       else tsnet.Discard |};
               cancel := true;
               initOnce := true |}
     | Some _ => None
     end).
Proof.
  intros Hs Hmk. unfold main_run, Tailnet, Start.
  rewrite initOnce_Do_first by done. unfold main_server at 1 2 3 4 5 6 7 8 9 10.
  cbn [initOnce Logger Name StateDir Debug ControlURL cancel tailnet].
  change (String.eqb "tailmon-discover" "") with false. cbv iota.
  destruct (String.eqb_spec (flagState flags) "") as [|_]; [done|].
  rewrite (sanitize_ascii_bytes "tailmon-discover") by reflexivity.
  change (mapBytes _ "tailmon-discover") with "tailmon-discover".
  cbn [log.MustZapLogger debugEnabled]. rewrite orb_diag.
  unfold initOnce_Do. cbn [initOnce tailnet].
  destruct listen; reflexivity.
Qed.

End DiscoverMainProperties.

Section DiscoverMoreWitnesses.
Import discover tailmon unicode tshttp netip.

Lemma findTailmonEndpoints_ascending_witness :
  exists endpoints,
    findTailmonEndpoints (overlayOf [custom; host2; otherService; host1]) = Ok endpoints
    /\ StronglySorted
         (fun earlier later =>
            ascending (ip earlier) (ip later)
            /\ (Is6 (ip earlier) = true -> Is4 (ip later) = false))
         (elems endpoints).
Proof.
  exact (findTailmonEndpoints_ascending
           (overlayOf [custom; host2; otherService; host1])
           (clientOf [custom; host2; otherService; host1])
           (statusOf [custom; host2; otherService; host1]) eq_refl eq_refl).
Defined.

Lemma findTailmonEndpoints_order_independent_witness :
  findTailmonEndpoints (overlayOf [custom; host2; host1])
  = findTailmonEndpoints (overlayOf [host1; custom; host2])
  /\ marshalEndpoints (overlayOf [custom; host2; host1])
     = marshalEndpoints (overlayOf [host1; custom; host2]).
Proof.
  apply (findTailmonEndpoints_order_independent
           (overlayOf [custom; host2; host1]) (clientOf [custom; host2; host1])
           (statusOf [custom; host2; host1])
           (overlayOf [host1; custom; host2]) (clientOf [host1; custom; host2])
           (statusOf [host1; custom; host2]) eq_refl eq_refl eq_refl eq_refl).
  - cbn [statusOf Status.Peer].
    apply (Permutation_cons_app [host1] [host2] custom). apply perm_swap.
  - cbn [statusOf Status.Peer]. intros v w a b Hv Hw _ _ Ha Hb.
    destruct Hv as [<-|[<-|[<-|[]]]]; destruct Hw as [<-|[<-|[<-|[]]]];
      injection Ha as <-; injection Hb as <-;
      first [left; reflexivity | right; discriminate].
Defined.

Lemma findTailmonEndpoints_registration_witness :
  exists endpoints e,
    findTailmonEndpoints (overlayOf [custom; host2; otherService; host1]) = Ok endpoints
    /\ In e (elems endpoints)
    /\ head (PeerStatus.TailscaleIPs host1) = Some (ip e)
    /\ Labels e !! "__meta_tailmon_exporter_name" = Some "node-exporter"
    /\ Labels e !! "__meta_tailmon_node_name" = Some "host1"
    /\ Labels e !! "__meta_tailscale_dns_name"
       = Some "tailmon-node-exporter-host1.ts.example.com.".
Proof.
  apply (findTailmonEndpoints_registration
           (overlayOf [custom; host2; otherService; host1])
           (clientOf [custom; host2; otherService; host1])
           (statusOf [custom; host2; otherService; host1]) host1
           {| name := "node-exporter"; port := 9100; hostname := "host1" |}
           eq_refl eq_refl).
  - right. right. right. left. reflexivity.
  - reflexivity.
  - reflexivity.
  - discriminate.
Defined.

Lemma marshalEndpoints_document_witness :
  exists endpoints,
    findTailmonEndpoints (overlayOf [host2; otherService; host1]) = Ok endpoints
    /\ marshalEndpoints (overlayOf [host2; otherService; host1])
       = Ok match endpoints with
            | None => json.Null
            | Some l =>
              json.Array
                (map (fun e => memberOf (targetOf (ip e))
                                        (label e "__meta_tailmon_exporter_name")
                                        (label e "__meta_tailmon_node_name")
                                        (label e "__meta_tailscale_dns_name")) l)
            end.
Proof.
  exact (marshalEndpoints_document
           (overlayOf [host2; otherService; host1])
           (clientOf [host2; otherService; host1])
           (statusOf [host2; otherService; host1]) eq_refl eq_refl).
Defined.

(** The document of the example of the specification, member by member. *)
Example marshalEndpoints_example :
  marshalEndpoints (overlayOf [host2; otherService; host1])
  = Ok (json.Array
          [memberOf "100.64.0.1:80" "node-exporter" "host1"
                    "tailmon-node-exporter-host1.ts.example.com.";
           memberOf "100.64.0.2:80" "postgres-exporter" "host2"
                    "tailmon-postgres-exporter-host2.ts.example.com."]).
Proof. reflexivity. Qed.

Lemma formatAddr_ipv4_witness :
  formatAddr (AddrFrom4 100 64 0 1) 80 = "100.64.0.1:80"
  /\ formatAddr {| hi := 0; lo := lo (AddrFrom4 100 64 0 1); z := z6noz |} 80
     = "[::ffff:100.64.0.1]:80".
Proof. apply (formatAddr_ipv4 100 64 0 1 80); lia. Defined.

Lemma main_run_once_witness :
  @main_run excerpt (fun _ _ => Some (pathError "mkdir" "/var/lib/tailmon" true))
    (Some (errorString "listen tcp :80: address already in use"))
    (discover.main_server
       {| flagDebug := true; flagState := "/var/lib/tailmon";
          flagNoLogs := true; controlURL := "" |})
  = ([Entry (Log DebugLevel "tshttp init" []);
      Entry (Log InfoLevel "tailnet starting" []);
      Go AuthHelper;
      Entry (Log DebugLevel "listen" [zapInt "port" 80]);
      Listen "tcp" ":80";
      Entry (Log FatalLevel "unable to initialize"
                 [zapError (errorString "listen tcp :80: address already in use")])],
     None).
Proof.
  apply (@main_run_once excerpt
           {| flagDebug := true; flagState := "/var/lib/tailmon";
              flagNoLogs := true; controlURL := "" |}
           (fun _ _ => Some (pathError "mkdir" "/var/lib/tailmon" true))
           (Some (errorString "listen tcp :80: address already in use"))).
  - discriminate.
  - intros dir perm err [= <-]. reflexivity.
Defined.

End DiscoverMoreWitnesses.
